(** * torchquad: the VEGAS control loop and the Gaussian quadrature front end

    A shallow embedding of [torchquad/integration/vegas.py] and of
    [torchquad/integration/gaussian.py].

    - Numbers.  The source is backend polymorphic (autoray): a scalar is a
      0-dimensional tensor of the backend's floating type.  [Backend] is
      that interface; [float64] instantiates it with IEEE binary64
      (numpy / torch double, Python floats) and computes; [exact]
      instantiates it with real arithmetic extended by the IEEE special
      values ([xreal]), without rounding or overflow, and is used where a
      statement is about the mathematical value of a formula.
    - Python integers are [Z]; a value that is an integer on some paths and
      a tensor on others ([_starting_N], the accumulators of the helper
      loops) is a [pynum].
    - An object is a record of its attributes; a method takes the object
      and returns the new one.  Exceptions are the [Err] results of
      [outcome]; a method raises together with the object as it then is.
    - What the two files take from files that are not modelled (the
      importance map, the stratification, the random source, the domain
      set-up, the root finders) is a field of [Vegas.Collab] or
      [Gauss.Collab]; the integrator logs each call that leaves it in the
      ghost attribute [trace].  Calls to the logger are left out. *)

From Stdlib Require Import String.
From Stdlib Require Import ZArith List Bool Lia QArith.
From Stdlib Require Import Reals Lra.
From Stdlib Require Import PrimFloat Uint63 SpecFloat FloatOps FloatAxioms.
Import ListNotations.

Set Warnings "-inexact-float".
Set Implicit Arguments.
Local Open Scope Z_scope.

(** ** Exceptions *)

Inductive exn : Type :=
| ZeroDivisionError
| IndexError
| ValueError
| AttributeError.

(** The result of a call: a value, or what is raised.  A helper without
    state raises an [exn]; a method raises an [exn] together with the
    object as the exception leaves it. *)
Inductive outcome (E A : Type) : Type :=
| Ok (a : A)
| Err (e : E).

Arguments Ok {E A} a.
Arguments Err {E A} e.

Definition bind {E A B : Type} (m : outcome E A) (k : A -> outcome E B)
    : outcome E B :=
  match m with
  | Ok a => k a
  | Err e => Err e
  end.

Notation "x <- m ;; k" := (bind m (fun x => k))
  (at level 61, m at next level, right associativity).

(** ** The numerical backend *)

Class Backend (T : Type) : Type := {
  of_Z : Z -> T;
  add : T -> T -> T;
  sub : T -> T -> T;
  mul : T -> T -> T;
  div : T -> T -> T;
  sqrt : T -> T;
  isnan : T -> bool;
  (* [ltb a b] is [a < b]; false as soon as one side is NaN *)
  ltb : T -> T -> bool;
  minimum : T -> T -> T;
  (* [tensor.sum()] and [anp.mean] of a one-dimensional array *)
  tsum : list T -> T;
  mean : list T -> T;
  (* used by statements only: the absolute value, and the test for a
     value that is neither NaN nor infinite *)
  abs : T -> T;
  isfinite : T -> bool
}.

(** A decimal literal of the source ([1.0], [5.0], [1e-8], [0.999999]):
    the correctly rounded quotient of two integers. *)
Definition lit {T} `{Backend T} (q : Q) : T :=
  div (of_Z (Qnum q)) (of_Z (Zpos (Qden q))).

Definition gtb {T} `{Backend T} (a b : T) : bool := ltb b a.

(** [pow(x, 2)] *)
Definition pow2 {T} `{Backend T} (x : T) : T := mul x x.

(** *** IEEE binary64 *)

(** The conversion of a Python integer, correctly rounded for integers
    below 2^63 in absolute value. *)
Definition float_of_Z (z : Z) : float :=
  match z with
  | Z0 => PrimFloat.zero
  | Zpos _ => PrimFloat.of_uint63 (Uint63.of_Z z)
  | Zneg _ => PrimFloat.opp (PrimFloat.of_uint63 (Uint63.of_Z (- z)))
  end.

Definition float_minimum (a b : float) : float :=
  if PrimFloat.is_nan a then a
  else if PrimFloat.is_nan b then b
  else if PrimFloat.ltb b a then b else a.

Definition float_sum (l : list float) : float :=
  fold_left PrimFloat.add l PrimFloat.zero.

Definition float_mean (l : list float) : float :=
  PrimFloat.div (float_sum l) (float_of_Z (Z.of_nat (length l))).

#[export] Instance float64 : Backend float := {
  of_Z := float_of_Z;
  add := PrimFloat.add;
  sub := PrimFloat.sub;
  mul := PrimFloat.mul;
  div := PrimFloat.div;
  sqrt := PrimFloat.sqrt;
  isnan := PrimFloat.is_nan;
  ltb := PrimFloat.ltb;
  minimum := float_minimum;
  tsum := float_sum;
  mean := float_mean;
  abs := PrimFloat.abs;
  isfinite := PrimFloat.is_finite
}.

(** *** Exact arithmetic with the IEEE special values

    Finite values are real numbers and no operation rounds or overflows;
    a zero divisor, an infinite operand and an undefined form behave as in
    IEEE 754 (zero counts as positive zero). *)

Inductive xreal : Type :=
| Fin (r : R)
| PInf
| NInf
| NaN.

Definition xopp (a : xreal) : xreal :=
  match a with
  | Fin r => Fin (- r)
  | PInf => NInf
  | NInf => PInf
  | NaN => NaN
  end.

Definition xadd (a b : xreal) : xreal :=
  match a, b with
  | NaN, _ | _, NaN => NaN
  | Fin x, Fin y => Fin (x + y)
  | PInf, NInf | NInf, PInf => NaN
  | PInf, _ | _, PInf => PInf
  | NInf, _ | _, NInf => NInf
  end.

Definition xsub (a b : xreal) : xreal := xadd a (xopp b).

(** The sign of an infinite result: [PInf] when [r] is positive, [NInf]
    when it is negative, NaN for zero. *)
Definition xsigned_inf (r : R) : xreal :=
  if Rlt_dec 0 r then PInf else if Rlt_dec r 0 then NInf else NaN.

Definition xmul (a b : xreal) : xreal :=
  match a, b with
  | NaN, _ | _, NaN => NaN
  | Fin x, Fin y => Fin (x * y)
  | Fin x, PInf | PInf, Fin x => xsigned_inf x
  | Fin x, NInf | NInf, Fin x => xsigned_inf (- x)
  | PInf, PInf | NInf, NInf => PInf
  | PInf, NInf | NInf, PInf => NInf
  end.

Definition xdiv (a b : xreal) : xreal :=
  match a, b with
  | NaN, _ | _, NaN => NaN
  | Fin x, Fin y => if Req_dec_T y 0 then xsigned_inf x else Fin (x / y)
  | Fin _, PInf | Fin _, NInf => Fin 0
  | PInf, Fin y => if Rlt_dec y 0 then NInf else PInf
  | NInf, Fin y => if Rlt_dec y 0 then PInf else NInf
  | _, _ => NaN
  end.

Definition xsqrt (a : xreal) : xreal :=
  match a with
  | Fin x => if Rlt_dec x 0 then NaN else Fin (R_sqrt.sqrt x)
  | PInf => PInf
  | NInf | NaN => NaN
  end.

Definition xisnan (a : xreal) : bool :=
  match a with NaN => true | _ => false end.

Definition xltb (a b : xreal) : bool :=
  match a, b with
  | NaN, _ | _, NaN => false
  | Fin x, Fin y => if Rlt_dec x y then true else false
  | NInf, NInf | PInf, _ | _, NInf => false
  | NInf, _ | _, PInf => true
  end.

Definition xminimum (a b : xreal) : xreal :=
  if xisnan a then a else if xisnan b then b
  else if xltb b a then b else a.

Definition xsum (l : list xreal) : xreal := fold_left xadd l (Fin 0).

Definition xmean (l : list xreal) : xreal :=
  xdiv (xsum l) (Fin (IZR (Z.of_nat (length l)))).

Definition xabs (a : xreal) : xreal :=
  match a with
  | Fin r => Fin (Rabs r)
  | PInf | NInf => PInf
  | NaN => NaN
  end.

Definition xisfinite (a : xreal) : bool :=
  match a with Fin _ => true | _ => false end.

#[export] Instance exact : Backend xreal := {
  of_Z := fun z => Fin (IZR z);
  add := xadd;
  sub := xsub;
  mul := xmul;
  div := xdiv;
  sqrt := xsqrt;
  isnan := xisnan;
  ltb := xltb;
  minimum := xminimum;
  tsum := xsum;
  mean := xmean;
  abs := xabs;
  isfinite := xisfinite
}.

(** [a <= b] and [a < b] on the finite part, for statements. *)
Definition xle (a b : xreal) : Prop :=
  match a, b with
  | Fin x, Fin y => (x <= y)%R
  | _, _ => False
  end.

Definition xlt (a b : xreal) : Prop :=
  match a, b with
  | Fin x, Fin y => (x < y)%R
  | _, _ => False
  end.

(** [floor] of a finite value, the bin lookup of the importance map. *)
Definition xfloor (a : xreal) : option Z :=
  match a with
  | Fin x => Some (Zfloor x)
  | _ => None
  end.

(** ** Python numbers that are an [int] or a tensor *)

Section Numbers.
Context {T : Type} `{Backend T}.

Inductive pynum : Type :=
| PyInt (z : Z)
| PyT (t : T).

Definition to_T (v : pynum) : T :=
  match v with
  | PyInt z => of_Z z
  | PyT t => t
  end.

Definition py_add (a b : pynum) : pynum :=
  match a, b with
  | PyInt x, PyInt y => PyInt (x + y)
  | _, _ => PyT (add (to_T a) (to_T b))
  end.

Definition py_sub (a b : pynum) : pynum :=
  match a, b with
  | PyInt x, PyInt y => PyInt (x - y)
  | _, _ => PyT (sub (to_T a) (to_T b))
  end.

(** [a / b]: two Python integers raise on a zero divisor, a tensor
    operand never raises. *)
Definition py_div (a b : pynum) : outcome exn T :=
  match a, b with
  | PyInt x, PyInt y =>
      if y =? 0 then Err ZeroDivisionError else Ok (div (of_Z x) (of_Z y))
  | _, _ => Ok (div (to_T a) (to_T b))
  end.

(** [a > b] *)
Definition py_gtb (a b : pynum) : bool :=
  match a, b with
  | PyInt x, PyInt y => y <? x
  | _, _ => gtb (to_T a) (to_T b)
  end.

(** ** The helper functions of VEGAS over the two record lists *)

(** The loop of [_get_result]: [for idx, res in enumerate(self.results)]. *)
Fixpoint _get_result_loop (rs : list T) (idx : nat) (sigma2 : list T)
    (res_num res_den : pynum) : outcome exn (pynum * pynum) :=
  match rs with
  | [] => Ok (res_num, res_den)
  | r :: rs' =>
      match nth_error sigma2 idx with
      | None => Err IndexError
      | Some s =>
          _get_result_loop rs' (S idx) sigma2
            (py_add res_num (PyT (div r s)))
            (py_add res_den (PyT (div (lit 1) s)))
      end
  end.

Definition _get_result (results sigma2 : list T) : outcome exn T :=
  p <- _get_result_loop results 0%nat sigma2 (PyInt 0) (PyInt 0) ;;
  q <- py_div (fst p) (snd p) ;;
  if isnan q then Ok (mean results) else Ok q.

(** [_get_error]: [for sig in self.sigma2: res += 1.0 / sig]. *)
Definition _get_error (sigma2 : list T) : T :=
  let res := fold_left (fun acc sig => py_add acc (PyT (div (lit 1) sig)))
                       sigma2 (PyInt 0) in
  div (lit 1) (sqrt (to_T res)).

Fixpoint _get_chisq_loop (rs : list T) (idx : nat) (sigma2 : list T)
    (I_final : T) (chi2 : pynum) : outcome exn pynum :=
  match rs with
  | [] => Ok chi2
  | r :: rs' =>
      match nth_error sigma2 idx with
      | None => Err IndexError
      | Some s =>
          _get_chisq_loop rs' (S idx) sigma2 I_final
            (py_add chi2 (PyT (div (pow2 (sub r I_final)) s)))
      end
  end.

Definition _get_chisq (results sigma2 : list T) : outcome exn pynum :=
  I_final <- _get_result results sigma2 ;;
  _get_chisq_loop results 0%nat sigma2 I_final (PyInt 0).

End Numbers.

Arguments pynum T : clear implicits.

(** ** vegas.py *)

Module Vegas.
Section Integrator.
Context {T : Type} `{Backend T}.

(** One value per sample or per cube, and a batch of [dim]-vectors. *)
Definition vec : Type := list T.
Definition points : Type := list (list T).

(** Elementwise tensor arithmetic; the operands have equal shapes. *)
Definition vmul (a b : vec) : vec :=
  List.map (fun p => mul (fst p) (snd p)) (combine a b).
Definition vsq (a : vec) : vec := List.map pow2 a.
Definition vsub (a b : vec) : vec :=
  List.map (fun p => sub (fst p) (snd p)) (combine a b).
Definition vscale (a : vec) (c : T) : vec := List.map (fun x => mul x c) a.
(** a float tensor divided by the integer tensor [neval] *)
Definition vdiv_int (a : vec) (n : list Z) : vec :=
  List.map (fun p => div (fst p) (of_Z (snd p))) (combine a n).
Definition pscale (y : points) (c : T) : points :=
  List.map (fun row => List.map (fun u => mul u c) row) y.
Definition zsum (n : list Z) : Z := fold_left Z.add n 0.

(** The collaborators of the integrator that live in other files:
    [utils] (domain set-up, [RNG]), [vegas_map], [vegas_stratification].
    The random source is one object shared by the integrator and the
    stratification, so it is kept in the integrator state and handed to
    [strat_get_Y]. *)
Record Collab : Type := {
  Dom : Type;
  Map : Type;
  Strat : Type;
  Rng : Type;
  N_too_small : Z -> Z -> bool;
  _setup_integration_domain : Z -> option (list (list T)) -> Dom;
  rng_seed : Z -> Rng;
  rng_uniform : Rng -> Z -> Z -> points * Rng;
  VEGASMap : Z -> Dom -> Z -> Map;
  map_get_X : Map -> points -> points;
  map_get_Jac : Map -> points -> vec;
  map_accumulate_weight : Map -> points -> vec -> Map;
  map_update_map : Map -> Map;
  VEGASStratification : Z -> Z -> Strat;
  strat_N_cubes : Strat -> Z;
  strat_V_cubes : Strat -> T;
  strat_get_NH : Strat -> pynum T -> list Z;
  strat_get_Y : Strat -> Rng -> list Z -> points * Rng;
  strat_accumulate_weight : Strat -> list Z -> vec -> (vec * vec) * Strat;
  strat_update_DH : Strat -> Strat
}.

(** Calls that leave the integrator, in the order they are made. *)
Inductive event : Type :=
| EvUniform (n d : Z)
| EvGetX (y : points)
| EvEval (x : points)
| EvGetJac (y : points)
| EvAccumulate (y : points)
| EvUpdateMap
| EvGetY (neval : list Z)
| EvUpdateDH.

Variable C : Collab.

#[projections(primitive)]
Record VEGAS : Type := {
  _dim : Z;
  _nr_of_fevals : Z;
  _max_iterations : Z;
  use_grid_improve : bool;
  N : Z;
  _starting_N : pynum T;
  _N_increment : Z;
  _fn : points -> vec;
  _integration_domain : Dom C;
  rng : Rng C;
  map : Map C;
  strat : Strat C;
  results : list T;
  sigma2 : list T;
  it : Z;
  alpha : option T;
  starting_N : option T;
  trace : list event
}.

Definition set__dim (v : Z) (self : VEGAS) : VEGAS :=
  {| _dim := v; _nr_of_fevals := _nr_of_fevals self; _max_iterations :=
     _max_iterations self; use_grid_improve := use_grid_improve self; N :=
     N self; _starting_N := _starting_N self; _N_increment := _N_increment
     self; _fn := _fn self; _integration_domain := _integration_domain
     self; rng := rng self; map := map self; strat := strat self; results
     := results self; sigma2 := sigma2 self; it := it self; alpha := alpha
     self; starting_N := starting_N self; trace := trace self |}.

Definition set__nr_of_fevals (v : Z) (self : VEGAS) : VEGAS :=
  {| _dim := _dim self; _nr_of_fevals := v; _max_iterations :=
     _max_iterations self; use_grid_improve := use_grid_improve self; N :=
     N self; _starting_N := _starting_N self; _N_increment := _N_increment
     self; _fn := _fn self; _integration_domain := _integration_domain
     self; rng := rng self; map := map self; strat := strat self; results
     := results self; sigma2 := sigma2 self; it := it self; alpha := alpha
     self; starting_N := starting_N self; trace := trace self |}.

Definition set__max_iterations (v : Z) (self : VEGAS) : VEGAS :=
  {| _dim := _dim self; _nr_of_fevals := _nr_of_fevals self;
     _max_iterations := v; use_grid_improve := use_grid_improve self; N :=
     N self; _starting_N := _starting_N self; _N_increment := _N_increment
     self; _fn := _fn self; _integration_domain := _integration_domain
     self; rng := rng self; map := map self; strat := strat self; results
     := results self; sigma2 := sigma2 self; it := it self; alpha := alpha
     self; starting_N := starting_N self; trace := trace self |}.

Definition set_use_grid_improve (v : bool) (self : VEGAS) : VEGAS :=
  {| _dim := _dim self; _nr_of_fevals := _nr_of_fevals self;
     _max_iterations := _max_iterations self; use_grid_improve := v; N :=
     N self; _starting_N := _starting_N self; _N_increment := _N_increment
     self; _fn := _fn self; _integration_domain := _integration_domain
     self; rng := rng self; map := map self; strat := strat self; results
     := results self; sigma2 := sigma2 self; it := it self; alpha := alpha
     self; starting_N := starting_N self; trace := trace self |}.

Definition set_N (v : Z) (self : VEGAS) : VEGAS :=
  {| _dim := _dim self; _nr_of_fevals := _nr_of_fevals self;
     _max_iterations := _max_iterations self; use_grid_improve :=
     use_grid_improve self; N := v; _starting_N := _starting_N self;
     _N_increment := _N_increment self; _fn := _fn self;
     _integration_domain := _integration_domain self; rng := rng self; map
     := map self; strat := strat self; results := results self; sigma2 :=
     sigma2 self; it := it self; alpha := alpha self; starting_N :=
     starting_N self; trace := trace self |}.

Definition set__starting_N (v : pynum T) (self : VEGAS) : VEGAS :=
  {| _dim := _dim self; _nr_of_fevals := _nr_of_fevals self;
     _max_iterations := _max_iterations self; use_grid_improve :=
     use_grid_improve self; N := N self; _starting_N := v; _N_increment :=
     _N_increment self; _fn := _fn self; _integration_domain :=
     _integration_domain self; rng := rng self; map := map self; strat :=
     strat self; results := results self; sigma2 := sigma2 self; it := it
     self; alpha := alpha self; starting_N := starting_N self; trace :=
     trace self |}.

Definition set__N_increment (v : Z) (self : VEGAS) : VEGAS :=
  {| _dim := _dim self; _nr_of_fevals := _nr_of_fevals self;
     _max_iterations := _max_iterations self; use_grid_improve :=
     use_grid_improve self; N := N self; _starting_N := _starting_N self;
     _N_increment := v; _fn := _fn self; _integration_domain :=
     _integration_domain self; rng := rng self; map := map self; strat :=
     strat self; results := results self; sigma2 := sigma2 self; it := it
     self; alpha := alpha self; starting_N := starting_N self; trace :=
     trace self |}.

Definition set__fn (v : points -> vec) (self : VEGAS) : VEGAS :=
  {| _dim := _dim self; _nr_of_fevals := _nr_of_fevals self;
     _max_iterations := _max_iterations self; use_grid_improve :=
     use_grid_improve self; N := N self; _starting_N := _starting_N self;
     _N_increment := _N_increment self; _fn := v; _integration_domain :=
     _integration_domain self; rng := rng self; map := map self; strat :=
     strat self; results := results self; sigma2 := sigma2 self; it := it
     self; alpha := alpha self; starting_N := starting_N self; trace :=
     trace self |}.

Definition set__integration_domain (v : Dom C) (self : VEGAS) : VEGAS :=
  {| _dim := _dim self; _nr_of_fevals := _nr_of_fevals self;
     _max_iterations := _max_iterations self; use_grid_improve :=
     use_grid_improve self; N := N self; _starting_N := _starting_N self;
     _N_increment := _N_increment self; _fn := _fn self;
     _integration_domain := v; rng := rng self; map := map self; strat :=
     strat self; results := results self; sigma2 := sigma2 self; it := it
     self; alpha := alpha self; starting_N := starting_N self; trace :=
     trace self |}.

Definition set_rng (v : Rng C) (self : VEGAS) : VEGAS :=
  {| _dim := _dim self; _nr_of_fevals := _nr_of_fevals self;
     _max_iterations := _max_iterations self; use_grid_improve :=
     use_grid_improve self; N := N self; _starting_N := _starting_N self;
     _N_increment := _N_increment self; _fn := _fn self;
     _integration_domain := _integration_domain self; rng := v; map := map
     self; strat := strat self; results := results self; sigma2 := sigma2
     self; it := it self; alpha := alpha self; starting_N := starting_N
     self; trace := trace self |}.

Definition set_map (v : Map C) (self : VEGAS) : VEGAS :=
  {| _dim := _dim self; _nr_of_fevals := _nr_of_fevals self;
     _max_iterations := _max_iterations self; use_grid_improve :=
     use_grid_improve self; N := N self; _starting_N := _starting_N self;
     _N_increment := _N_increment self; _fn := _fn self;
     _integration_domain := _integration_domain self; rng := rng self; map
     := v; strat := strat self; results := results self; sigma2 := sigma2
     self; it := it self; alpha := alpha self; starting_N := starting_N
     self; trace := trace self |}.

Definition set_strat (v : Strat C) (self : VEGAS) : VEGAS :=
  {| _dim := _dim self; _nr_of_fevals := _nr_of_fevals self;
     _max_iterations := _max_iterations self; use_grid_improve :=
     use_grid_improve self; N := N self; _starting_N := _starting_N self;
     _N_increment := _N_increment self; _fn := _fn self;
     _integration_domain := _integration_domain self; rng := rng self; map
     := map self; strat := v; results := results self; sigma2 := sigma2
     self; it := it self; alpha := alpha self; starting_N := starting_N
     self; trace := trace self |}.

Definition set_results (v : list T) (self : VEGAS) : VEGAS :=
  {| _dim := _dim self; _nr_of_fevals := _nr_of_fevals self;
     _max_iterations := _max_iterations self; use_grid_improve :=
     use_grid_improve self; N := N self; _starting_N := _starting_N self;
     _N_increment := _N_increment self; _fn := _fn self;
     _integration_domain := _integration_domain self; rng := rng self; map
     := map self; strat := strat self; results := v; sigma2 := sigma2
     self; it := it self; alpha := alpha self; starting_N := starting_N
     self; trace := trace self |}.

Definition set_sigma2 (v : list T) (self : VEGAS) : VEGAS :=
  {| _dim := _dim self; _nr_of_fevals := _nr_of_fevals self;
     _max_iterations := _max_iterations self; use_grid_improve :=
     use_grid_improve self; N := N self; _starting_N := _starting_N self;
     _N_increment := _N_increment self; _fn := _fn self;
     _integration_domain := _integration_domain self; rng := rng self; map
     := map self; strat := strat self; results := results self; sigma2 :=
     v; it := it self; alpha := alpha self; starting_N := starting_N self;
     trace := trace self |}.

Definition set_it (v : Z) (self : VEGAS) : VEGAS :=
  {| _dim := _dim self; _nr_of_fevals := _nr_of_fevals self;
     _max_iterations := _max_iterations self; use_grid_improve :=
     use_grid_improve self; N := N self; _starting_N := _starting_N self;
     _N_increment := _N_increment self; _fn := _fn self;
     _integration_domain := _integration_domain self; rng := rng self; map
     := map self; strat := strat self; results := results self; sigma2 :=
     sigma2 self; it := v; alpha := alpha self; starting_N := starting_N
     self; trace := trace self |}.

Definition set_alpha (v : option T) (self : VEGAS) : VEGAS :=
  {| _dim := _dim self; _nr_of_fevals := _nr_of_fevals self;
     _max_iterations := _max_iterations self; use_grid_improve :=
     use_grid_improve self; N := N self; _starting_N := _starting_N self;
     _N_increment := _N_increment self; _fn := _fn self;
     _integration_domain := _integration_domain self; rng := rng self; map
     := map self; strat := strat self; results := results self; sigma2 :=
     sigma2 self; it := it self; alpha := v; starting_N := starting_N
     self; trace := trace self |}.

Definition set_starting_N (v : option T) (self : VEGAS) : VEGAS :=
  {| _dim := _dim self; _nr_of_fevals := _nr_of_fevals self;
     _max_iterations := _max_iterations self; use_grid_improve :=
     use_grid_improve self; N := N self; _starting_N := _starting_N self;
     _N_increment := _N_increment self; _fn := _fn self;
     _integration_domain := _integration_domain self; rng := rng self; map
     := map self; strat := strat self; results := results self; sigma2 :=
     sigma2 self; it := it self; alpha := alpha self; starting_N := v;
     trace := trace self |}.

Definition set_trace (v : list event) (self : VEGAS) : VEGAS :=
  {| _dim := _dim self; _nr_of_fevals := _nr_of_fevals self;
     _max_iterations := _max_iterations self; use_grid_improve :=
     use_grid_improve self; N := N self; _starting_N := _starting_N self;
     _N_increment := _N_increment self; _fn := _fn self;
     _integration_domain := _integration_domain self; rng := rng self; map
     := map self; strat := strat self; results := results self; sigma2 :=
     sigma2 self; it := it self; alpha := alpha self; starting_N :=
     starting_N self; trace := v |}.

Definition log (e : event) (self : VEGAS) : VEGAS :=
  set_trace (trace self ++ [e]) self.

(** A method's result; an exception leaves with the object as it is. *)
Definition method (A : Type) : Type := outcome (exn * VEGAS) A.

Definition raising {A : Type} (self : VEGAS) (m : outcome exn A) : method A :=
  match m with
  | Ok a => Ok a
  | Err e => Err (e, self)
  end.

(** [l[-1] = f(l[-1])]; Python raises on an empty list. *)
Definition upd_last (f : T -> T) (l : list T) : outcome exn (list T) :=
  match rev l with
  | [] => Err IndexError
  | x :: r => Ok (rev (f x :: r))
  end.

(** [l[-1]] *)
Definition last_of (l : list T) : outcome exn T :=
  match rev l with
  | [] => Err IndexError
  | x :: _ => Ok x
  end.

(** Modelled from the spec: [BaseIntegrator._check_inputs] is not part of
    the modelled files.  It raises the configuration error when
    [dim <= 0], when [N] is too small to give every cube its two
    evaluations (the test itself is the collaborator's), when a bound is
    not a pair or has [lower >= upper], or when the domain has not [dim]
    entries. *)
Definition bound_ok (b : list T) : bool :=
  match b with
  | [lo; hi] => ltb lo hi
  | _ => false
  end.

Definition _check_inputs (dim N : Z)
    (integration_domain : option (list (list T))) : outcome exn unit :=
  if dim <=? 0 then Err ValueError
  else if N_too_small C dim N then Err ValueError
  else match integration_domain with
       | None => Ok tt
       | Some d =>
           if negb (Z.of_nat (length d) =? dim) then Err ValueError
           else if forallb bound_ok d then Ok tt else Err ValueError
       end.

(** Modelled from the spec: [utils.RNG] is not part of the modelled
    files.  With a seed the generator state is a function of the seed;
    without one it is whatever the ambient generator holds. *)
Definition RNG (seed : option Z) (ambient : Rng C) : Rng C :=
  match seed with
  | Some sd => rng_seed C sd
  | None => ambient
  end.

(** Modelled from the spec: [BaseIntegrator._eval] is not part of the
    modelled files.  It evaluates the integrand once on the batch of
    points; the evaluations of the warmup are unaccounted, so the counter
    [_nr_of_fevals] is left to [_run_iteration]. *)
Definition _eval (x : points) (self : VEGAS) : vec * VEGAS :=
  (_fn self x, log (EvEval x) self).

(** One pass of the [for] loop of [_warmup_grid]. *)
Definition warmup_iteration (N_samples : Z) (self : VEGAS) : method VEGAS :=
  let self := set_results (results self ++ [of_Z 0]) self in
  let self := set_sigma2 (sigma2 self ++ [of_Z 0]) self in
  let '(u, g) := rng_uniform C (rng self) N_samples (_dim self) in
  let self := log (EvUniform N_samples (_dim self)) (set_rng g self) in
  let yrnd := pscale u (lit (999999 # 1000000)) in
  let x := map_get_X C (map self) yrnd in
  let self := log (EvGetX yrnd) self in
  let '(f_eval, self) := _eval x self in
  let jac := map_get_Jac C (map self) yrnd in
  let self := log (EvGetJac yrnd) self in
  let jf_vec := vmul f_eval jac in
  let jf_vec2 := vsq jf_vec in
  let self := log (EvAccumulate yrnd)
                (set_map (map_accumulate_weight C (map self) yrnd jf_vec2) self) in
  let jf := tsum jf_vec in
  let jf2 := tsum jf_vec2 in
  let ih := div jf (of_Z N_samples) in
  let sig2 := sub (div jf2 (of_Z N_samples)) (pow2 (div jf (of_Z N_samples))) in
  r <- raising self (upd_last (fun x => add x ih) (results self)) ;;
  let self := set_results r self in
  s2 <- raising self
          (upd_last (fun x => add x (div sig2 (of_Z N_samples))) (sigma2 self)) ;;
  let self := set_sigma2 s2 self in
  let self := log EvUpdateMap (set_map (map_update_map C (map self)) self) in
  Ok self.

(** [for warmup_iter in range(warmup_N_it)] *)
Fixpoint warmup_loop (n : nat) (N_samples : Z) (self : VEGAS) : method VEGAS :=
  match n with
  | O => Ok self
  | S n' =>
      self' <- warmup_iteration N_samples self ;;
      warmup_loop n' N_samples self'
  end.

Definition _warmup_grid (warmup_N_it N_samples : Z) (self : VEGAS)
    : method VEGAS :=
  let self := set_alpha (Some (lit (1 # 2))) self in
  self <- warmup_loop (Z.to_nat warmup_N_it) N_samples self ;;
  Ok (set_sigma2 [] (set_results [] self)).

Definition _run_iteration (self : VEGAS) : method (T * VEGAS) :=
  let neval := strat_get_NH C (strat self) (_starting_N self) in
  let self := set_starting_N
                (Some (div (of_Z (zsum neval))
                           (of_Z (strat_N_cubes C (strat self))))) self in
  let self := set__nr_of_fevals (_nr_of_fevals self + zsum neval) self in
  let '(y, g) := strat_get_Y C (strat self) (rng self) neval in
  let self := log (EvGetY neval) (set_rng g self) in
  let x := map_get_X C (map self) y in
  let self := log (EvGetX y) self in
  let '(f_eval, self) := _eval x self in
  let jac := map_get_Jac C (map self) y in
  let self := log (EvGetJac y) self in
  let jf_vec := vmul f_eval jac in
  let jf_vec2 := vsq jf_vec in
  let self :=
    if use_grid_improve self
    then log (EvAccumulate y)
           (set_map (map_accumulate_weight C (map self) y jf_vec2) self)
    else self in
  let '((jf, jf2), st) := strat_accumulate_weight C (strat self) neval jf_vec in
  let self := set_strat st self in
  let V := strat_V_cubes C (strat self) in
  let ih := vscale (vdiv_int jf neval) V in
  let sig2 := vsub (vscale (vdiv_int jf2 neval) (pow2 V)) (vsq ih) in
  r <- raising self (upd_last (fun _ => tsum ih) (results self)) ;;
  let self := set_results r self in
  s2 <- raising self
          (upd_last (fun _ => tsum (vdiv_int sig2 neval)) (sigma2 self)) ;;
  let self := set_sigma2 s2 self in
  let self :=
    if use_grid_improve self
    then log EvUpdateMap (set_map (map_update_map C (map self)) self)
    else self in
  let self := log EvUpdateDH (set_strat (strat_update_DH C (strat self)) self) in
  s_last <- raising self (last_of (sigma2 self)) ;;
  r_last <- raising self (last_of (results self)) ;;
  Ok (sqrt (div s_last r_last), self).

(** What one pass through the body of [while True] does next. *)
Inductive flow : Type :=
| Break (self : VEGAS)
| Continue (self : VEGAS).

(** The test [(acc < eps_rel or err < eps_abs) and chi2 / 5.0 < 1.0] with
    [acc] as the loop computes it. *)
Definition loop_acc (res err : T) : T :=
  let acc := div err res in
  if isnan acc then of_Z 0 else acc.

Definition errors_acceptable (eps_rel eps_abs acc err : T) (chi2 : pynum T)
    : bool :=
  (ltb acc eps_rel || ltb err eps_abs)
  && ltb (div (to_T chi2) (lit 5)) (lit 1).

(** The part of the body under [if self.it % 5 == 0]. *)
Definition stability_check (eps_rel eps_abs : T) (self : VEGAS)
    : method flow :=
  res <- raising self (_get_result (results self) (sigma2 self)) ;;
  let err := _get_error (sigma2 self) in
  chi2 <- raising self (_get_chisq (results self) (sigma2 self)) ;;
  let acc := loop_acc res err in
  if errors_acceptable eps_rel eps_abs acc err chi2 then Ok (Break self)
  else if ltb (div (to_T chi2) (lit 5)) (lit 1) then
    let n := minimum
               (to_T (py_add (_starting_N self) (PyInt (_N_increment self))))
               (mul (to_T (_starting_N self))
                    (sqrt (div acc (add eps_rel (lit (1 # 100000000)))))) in
    Ok (Continue (set_sigma2 [] (set_results [] (set__starting_N (PyT n) self))))
  else if gtb (div (to_T chi2) (lit 5)) (lit 1) then
    let n := py_add (_starting_N self) (PyInt (_N_increment self)) in
    Ok (Continue (set_sigma2 [] (set_results [] (set__starting_N n self))))
  else Ok (Continue self).

Definition loop_body (eps_rel eps_abs : T) (self : VEGAS) : method flow :=
  let self := set_it (it self + 1) self in
  let self := set_results (results self ++ [of_Z 0]) self in
  let self := set_sigma2 (sigma2 self ++ [of_Z 0]) self in
  p <- _run_iteration self ;;
  let self := snd p in
  if _max_iterations self <? it self then Ok (Break self)
  else if py_gtb (PyInt (_nr_of_fevals self))
                 (py_sub (PyInt (N self)) (_starting_N self))
  then Ok (Break self)
  else if it self mod 5 =? 0 then stability_check eps_rel eps_abs self
  else Ok (Continue self).

(** [while True]; [None] when the fuel runs out before a [break]. *)
Fixpoint main_loop (fuel : nat) (eps_rel eps_abs : T) (self : VEGAS)
    : method (option VEGAS) :=
  match fuel with
  | O => Ok None
  | S fuel' =>
      fl <- loop_body eps_rel eps_abs self ;;
      match fl with
      | Break self' => Ok (Some self')
      | Continue self' => main_loop fuel' eps_rel eps_abs self'
      end
  end.

(** The statements of [integrate] before the main loop.  [ambient] is
    the state of the generator the process holds when no seed is given.
    The warmup is called with [self._starting_N // 5], the integer just
    assigned. *)
Definition integrate_init (self : VEGAS) (ambient : Rng C)
    (fn : points -> vec) (dim N : Z)
    (integration_domain : option (list (list T))) (seed : option Z)
    (use_grid_improve : bool) (max_iterations : Z) (use_warmup : bool)
    : method VEGAS :=
  _ <- raising self (_check_inputs dim N integration_domain) ;;
  let self := set__dim dim self in
  let self := set__nr_of_fevals 0 self in
  let self := set__max_iterations max_iterations self in
  let self := set_use_grid_improve use_grid_improve self in
  let self := set_N N self in
  if max_iterations =? 0 then Err (ZeroDivisionError, self)
  else
    let self := set__starting_N (PyInt (N / max_iterations)) self in
    let self := set__N_increment (N / max_iterations) self in
    let self := set__fn fn self in
    let domain := _setup_integration_domain C dim integration_domain in
    let self := set__integration_domain domain self in
    let self := set_rng (RNG seed ambient) self in
    let N_intervals := Z.max 2 (_N_increment self / 10) in
    let self := set_map (VEGASMap C (_dim self) (_integration_domain self)
                           N_intervals) self in
    let self := set_strat (VEGASStratification C (_N_increment self)
                             (_dim self)) self in
    let self := set_results [] self in
    let self := set_sigma2 [] self in
    let self := set_it 0 self in
    if use_warmup
    then _warmup_grid 5 (N / max_iterations / 5) self
    else Ok self.

(** [integrate]; [Ok None] when the fuel runs out inside the main loop. *)
Definition integrate (fuel : nat) (self : VEGAS) (ambient : Rng C)
    (fn : points -> vec) (dim N : Z)
    (integration_domain : option (list (list T))) (seed : option Z)
    (use_grid_improve : bool) (eps_rel eps_abs : T) (max_iterations : Z)
    (use_warmup : bool) : method (option (T * VEGAS)) :=
  self <- integrate_init self ambient fn dim N integration_domain seed
            use_grid_improve max_iterations use_warmup ;;
  r <- main_loop fuel eps_rel eps_abs self ;;
  match r with
  | None => Ok None
  | Some self' =>
      v <- raising self' (_get_result (results self') (sigma2 self')) ;;
      Ok (Some (v, self'))
  end.

End Integrator.
End Vegas.

(** ** A small concrete set of collaborators

    Used to run the integrator on concrete inputs: a linear congruential
    random source, a map that stays the uniform grid of the domain, and a
    stratification with a single cube.

    One cube is what the stratification has when the budget it is built
    for is below 4 in one dimension, as
    [N_strat = max(1, floor((N_increment / 2)^(1 / dim)))]; the uniform
    map is the map as constructed, which is the map of a whole run when
    neither the warmup nor [use_grid_improve] updates it, or when the
    integrand is constant.  The runs of the loop evaluated in this file
    are of these kinds: one dimension, [N // max_iterations = 2], and
    either a constant integrand or no update of the map. *)

(** Rounding to the nearest integer, a tie to the even one ([round] on a
    tensor).  The stratification needs it for a budget that has become a
    tensor.  NaN and the infinities, which have no nearest integer, give
    0. *)
Class Rounding (T : Type) : Type := {
  round_Z : T -> Z
}.

(** [m * 2^e] rounded to the nearest integer, a tie to the even one. *)
Definition round_half_even (m : positive) (e : Z) : Z :=
  if 0 <=? e then Zpos m * 2 ^ e
  else
    let d := 2 ^ (- e) in
    let q := Zpos m / d in
    match 2 * (Zpos m mod d) ?= d with
    | Lt => q
    | Gt => q + 1
    | Eq => if Z.even q then q else q + 1
    end.

Definition float_round_Z (f : float) : Z :=
  match Prim2SF f with
  | S754_finite s m e =>
      if s then - round_half_even m e else round_half_even m e
  | _ => 0
  end.

#[export] Instance float64_rounding : Rounding float := {
  round_Z := float_round_Z
}.

Definition xround_Z (a : xreal) : Z :=
  match a with
  | Fin r =>
      let f := Zfloor r in
      if Rlt_dec (r - IZR f) (1 / 2) then f
      else if Rlt_dec (1 / 2) (r - IZR f) then f + 1
      else if Z.even f then f else f + 1
  | _ => 0
  end.

#[export] Instance exact_rounding : Rounding xreal := {
  round_Z := xround_Z
}.

Module Toy.
Section Toy.
Context {T : Type} `{Backend T} `{Rounding T}.

Definition lcg_next (g : Z) : Z := (75 * g + 74) mod 65537.

Fixpoint lcg_row (d : nat) (g : Z) : list T * Z :=
  match d with
  | O => ([], g)
  | S d' =>
      let g1 := lcg_next g in
      let '(r, g2) := lcg_row d' g1 in
      (div (of_Z g1) (of_Z 65537) :: r, g2)
  end.

Fixpoint lcg_rows (n d : nat) (g : Z) : list (list T) * Z :=
  match n with
  | O => ([], g)
  | S n' =>
      let '(r, g1) := lcg_row d g in
      let '(rs, g2) := lcg_rows n' d g1 in
      (r :: rs, g2)
  end.

Definition uniform (g : Z) (n d : Z) : list (list T) * Z :=
  lcg_rows (Z.to_nat n) (Z.to_nat d) g.

(** the default domain of [utils._setup_integration_domain] is [-1,1]^dim *)
Definition setup (dim : Z) (d : option (list (list T))) : list (list T) :=
  match d with
  | Some d => d
  | None => repeat [of_Z (-1); of_Z 1] (Z.to_nat dim)
  end.

Definition width (b : list T) : T :=
  match b with
  | [lo; hi] => sub hi lo
  | _ => of_Z 0
  end.

Definition lower (b : list T) : T :=
  match b with
  | lo :: _ => lo
  | _ => of_Z 0
  end.

Definition get_X (dom : list (list T)) (y : list (list T)) : list (list T) :=
  List.map (fun row =>
              List.map (fun p => add (lower (snd p)) (mul (fst p) (width (snd p))))
                       (combine row dom)) y.

Definition get_Jac (dom : list (list T)) (y : list (list T)) : list T :=
  List.map (fun _ => fold_left (fun a b => mul a (width b)) dom (of_Z 1)) y.

(** Modelled from the spec: [get_NH] of the stratification for
    [N_strat = 1], one cube with [dh = 1], whose count is
    [max(2, round(dh * N_total))]; the budget [N_total] is a Python
    integer until the first stability check that changes it, and may be
    a tensor after. *)
Definition get_NH (n : pynum T) : list Z :=
  match n with
  | PyInt z => [Z.max 2 z]
  | PyT t => [Z.max 2 (round_Z t)]
  end.

Definition one_cube : Vegas.Collab := {|
  Vegas.Dom := list (list T);
  Vegas.Map := list (list T);
  Vegas.Strat := Z;
  Vegas.Rng := Z;
  Vegas.N_too_small := fun _ N => N <? 2;
  Vegas._setup_integration_domain := setup;
  Vegas.rng_seed := fun s => s mod 65537;
  Vegas.rng_uniform := uniform;
  Vegas.VEGASMap := fun _ dom _ => dom;
  Vegas.map_get_X := get_X;
  Vegas.map_get_Jac := get_Jac;
  Vegas.map_accumulate_weight := fun m _ _ => m;
  Vegas.map_update_map := fun m => m;
  Vegas.VEGASStratification := fun _ dim => dim;
  Vegas.strat_N_cubes := fun _ => 1;
  Vegas.strat_V_cubes := fun _ => of_Z 1;
  Vegas.strat_get_NH := fun _ n => get_NH n;
  Vegas.strat_get_Y := fun dim g neval => uniform g (Vegas.zsum neval) dim;
  Vegas.strat_accumulate_weight :=
    fun dim _ jf => (([tsum jf], [tsum (Vegas.vsq jf)]), dim);
  Vegas.strat_update_DH := fun s => s
|}.

(** An integrator object before its first call. *)
Definition fresh : Vegas.VEGAS one_cube :=
  Vegas.Build_VEGAS one_cube
    0 0 0 true 0 (PyInt 0) 0 (fun _ => []) [] 0 [] 0 [] [] 0 None None [].

(** the integrand [f(x) = 1] *)
Definition const_one (x : list (list T)) : list T :=
  List.map (fun _ => of_Z 1) x.

End Toy.
End Toy.


(** ** The formulas of the specification

    Written from the specification's words, to be compared with the
    helper functions above.  A sum runs over the records in order,
    starting from zero. *)

Section Formulas.
Context {T : Type} `{Backend T}.

Definition sum_of (l : list T) : T := fold_left add l (of_Z 0).

(** [I = Sum(estimate_k / variance_k) / Sum(1 / variance_k)] *)
Definition weighted_mean (records : list (T * T)) : T :=
  div (sum_of (List.map (fun r => div (fst r) (snd r)) records))
      (sum_of (List.map (fun r => div (lit 1) (snd r)) records)).

(** [sqrt(1 / Sum(1 / variance_k))] *)
Definition error_estimate (variances : list T) : T :=
  sqrt (div (lit 1) (sum_of (List.map (fun v => div (lit 1) v) variances))).

(** [(error / |I| < eps_rel OR error < eps_abs) AND chi2 / 5 < 1] *)
Definition claimed_converged (eps_rel eps_abs I error chi2 : T) : bool :=
  (ltb (div error (abs I)) eps_rel || ltb error eps_abs)
  && ltb (div chi2 (lit 5)) (lit 1).

End Formulas.


(** ** gaussian.py *)

Module Gauss.
Section Quadrature.
Context {T : Type} `{Backend T}.

(** An entry of a domain given as a Python list: an [int], or a [float]
    such as [numpy.inf]. *)
Inductive pyscalar : Type :=
| SInt (z : Z)
| SFloat (f : float).

Definition domain_list : Type := list (list pyscalar).

(** A one- or two-dimensional array. *)
Inductive tensor : Type :=
| T1 (v : list T)
| T2 (m : list (list T)).

(** [x.shape[0]] *)
Definition shape0 (x : tensor) : Z :=
  match x with
  | T1 v => Z.of_nat (length v)
  | T2 m => Z.of_nat (length m)
  end.

(** The classes of the file; the method a call resolves to depends on
    the class of the object. *)
Inductive class : Type :=
| Gaussian_
| GaussLegendre_
| GaussJacobi_
| GaussLaguerre_
| GaussHermite_.

(** The root finders of numpy and scipy the classes refer to. *)
Inductive root_finder : Type :=
| leggauss
| roots_jacobi
| roots_laguerre
| roots_hermite.

(** What the quadrature takes from other files: the integrand and its
    extra arguments, the backend name, the root finders, the domain
    set-up and input checks, and the weighted evaluation of
    [BaseIntegrator._eval]. *)
Record Collab : Type := {
  Fn : Type;
  Args : Type;
  BackendName : Type;
  roots : root_finder -> Z -> list T -> list T * list T;
  (* equality of the tuples that key the cache *)
  key_eqb : Z * list T -> Z * list T -> bool;
  _setup_integration_domain :
    Z -> domain_list -> option BackendName -> list (list T);
  _check_inputs : Z -> Z -> list (list T) -> outcome exn unit;
  _eval : Fn -> tensor -> option Args -> tensor -> list (list T)
}.

Variable C : Collab.

#[projections(primitive)]
Record Gaussian : Type := {
  cls : class;
  name : string;
  root_fn : root_finder;
  root_args : list T;
  default_integration_domain : domain_list;
  transform_interval : bool;
  (* keys are the tuples [(N,) + root_args] *)
  _cache : list ((Z * list T) * (list T * list T));
  (* the instance attribute [wrapper_func = None] of the two rules on
     unbounded intervals *)
  wrapper_func_is_None : bool;
  _integration_domain : list (list T);
  _dim : Z;
  _fn : option (Fn C)
}.

Definition method (A : Type) : Type := outcome (exn * Gaussian) A.

Definition set__integration_domain (v : list (list T)) (self : Gaussian)
    : Gaussian :=
  {| cls := cls self; name := name self; root_fn := root_fn self;
     root_args := root_args self;
     default_integration_domain := default_integration_domain self;
     transform_interval := transform_interval self; _cache := _cache self;
     wrapper_func_is_None := wrapper_func_is_None self;
     _integration_domain := v; _dim := _dim self; _fn := _fn self |}.

Definition set__dim (v : Z) (self : Gaussian) : Gaussian :=
  {| cls := cls self; name := name self; root_fn := root_fn self;
     root_args := root_args self;
     default_integration_domain := default_integration_domain self;
     transform_interval := transform_interval self; _cache := _cache self;
     wrapper_func_is_None := wrapper_func_is_None self;
     _integration_domain := _integration_domain self; _dim := v;
     _fn := _fn self |}.

Definition set__fn (v : option (Fn C)) (self : Gaussian) : Gaussian :=
  {| cls := cls self; name := name self; root_fn := root_fn self;
     root_args := root_args self;
     default_integration_domain := default_integration_domain self;
     transform_interval := transform_interval self; _cache := _cache self;
     wrapper_func_is_None := wrapper_func_is_None self;
     _integration_domain := _integration_domain self; _dim := _dim self;
     _fn := v |}.

Definition set__cache (v : list ((Z * list T) * (list T * list T)))
    (self : Gaussian) : Gaussian :=
  {| cls := cls self; name := name self; root_fn := root_fn self;
     root_args := root_args self;
     default_integration_domain := default_integration_domain self;
     transform_interval := transform_interval self; _cache := v;
     wrapper_func_is_None := wrapper_func_is_None self;
     _integration_domain := _integration_domain self; _dim := _dim self;
     _fn := _fn self |}.

(** [Gaussian.__init__] *)
Definition Gaussian_init (c : class) : Gaussian :=
  {| cls := c; name := "Gauss-Legendre"; root_fn := leggauss;
     root_args := [];
     default_integration_domain := [[SInt (-1); SInt 1]];
     transform_interval := true; _cache := [];
     wrapper_func_is_None := false;
     _integration_domain := []; _dim := 0; _fn := None |}.

Definition GaussLegendre_init : Gaussian := Gaussian_init GaussLegendre_.

Definition GaussJacobi_init (alpha beta : T) : Gaussian :=
  let self := Gaussian_init GaussJacobi_ in
  {| cls := cls self; name := "Gauss-Jacobi"; root_fn := roots_jacobi;
     root_args := [alpha; beta];
     default_integration_domain := default_integration_domain self;
     transform_interval := transform_interval self; _cache := _cache self;
     wrapper_func_is_None := wrapper_func_is_None self;
     _integration_domain := _integration_domain self; _dim := _dim self;
     _fn := _fn self |}.

Definition GaussLaguerre_init : Gaussian :=
  let self := Gaussian_init GaussLaguerre_ in
  {| cls := cls self; name := "Gauss-Laguerre"; root_fn := roots_laguerre;
     root_args := root_args self;
     default_integration_domain := [[SInt 0; SFloat infinity]];
     transform_interval := transform_interval self; _cache := _cache self;
     wrapper_func_is_None := true;
     _integration_domain := _integration_domain self; _dim := _dim self;
     _fn := _fn self |}.

Definition GaussHermite_init : Gaussian :=
  let self := Gaussian_init GaussHermite_ in
  {| cls := cls self; name := "Gauss-Hermite"; root_fn := roots_hermite;
     root_args := root_args self;
     default_integration_domain :=
       [[SFloat (PrimFloat.mul (-1) infinity); SFloat infinity]];
     transform_interval := transform_interval self; _cache := _cache self;
     wrapper_func_is_None := true;
     _integration_domain := _integration_domain self; _dim := _dim self;
     _fn := _fn self |}.

Fixpoint lookup (k : Z * list T)
    (c : list ((Z * list T) * (list T * list T))) : option (list T * list T) :=
  match c with
  | [] => None
  | (k', v) :: c' => if key_eqb C k k' then Some v else lookup k c'
  end.

Definition _cached_roots (root_args : Z * list T) (self : Gaussian)
    : (list T * list T) * Gaussian :=
  match lookup root_args (_cache self) with
  | Some v => (v, self)
  | None =>
      let v := roots C (root_fn self) (fst root_args) (snd root_args) in
      (v, set__cache ((root_args, v) :: _cache self) self)
  end.

(** [do("repeat", x, dim).reshape(dim, x.shape[0])]: every entry of the
    flattened array is repeated [dim] times and the result is cut into
    [dim] rows of [x.shape[0]] entries; the reshape raises when the sizes
    do not match. *)
Definition repeat_each (x : list T) (k : nat) : list T :=
  flat_map (fun e => repeat e k) x.

Fixpoint rows_of (rows n : nat) (l : list T) : list (list T) :=
  match rows with
  | O => []
  | S r => firstn n l :: rows_of r n (skipn n l)
  end.

Definition _expand_dimension (x : tensor) (self : Gaussian)
    : outcome exn tensor :=
  let flat := match x with
              | T1 v => v
              | T2 m => concat m
              end in
  let n := Z.to_nat (shape0 x) in
  if _dim self <? 0 then Err ValueError
  else if Nat.eqb (length flat * Z.to_nat (_dim self))
                  (Z.to_nat (_dim self) * n)
       then Ok (T2 (rows_of (Z.to_nat (_dim self)) n
                      (repeat_each flat (Z.to_nat (_dim self)))))
       else Err ValueError.

(** [a, b = self._integration_domain.T] *)
Definition column (i : nat) (d : list (list T)) : list T :=
  List.map (fun row => nth i row (of_Z 0)) d.

(** [anp.outer(a, x)] *)
Definition outer (a x : list T) : list (list T) :=
  List.map (fun ai => List.map (fun xj => mul ai xj) x) a.

Definition madd (p q : list (list T)) : list (list T) :=
  List.map (fun r => List.map (fun e => add (fst e) (snd e))
                              (combine (fst r) (snd r)))
           (combine p q).

(** [wrapper_func] of [GaussLegendre] and [GaussJacobi]: from [-1,1] to
    [a,b]. *)
Definition wrapper_func (xi wi : list T) (self : Gaussian)
    : tensor * tensor :=
  let a := column 0 (_integration_domain self) in
  let b := column 1 (_integration_domain self) in
  let x0 := List.map (fun x => mul (lit (1 # 2)) (sub (lit 1) x)) xi in
  let x1 := List.map (fun x => mul (lit (1 # 2)) (add (lit 1) x)) xi in
  (T2 (madd (outer a x0) (outer b x1)), T1 wi).

(** [self.wrapper_func]: [None] for the rules on unbounded intervals, the
    method for [GaussLegendre] and [GaussJacobi], missing on the base
    class. *)
Definition get_wrapper_func (self : Gaussian)
    : outcome exn (option (list T -> list T -> tensor * tensor)) :=
  if wrapper_func_is_None self then Ok None
  else match cls self with
       | GaussLegendre_ | GaussJacobi_ =>
           Ok (Some (fun xi wi => wrapper_func xi wi self))
       | _ => Err AttributeError
       end.

Definition _get_constant_multiplier (self : Gaussian) : outcome exn tensor :=
  match cls self with
  | GaussLegendre_ | GaussJacobi_ =>
      let a := column 0 (_integration_domain self) in
      let b := column 1 (_integration_domain self) in
      Ok (T1 (List.map (fun p => mul (lit (1 # 2)) (sub (snd p) (fst p)))
                       (combine a b)))
  | GaussLaguerre_ | GaussHermite_ => Ok (T1 [lit 1])
  | Gaussian_ => Err AttributeError
  end.

Definition raising {A : Type} (self : Gaussian) (m : outcome exn A) : method A :=
  match m with
  | Ok a => Ok a
  | Err e => Err (e, self)
  end.

Definition _points_and_weights (root_args : Z * list T)
    (wrapper : option (list T -> list T -> tensor * tensor))
    (self : Gaussian) : method ((tensor * tensor) * Gaussian) :=
  let '((xi, wi), self) := _cached_roots root_args self in
  let '(xi, wi) := match wrapper with
                   | Some w => w xi wi
                   | None => (T1 xi, T1 wi)
                   end in
  xi <- (if negb (shape0 xi =? _dim self)
         then raising self (_expand_dimension xi self) else Ok xi) ;;
  wi <- (if negb (shape0 wi =? _dim self)
         then raising self (_expand_dimension wi self) else Ok wi) ;;
  Ok ((xi, wi), self).

(** [const * v] with [const] a scalar or one factor per dimension. *)
Definition scale_rows (const : tensor) (v : list T) : list T :=
  match const with
  | T1 [c] => List.map (fun x => mul c x) v
  | T1 cs => List.map (fun p => mul (fst p) (snd p)) (combine cs v)
  | T2 _ => v
  end.

(** [self.default_integration_domain * dim] *)
Definition list_times (l : domain_list) (n : Z) : domain_list :=
  concat (repeat l (Z.to_nat n)).

Definition fixed_domain_rule (self : Gaussian) : bool :=
  existsb (String.eqb (name self)) ["Gauss-Laguerre"; "Gauss-Hermite"]%string.

(** The domain the rest of [integrate] works with. *)
Definition select_domain (self : Gaussian) (dim : Z)
    (integration_domain : option domain_list) : domain_list :=
  match integration_domain with
  | None => list_times (default_integration_domain self) dim
  | Some d =>
      if fixed_domain_rule self
      then list_times (default_integration_domain self) dim
      else d
  end.

Definition integrate (self : Gaussian) (fn : Fn C) (dim : Z)
    (args : option (Args C)) (N : Z)
    (integration_domain : option domain_list)
    (backend : option (BackendName C)) : method (T * Gaussian) :=
  let integration_domain := select_domain self dim integration_domain in
  let self := set__integration_domain
                (_setup_integration_domain C dim integration_domain backend)
                self in
  _ <- raising self (_check_inputs C dim N (_integration_domain self)) ;;
  let self := set__dim dim self in
  let self := set__fn (Some fn) self in
  const <- raising self (_get_constant_multiplier self) ;;
  let root_args := (N, root_args self) in
  wrapper <- raising self (get_wrapper_func self) ;;
  p <- _points_and_weights root_args wrapper self ;;
  let '((xi, wi), self) := p in
  let integral :=
    tsum (scale_rows const
            (List.map tsum (_eval C fn xi args wi))) in
  Ok (integral, self).

End Quadrature.
End Gauss.

(** ** Notions used in the statements *)

Section Observations.
Context {T : Type} `{Backend T}.
Variable C : @Vegas.Collab T.

(** Whether a pass through the body of the loop ends in [break]. *)
Definition is_break (fl : Vegas.flow C) : bool :=
  match fl with
  | Vegas.Break _ => true
  | Vegas.Continue _ => false
  end.

Definition flow_state (fl : Vegas.flow C) : Vegas.VEGAS C :=
  match fl with
  | Vegas.Break s | Vegas.Continue s => s
  end.

Definition breaks (r : Vegas.method C (Vegas.flow C)) : bool :=
  match r with
  | Ok fl => is_break fl
  | Err _ => false
  end.

(** The number of the iteration a call of [integrate] ended in. *)
Definition final_it (r : Vegas.method C (option (T * Vegas.VEGAS C)))
    : option Z :=
  match r with
  | Ok (Some (_, self)) => Some (Vegas.it self)
  | _ => None
  end.

Definition is_update_map (e : @Vegas.event T) : bool :=
  match e with Vegas.EvUpdateMap => true | _ => false end.

Definition is_eval (e : @Vegas.event T) : bool :=
  match e with Vegas.EvEval _ => true | _ => false end.

(** The number of batches the integrand was called on during a call of
    [integrate] that returns. *)
Definition integrand_calls (r : Vegas.method C (option (T * Vegas.VEGAS C)))
    : option nat :=
  match r with
  | Ok (Some (_, self)) => Some (length (filter is_eval (Vegas.trace self)))
  | _ => None
  end.

(** What is returned or raised, without the object. *)
Definition returned (r : Vegas.method C (option (T * Vegas.VEGAS C)))
    : outcome exn (option T) :=
  match r with
  | Ok (Some (v, _)) => Ok (Some v)
  | Ok None => Ok None
  | Err (e, _) => Err e
  end.

(** The sample argument of a call to the map. *)
Definition map_argument (e : @Vegas.event T) : option (list (list T)) :=
  match e with
  | Vegas.EvGetX y | Vegas.EvGetJac y | Vegas.EvAccumulate y => Some y
  | _ => None
  end.

(** The object after the branch [elif chi2 / 5.0 > 1.0]. *)
Definition grown_and_cleared (self : Vegas.VEGAS C) : Vegas.VEGAS C :=
  Vegas.set_sigma2 []
    (Vegas.set_results []
       (Vegas.set__starting_N
          (py_add (Vegas._starting_N self) (PyInt (Vegas._N_increment self)))
          self)).

(** The unit-cube sample of a warmup iteration. *)
Definition warmup_sample (N_samples : Z) (self : Vegas.VEGAS C) : Vegas.points :=
  Vegas.pscale
    (fst (Vegas.rng_uniform C (Vegas.rng self) N_samples (Vegas._dim self)))
    (lit (999999 # 1000000)).

(** The calls of one warmup iteration. *)
Definition warmup_calls (N_samples : Z) (self : Vegas.VEGAS C)
    : list Vegas.event :=
  let yrnd := warmup_sample N_samples self in
  [Vegas.EvUniform N_samples (Vegas._dim self);
   Vegas.EvGetX yrnd;
   Vegas.EvEval (Vegas.map_get_X C (Vegas.map self) yrnd);
   Vegas.EvGetJac yrnd;
   Vegas.EvAccumulate yrnd;
   Vegas.EvUpdateMap].

(** What a warmup iteration leaves untouched. *)
Definition warmup_frame (self self' : Vegas.VEGAS C) : Prop :=
  self' = Vegas.set_trace (Vegas.trace self')
            (Vegas.set_map (Vegas.map self')
               (Vegas.set_rng (Vegas.rng self')
                  (Vegas.set_sigma2 (Vegas.sigma2 self')
                     (Vegas.set_results (Vegas.results self') self)))).

(** What the whole warmup leaves of the object it starts from: the map,
    the random source, [alpha] and the call log are new, both record
    lists are empty, everything else is as before. *)
Definition after_warmup (self self' : Vegas.VEGAS C) : Prop :=
  self' = Vegas.set_trace (Vegas.trace self')
            (Vegas.set_alpha (Vegas.alpha self')
               (Vegas.set_map (Vegas.map self')
                  (Vegas.set_rng (Vegas.rng self')
                     (Vegas.set_sigma2 []
                        (Vegas.set_results [] self))))).

(** A sample handed to the map during the warmup: a uniform draw scaled
    by 0.999999. *)
Definition scaled_uniform (y : Vegas.points) : Prop :=
  exists g n d,
    y = Vegas.pscale (fst (Vegas.rng_uniform C g n d)) (lit (999999 # 1000000)).

Definition warmup_event (e : @Vegas.event T) : Prop :=
  match e with
  | Vegas.EvGetX y | Vegas.EvGetJac y | Vegas.EvAccumulate y => scaled_uniform y
  | Vegas.EvGetY _ | Vegas.EvUpdateDH => False
  | Vegas.EvUniform _ _ | Vegas.EvEval _ | Vegas.EvUpdateMap => True
  end.

(** The configurations the specification calls fatal. *)
Definition bad_configuration (dim N : Z)
    (integration_domain : option (list (list T))) : Prop :=
  (dim <= 0)%Z
  \/ Vegas.N_too_small C dim N = true
  \/ exists d, integration_domain = Some d
               /\ (Z.of_nat (length d) <> dim
                   \/ exists b, In b d /\ Vegas.bound_ok b = false).

(** The attributes only the statements before the loop assign. *)
Definition same_config (a b : Vegas.VEGAS C) : Prop :=
  Vegas._dim b = Vegas._dim a
  /\ Vegas._max_iterations b = Vegas._max_iterations a
  /\ Vegas.use_grid_improve b = Vegas.use_grid_improve a
  /\ Vegas.N b = Vegas.N a
  /\ Vegas._N_increment b = Vegas._N_increment a
  /\ Vegas._fn b = Vegas._fn a
  /\ Vegas._integration_domain b = Vegas._integration_domain a.

(** Both record lists have one entry per recorded iteration. *)
Definition paired (self : Vegas.VEGAS C) : Prop :=
  length (Vegas.results self) = length (Vegas.sigma2 self).

(** Two objects that differ at most in [alpha], in the attribute
    [starting_N] and in the call log, none of which the integrator
    reads. *)
Definition agree (a b : Vegas.VEGAS C) : Prop :=
  b = Vegas.set_trace (Vegas.trace b)
        (Vegas.set_starting_N (Vegas.starting_N b)
           (Vegas.set_alpha (Vegas.alpha b) a)).

(** Two results of a method that are both values related by [R], or both
    the same exception. *)
Definition orel {A : Type} (R : A -> A -> Prop) (x y : Vegas.method C A)
    : Prop :=
  match x, y with
  | Ok u, Ok v => R u v
  | Err (e, _), Err (e', _) => e = e'
  | _, _ => False
  end.

Definition flow_agree (x y : Vegas.flow C) : Prop :=
  match x, y with
  | Vegas.Break u, Vegas.Break v => agree u v
  | Vegas.Continue u, Vegas.Continue v => agree u v
  | _, _ => False
  end.

Definition final_agree (x y : option (Vegas.VEGAS C)) : Prop :=
  match x, y with
  | Some u, Some v => agree u v
  | None, None => True
  | _, _ => False
  end.

End Observations.

Arguments agree {T C} a b.
Arguments flow_agree {T C} x y.
Arguments final_agree {T C} x y.
Arguments orel {T C A} R x y.
Arguments is_update_map {T} e.
Arguments is_eval {T} e.
Arguments map_argument {T} e.

(** A value of [0, 1). *)
Definition unit_interval (u : xreal) : Prop := xle (Fin 0) u /\ xlt u (Fin 1).

(** A coordinate in [0, 0.999999), hence below 1, whose bin index
    [floor(y * n_intervals)] is at most [n_intervals - 1]. *)
Definition below_one (y : xreal) : Prop :=
  xle (Fin 0) y
  /\ xlt y (lit (999999 # 1000000))
  /\ xlt y (Fin 1)
  /\ forall n_intervals : Z,
       (1 <= n_intervals)%Z ->
       exists bin : Z,
         xfloor (xmul y (Fin (IZR n_intervals))) = Some bin
         /\ (0 <= bin <= n_intervals - 1)%Z.

(** ** Concrete objects *)

(** The concrete collaborators and a fresh object over binary64 and over
    exact arithmetic. *)
Definition toy64 : @Vegas.Collab float :=
  @Toy.one_cube float float64 float64_rounding.
Definition fresh64 : Vegas.VEGAS toy64 :=
  @Toy.fresh float float64 float64_rounding.
Definition toyx : @Vegas.Collab xreal :=
  @Toy.one_cube xreal exact exact_rounding.
Definition freshx : Vegas.VEGAS toyx :=
  @Toy.fresh xreal exact exact_rounding.

Local Open Scope float_scope.

(** The integrand [f(x) = -x] in one dimension. *)
Definition minus_x (x : list (list float)) : list float :=
  List.map (fun row => match row with
                       | [a] => PrimFloat.opp a
                       | _ => 0
                       end) x.

(** The integrand [f(x) = x] in one dimension. *)
Definition plus_x (x : list (list float)) : list float :=
  List.map (fun row => match row with
                       | [a] => a
                       | _ => 0
                       end) x.

(** The object at its first check, after five iterations that each
    recorded the estimate -1 with variance 0.01. *)
Definition five_negative_records : Vegas.VEGAS toy64 :=
  Vegas.set_it 5%Z
    (Vegas.set_sigma2 [0.01; 0.01; 0.01; 0.01; 0.01]
       (Vegas.set_results [-1; -1; -1; -1; -1] fresh64)).

(** The object at its first check with the records (-1, 1), (-1, 1),
    (-1, 1), (1, 1), (0.5, 0.25): the combined estimate is 0 and chi2 is
    exactly 5. *)
Definition chi2_exactly_five : Vegas.VEGAS toy64 :=
  Vegas.set__N_increment 50%Z
    (Vegas.set__starting_N (PyInt 50)
       (Vegas.set_it 5%Z
          (Vegas.set_sigma2 [1; 1; 1; 1; 0.25]
             (Vegas.set_results [-1; -1; -1; 1; 0.5] fresh64)))).

(** The object at its first check with five records whose chi2 is 20. *)
Definition chi2_twenty : Vegas.VEGAS toy64 :=
  Vegas.set__N_increment 50%Z
    (Vegas.set__starting_N (PyInt 50)
       (Vegas.set_it 5%Z
          (Vegas.set_sigma2 [1; 1; 1; 1; 0.25]
             (Vegas.set_results [-2; -2; -2; 2; 1] fresh64)))).

(** Collaborators for the quadrature with no nodes at all. *)
Definition no_nodes : @Gauss.Collab float := {|
  Gauss.Fn := unit;
  Gauss.Args := unit;
  Gauss.BackendName := string;
  Gauss.roots := fun _ _ _ => ([], []);
  Gauss.key_eqb := fun a b => Z.eqb (fst a) (fst b);
  Gauss._setup_integration_domain := fun _ _ _ => [];
  Gauss._check_inputs := fun _ _ _ => Ok tt;
  Gauss._eval := fun _ _ _ _ => []
|}.

Local Close Scope float_scope.

(** ** Records with finite entries

    Recorded pairs (estimate, variance) of real numbers, and the formulas
    over them in plain real arithmetic. *)

Definition fin_results (recs : list (R * R)) : list xreal :=
  List.map (fun p => Fin (fst p)) recs.

Definition fin_sigma2 (recs : list (R * R)) : list xreal :=
  List.map (fun p => Fin (snd p)) recs.

Definition Rsum (l : list R) : R := fold_left Rplus l 0%R.

Definition weighted_mean_R (recs : list (R * R)) : R :=
  (Rsum (List.map (fun p => fst p / snd p) recs)
   / Rsum (List.map (fun p => 1 / snd p) recs))%R.

Definition chi_square_R (recs : list (R * R)) : R :=
  Rsum (List.map (fun p => (fst p - weighted_mean_R recs)
                           * (fst p - weighted_mean_R recs) / snd p)%R
                 recs).

Definition positive_variances (recs : list (R * R)) : Prop :=
  Forall (fun p => (0 < snd p)%R) recs.

(** [1 / sqrt(Sum(1 / variance_k))] over real variances. *)
Definition error_R (vs : list R) : R :=
  (1 / R_sqrt.sqrt (Rsum (List.map (fun v => 1 / v) vs)))%R.

(** The unweighted mean of the recorded estimates. *)
Definition mean_R (recs : list (R * R)) : R :=
  (Rsum (List.map fst recs) / IZR (Z.of_nat (length recs)))%R.

(** No variance is negative and one at least is exactly zero. *)
Definition some_zero_variance (recs : list (R * R)) : Prop :=
  Forall (fun p => (0 <= snd p)%R) recs /\ Exists (fun p => snd p = 0%R) recs.

(** ** What a run of the loop does and why it ends *)

Definition is_accumulate {T : Type} (e : @Vegas.event T) : bool :=
  match e with Vegas.EvAccumulate _ => true | _ => false end.

Definition is_get_Y {T : Type} (e : @Vegas.event T) : bool :=
  match e with Vegas.EvGetY _ => true | _ => false end.

Section LoopObservations.
Context {T : Type} `{Backend T}.
Variable C : @Vegas.Collab T.

(** The counts [strat.get_NH] gives for the current budget. *)
Definition iteration_neval (self : Vegas.VEGAS C) : list Z :=
  Vegas.strat_get_NH C (Vegas.strat self) (Vegas._starting_N self).

(** The stratified sample of an iteration. *)
Definition iteration_sample (self : Vegas.VEGAS C) : Vegas.points :=
  fst (Vegas.strat_get_Y C (Vegas.strat self) (Vegas.rng self)
         (iteration_neval self)).

(** The calls of [_run_iteration], in order. *)
Definition iteration_calls (self : Vegas.VEGAS C) : list Vegas.event :=
  let y := iteration_sample self in
  [Vegas.EvGetY (iteration_neval self);
   Vegas.EvGetX y;
   Vegas.EvEval (Vegas.map_get_X C (Vegas.map self) y);
   Vegas.EvGetJac y]
  ++ (if Vegas.use_grid_improve self
      then [Vegas.EvAccumulate y; Vegas.EvUpdateMap] else [])
  ++ [Vegas.EvUpdateDH].

(** What [_run_iteration] leaves untouched: everything but the two
    record lists, the evaluation counter, the random source, the map,
    the stratification, the attribute [starting_N] and the call log.
    In particular the budget [_starting_N] and the iteration counter
    are as before. *)
Definition iteration_frame (self self' : Vegas.VEGAS C) : Prop :=
  self' = Vegas.set_trace (Vegas.trace self')
            (Vegas.set_starting_N (Vegas.starting_N self')
               (Vegas.set_strat (Vegas.strat self')
                  (Vegas.set_map (Vegas.map self')
                     (Vegas.set_rng (Vegas.rng self')
                        (Vegas.set__nr_of_fevals (Vegas._nr_of_fevals self')
                           (Vegas.set_sigma2 (Vegas.sigma2 self')
                              (Vegas.set_results (Vegas.results self')
                                 self))))))).

(** The test [(acc < eps_rel or err < eps_abs) and chi2 / 5.0 < 1.0] on
    the records of the object. *)
Definition converged (eps_rel eps_abs : T) (self : Vegas.VEGAS C) : bool :=
  match _get_result (Vegas.results self) (Vegas.sigma2 self),
        _get_chisq (Vegas.results self) (Vegas.sigma2 self) with
  | Ok res, Ok chi2 =>
      let err := _get_error (Vegas.sigma2 self) in
      Vegas.errors_acceptable eps_rel eps_abs (Vegas.loop_acc res err) err chi2
  | _, _ => false
  end.

(** [self._nr_of_fevals > self.N - self._starting_N] *)
Definition budget_spent (self : Vegas.VEGAS C) : bool :=
  py_gtb (PyInt (Vegas._nr_of_fevals self))
         (py_sub (PyInt (Vegas.N self)) (Vegas._starting_N self)).

(** The three [break] statements of the loop. *)
Inductive stop_cause : Type :=
| IterationLimit
| BudgetSpent
| Converged.

Definition stopped_by (eps_rel eps_abs : T) (self : Vegas.VEGAS C)
    (c : stop_cause) : Prop :=
  match c with
  | IterationLimit => (Vegas._max_iterations self < Vegas.it self)%Z
  | BudgetSpent =>
      (Vegas.it self <= Vegas._max_iterations self)%Z
      /\ budget_spent self = true
  | Converged =>
      (Vegas.it self <= Vegas._max_iterations self)%Z
      /\ budget_spent self = false
      /\ (Vegas.it self mod 5 = 0)%Z
      /\ converged eps_rel eps_abs self = true
  end.

(** The object a stability check leaves when it clears the records:
    only the budget and the two record lists differ. *)
Definition cleared_with_budget (self self' : Vegas.VEGAS C) : Prop :=
  self' = Vegas.set_sigma2 []
            (Vegas.set_results []
               (Vegas.set__starting_N (Vegas._starting_N self') self)).

End LoopObservations.

(** ** The quadrature: notions for the statements *)

Section GaussObservations.
Context {T : Type} `{Backend T}.
Variable C : @Gauss.Collab T.

(** The attributes only the constructors assign. *)
Definition same_rule (a b : Gauss.Gaussian C) : Prop :=
  Gauss.cls b = Gauss.cls a
  /\ Gauss.name b = Gauss.name a
  /\ Gauss.root_fn b = Gauss.root_fn a
  /\ Gauss.root_args b = Gauss.root_args a
  /\ Gauss.default_integration_domain b = Gauss.default_integration_domain a
  /\ Gauss.transform_interval b = Gauss.transform_interval a
  /\ Gauss.wrapper_func_is_None b = Gauss.wrapper_func_is_None a.

(** The object a call leaves, whether it returns or raises. *)
Definition final_object {A : Type} (r : Gauss.method C A)
    (proj : A -> Gauss.Gaussian C) : Gauss.Gaussian C :=
  match r with
  | Ok a => proj a
  | Err (_, self) => self
  end.

Definition is_Ok {E A : Type} (r : outcome E A) : bool :=
  match r with Ok _ => true | Err _ => false end.

(** A one-dimensional array. *)
Definition is_1d (x : @Gauss.tensor T) : bool :=
  match x with Gauss.T1 _ => true | Gauss.T2 _ => false end.

End GaussObservations.

(** A domain given by real bounds, one pair per dimension. *)
Definition fin_domain (ab : list (R * R)) : list (list xreal) :=
  List.map (fun p => [Fin (fst p); Fin (snd p)]) ab.

(** The point of [a, b] the node [x] of [-1, 1] is mapped to. *)
Definition affine_R (a b x : R) : R :=
  (a * (1 / 2 * (1 - x)) + b * (1 / 2 * (1 + x)))%R.

(** Every entry of a row lies between the two bounds. *)
Definition inside (p : R * R) (row : list xreal) : Prop :=
  Forall (fun e => xle (Fin (fst p)) e /\ xle e (Fin (snd p))) row.

Local Open Scope float_scope.

(** Collaborators for the quadrature with the two nodes -0.5 and 0.5 of
    weight 1, whatever rule and degree are asked for. *)
Definition two_nodes : @Gauss.Collab float := {|
  Gauss.Fn := unit;
  Gauss.Args := unit;
  Gauss.BackendName := string;
  Gauss.roots := fun _ _ _ => ([-0.5; 0.5], [1; 1]);
  Gauss.key_eqb := fun a b => Z.eqb (fst a) (fst b);
  Gauss._setup_integration_domain := fun _ _ _ => [[0; 1]];
  Gauss._check_inputs := fun _ _ _ => Ok tt;
  Gauss._eval := fun _ _ _ _ => []
|}.

(** The cache key of a Gauss-Legendre call of degree 8: [(8,) + ()]. *)
Definition degree_8 : Z * list float := (8%Z, []).

Local Close Scope float_scope.

(** Collaborators for the quadrature in exact arithmetic, with the three
    nodes -1, 0 and 1. *)
Definition three_nodes : @Gauss.Collab xreal := {|
  Gauss.Fn := unit;
  Gauss.Args := unit;
  Gauss.BackendName := string;
  Gauss.roots := fun _ _ _ => ([Fin (-1); Fin 0; Fin 1], [Fin 1; Fin 1; Fin 1]);
  Gauss.key_eqb := fun a b => Z.eqb (fst a) (fst b);
  Gauss._setup_integration_domain := fun _ _ _ => [[Fin 0; Fin 1]];
  Gauss._check_inputs := fun _ _ _ => Ok tt;
  Gauss._eval := fun _ _ _ _ => []
|}.

(** A Gauss-Legendre object set up for the unit square. *)
Definition legendre_on_unit_square : Gauss.Gaussian three_nodes :=
  Gauss.set__integration_domain (fin_domain [(0, 1); (0, 1)]%R)
    (Gauss.GaussLegendre_init three_nodes).
(** ** Properties of the helper functions *)

Unset Implicit Arguments.

Section HelperFacts.
Context {T : Type} `{Backend T}.

Lemma skipn_cons_nth (A : Type) (l : list A) (i : nat) (x : A) (r : list A) :
  skipn i l = x :: r -> nth_error l i = Some x /\ skipn (S i) l = r.
Proof.
  revert l. induction i as [|i IH]; intros [|a l] E; simpl in *;
    try discriminate.
  - inversion E; subst. auto.
  - apply IH in E. destruct E as [E1 E2]. split; [exact E1|].
    destruct l; simpl in *; auto.
Qed.

(** Once the accumulators are tensors, the loop of [_get_result] is the
    pair of left-to-right sums over the remaining records. *)
Lemma _get_result_loop_sums (rs : list T) :
  forall (idx : nat) (sigma2 : list T) (a b : T),
    length (skipn idx sigma2) = length rs ->
    _get_result_loop rs idx sigma2 (PyT a) (PyT b)
    = Ok (PyT (fold_left add
                 (List.map (fun r => div (fst r) (snd r))
                           (combine rs (skipn idx sigma2))) a),
          PyT (fold_left add
                 (List.map (fun r => div (lit 1) (snd r))
                           (combine rs (skipn idx sigma2))) b)).
Proof.
  induction rs as [|r rs IH]; intros idx sigma2 a b L; simpl.
  - reflexivity.
  - destruct (skipn idx sigma2) as [|s rest] eqn:E; [discriminate|].
    destruct (skipn_cons_nth _ _ _ _ _ E) as [E1 E2].
    rewrite E1. simpl in L. injection L as L.
    rewrite IH by (rewrite E2; exact L).
    rewrite E2. reflexivity.
Qed.

Lemma _get_result_weighted (results sigma2 : list T) :
  results <> [] ->
  length results = length sigma2 ->
  _get_result results sigma2
  = Ok (if isnan (weighted_mean (combine results sigma2))
        then mean results
        else weighted_mean (combine results sigma2)).
Proof.
  intros NE L. destruct results as [|r rs]; [congruence|].
  destruct sigma2 as [|s ss]; [discriminate|].
  unfold _get_result, weighted_mean, sum_of. simpl.
  simpl in L. injection L as L.
  rewrite (_get_result_loop_sums rs 1 (s :: ss)) by (simpl; auto).
  simpl.
  match goal with |- context [isnan ?q] => destruct (isnan q) end;
    reflexivity.
Qed.

(** Same for the loop of [_get_chisq]. *)
Lemma _get_chisq_loop_sum (rs : list T) (I_final : T) :
  forall (idx : nat) (sigma2 : list T) (c : pynum T),
    length (skipn idx sigma2) = length rs ->
    exists c', _get_chisq_loop rs idx sigma2 I_final c = Ok c'.
Proof.
  induction rs as [|r rs IH]; intros idx sigma2 c L; simpl.
  - eauto.
  - destruct (skipn idx sigma2) as [|s rest] eqn:E; [discriminate|].
    destruct (skipn_cons_nth _ _ _ _ _ E) as [E1 E2].
    rewrite E1. apply IH. rewrite E2. simpl in L. congruence.
Qed.

Lemma _get_chisq_ok (results sigma2 : list T) :
  results <> [] ->
  length results = length sigma2 ->
  exists c, _get_chisq results sigma2 = Ok c.
Proof.
  intros NE L. unfold _get_chisq.
  rewrite _get_result_weighted by assumption. simpl.
  apply _get_chisq_loop_sum. simpl. auto.
Qed.

End HelperFacts.

Local Open Scope float_scope.

(** C1 (as amended): for equally long, non-empty record lists
    [_get_result] returns the inverse-variance weighted mean
    [Sum(estimate_k/variance_k) / Sum(1/variance_k)], except that it returns
    the unweighted mean of the estimates when that quotient is NaN; an
    infinite quotient is returned as it is.  In binary64 the records
    [1.0, 1.2] with variances [0.01, 0.04] combine to [1.04]. *)
Theorem C1_get_result_weighted_mean_or_mean_on_nan :
  (forall (T : Type) (B : Backend T) (results sigma2 : list T),
      results <> [] ->
      length results = length sigma2 ->
      _get_result results sigma2
      = Ok (if isnan (weighted_mean (combine results sigma2))
            then mean results
            else weighted_mean (combine results sigma2)))
  /\ _get_result [1.0; 1.2] [0.01; 0.04] = Ok 1.04.
Proof.
  split.
  - intros T B results sigma2. apply _get_result_weighted.
  - vm_compute. reflexivity.
Qed.

(** C1 at the two records of the example. *)
Lemma C1_witness :
  ([1.0; 1.2] <> [] /\ length [1.0; 1.2] = length [0.01; 0.04])
  /\ _get_result [1.0; 1.2] [0.01; 0.04]
     = Ok (if isnan (weighted_mean (combine [1.0; 1.2] [0.01; 0.04]))
           then mean [1.0; 1.2]
           else weighted_mean (combine [1.0; 1.2] [0.01; 0.04])).
Proof.
  split.
  - split; [discriminate | reflexivity].
  - apply (proj1 C1_get_result_weighted_mean_or_mean_on_nan float float64);
      [discriminate | reflexivity].
Defined.

(** C1 as stated fails in binary64: for the single record
    (1e200, 1e-200) the weighted quotient overflows to infinity, which is
    not finite, and [_get_result] returns that infinity, not the mean
    1e200. *)
Lemma C1_counterexample :
  ~ (forall results sigma2 : list float,
        results <> [] ->
        length results = length sigma2 ->
        isfinite (weighted_mean (combine results sigma2)) = false ->
        _get_result results sigma2 = Ok (mean results)).
Proof.
  intro Hc.
  specialize (Hc [1e200] [1e-200]).
  assert (E : _get_result [1e200] [1e-200] = Ok (mean [1e200])).
  { apply Hc; [discriminate | reflexivity | vm_compute; reflexivity]. }
  apply (f_equal (fun o : outcome exn float =>
                    match o with
                    | Ok v => PrimFloat.is_infinity v
                    | Err _ => false
                    end)) in E.
  vm_compute in E. discriminate E.
Qed.

Local Close Scope float_scope.

(** ** The error estimate *)

Section ErrorEstimate.
Context {T : Type} `{Backend T}.

Lemma _get_error_fold (l : list T) (a : T) :
  fold_left (fun acc sig => py_add acc (PyT (div (lit 1) sig))) l (PyT a)
  = PyT (fold_left add (List.map (fun v => div (lit 1) v) l) a).
Proof.
  revert a. induction l as [|s l IH]; intro a; simpl; [reflexivity|].
  apply IH.
Qed.

(** What the code computes: the reciprocal of the square root of the sum. *)
Lemma _get_error_recip_sqrt (sigma2 : list T) :
  _get_error sigma2
  = div (lit 1) (sqrt (sum_of (List.map (fun v => div (lit 1) v) sigma2))).
Proof.
  unfold _get_error, sum_of. destruct sigma2 as [|s l]; simpl.
  - reflexivity.
  - rewrite _get_error_fold. reflexivity.
Qed.

End ErrorEstimate.

Lemma lit_one_exact : @lit xreal exact 1 = Fin 1.
Proof.
  unfold lit. simpl. destruct (Req_dec_T 1 0) as [E|_]; [lra|].
  f_equal. field.
Qed.

Lemma xrecip_never_NInf (v : xreal) : xdiv (Fin 1) v <> NInf.
Proof.
  destruct v as [y| | |]; simpl; try discriminate.
  destruct (Req_dec_T y 0); [|discriminate].
  unfold xsigned_inf. destruct (Rlt_dec 0 1); [discriminate|lra].
Qed.

Lemma xadd_never_NInf (a b : xreal) : a <> NInf -> b <> NInf -> xadd a b <> NInf.
Proof. destruct a, b; simpl; congruence. Qed.

Lemma xsum_recip_never_NInf (l : list xreal) (a : xreal) :
  a <> NInf ->
  fold_left xadd (List.map (fun v => xdiv (Fin 1) v) l) a <> NInf.
Proof.
  revert a. induction l as [|v l IH]; intros a Ha; simpl; [exact Ha|].
  apply IH. apply xadd_never_NInf; [exact Ha|apply xrecip_never_NInf].
Qed.

(** In exact arithmetic [1 / sqrt s] and [sqrt (1 / s)] agree, also at zero,
    at plus infinity and on NaN. *)
Lemma xrecip_sqrt (s : xreal) :
  s <> NInf -> xdiv (Fin 1) (xsqrt s) = xsqrt (xdiv (Fin 1) s).
Proof.
  intro Hs. destruct s as [r| | |]; simpl; try congruence.
  - destruct (Rlt_dec r 0) as [Hneg|Hnn].
    + destruct (Req_dec_T r 0) as [E|_]; [lra|]. simpl.
      destruct (Rlt_dec (1 / r) 0) as [_|Hc]; [reflexivity|].
      exfalso. apply Hc. unfold Rdiv. rewrite Rmult_1_l.
      apply Rinv_lt_0_compat. exact Hneg.
    + destruct (Req_dec_T r 0) as [E|Hnz].
      * subst r. rewrite sqrt_0.
        destruct (Req_dec_T 0 0) as [_|Hc]; [|congruence].
        unfold xsigned_inf. destruct (Rlt_dec 0 1); [reflexivity|lra].
      * assert (Hpos : (0 < r)%R) by lra.
        pose proof (sqrt_lt_R0 r Hpos) as Hs0.
        destruct (Req_dec_T (R_sqrt.sqrt r) 0) as [E|_]; [lra|]. simpl.
        destruct (Rlt_dec (1 / r) 0) as [Hc|_].
        { exfalso. pose proof (Rinv_0_lt_compat r Hpos). lra. }
        f_equal. unfold Rdiv. rewrite !Rmult_1_l. symmetry. apply sqrt_inv.
  - destruct (Rlt_dec 0 0); [lra|]. rewrite sqrt_0. reflexivity.
Qed.

Lemma _get_error_exact (sigma2 : list xreal) :
  _get_error sigma2 = error_estimate sigma2.
Proof.
  rewrite _get_error_recip_sqrt. unfold error_estimate, sum_of.
  rewrite lit_one_exact. simpl.
  apply xrecip_sqrt. apply xsum_recip_never_NInf. discriminate.
Qed.

Local Open Scope float_scope.

(** C5: in exact arithmetic the error estimate of a non-empty list of
    variances is [sqrt(1 / Sum(1/variance_k))]; in binary64 the variances
    [0.01, 0.04] give [sqrt(1/125)], which is 0.0894 to four decimals. *)
Theorem C5_get_error_is_sqrt_of_inverse_sum :
  (forall sigma2 : list xreal,
      sigma2 <> [] -> _get_error sigma2 = error_estimate sigma2)
  /\ _get_error [0.01; 0.04] = PrimFloat.sqrt (1 / 125)
  /\ PrimFloat.ltb (PrimFloat.abs (_get_error [0.01; 0.04] - 0.0894)) 0.0001
     = true.
Proof.
  split; [|split].
  - intros sigma2 _. apply _get_error_exact.
  - vm_compute. reflexivity.
  - vm_compute. reflexivity.
Qed.

(** C5 at the variances 1/100 and 4/100. *)
Lemma C5_witness :
  [Fin (1 / 100); Fin (4 / 100)] <> []
  /\ _get_error [Fin (1 / 100); Fin (4 / 100)]
     = error_estimate [Fin (1 / 100); Fin (4 / 100)].
Proof.
  split.
  - discriminate.
  - apply (proj1 C5_get_error_is_sqrt_of_inverse_sum). discriminate.
Defined.

Local Close Scope float_scope.

(** ** The stability check *)

Local Open Scope float_scope.

(** C3 (the code departs from the claim): the loop divides the error by the
    combined estimate itself, not by its absolute value.  With five records
    of estimate -1 and variance 0.01 and [eps_rel = eps_abs = 0] the check
    breaks out of the loop, although the claimed test (error/|I| < eps_rel
    or error < eps_abs) and chi2/5 < 1 is false; and a whole run on
    [f(x) = -x] over [0,1] with both tolerances zero ends at iteration 5,
    where the same run on [f(x) = x] goes on to iteration 14, when its
    evaluations are spent ([N = 59], two evaluations per iteration at the
    start, one cube, the map never updated). *)
Theorem C3_relative_test_without_absolute_value :
  breaks (Vegas.stability_check 0 0 five_negative_records) = true
  /\ (exists I chi2,
         _get_result (Vegas.results five_negative_records)
                     (Vegas.sigma2 five_negative_records) = Ok I
         /\ _get_chisq (Vegas.results five_negative_records)
                       (Vegas.sigma2 five_negative_records) = Ok chi2
         /\ claimed_converged 0 0 I
              (_get_error (Vegas.sigma2 five_negative_records)) (to_T chi2)
            = false)
  /\ final_it (Vegas.integrate 100 fresh64 0%Z minus_x 1 59
                 (Some [[0; 1]]) (Some 4%Z) false 0 0 20 false)
     = Some 5%Z
  /\ final_it (Vegas.integrate 100 fresh64 0%Z plus_x 1 59
                 (Some [[0; 1]]) (Some 4%Z) false 0 0 20 false)
     = Some 14%Z.
Proof.
  split; [|split; [|split]].
  - vm_compute. reflexivity.
  - exists (-1), (PyT 0). repeat split; vm_compute; reflexivity.
  - vm_compute. reflexivity.
  - vm_compute. reflexivity.
Qed.

Section StabilityCheck.
Context {T : Type} `{Backend T}.
Variable C : @Vegas.Collab T.

Lemma stability_check_unstable (eps_rel eps_abs : T) (self : Vegas.VEGAS C)
    (res : T) (chi2 : pynum T) :
  _get_result (Vegas.results self) (Vegas.sigma2 self) = Ok res ->
  _get_chisq (Vegas.results self) (Vegas.sigma2 self) = Ok chi2 ->
  ltb (div (to_T chi2) (lit 5)) (lit 1) = false ->
  gtb (div (to_T chi2) (lit 5)) (lit 1) = true ->
  Vegas.stability_check eps_rel eps_abs self
  = Ok (Vegas.Continue (grown_and_cleared self)).
Proof.
  intros Hres Hchi Hlt Hgt. unfold Vegas.stability_check.
  rewrite Hres, Hchi. simpl. unfold Vegas.errors_acceptable.
  rewrite Hlt, Hgt, andb_false_r. reflexivity.
Qed.

End StabilityCheck.

Local Close Scope float_scope.

(** ** The warmup *)

Section Warmup.
Context {T : Type} `{Backend T}.
Variable C : @Vegas.Collab T.

Lemma upd_last_app (f : T -> T) (l : list T) (x : T) :
  Vegas.upd_last f (l ++ [x]) = Ok (l ++ [f x]).
Proof.
  unfold Vegas.upd_last. rewrite rev_app_distr. simpl.
  rewrite rev_involutive. reflexivity.
Qed.

Lemma last_of_app (l : list T) (x : T) : Vegas.last_of (l ++ [x]) = Ok x.
Proof. unfold Vegas.last_of. rewrite rev_app_distr. reflexivity. Qed.

Lemma warmup_iteration_ok (N_samples : Z) (self : Vegas.VEGAS C) :
  exists self',
    Vegas.warmup_iteration N_samples self = Ok self'
    /\ warmup_frame self self'
    /\ Vegas.trace self' = Vegas.trace self ++ warmup_calls N_samples self
    /\ length (Vegas.results self') = S (length (Vegas.results self))
    /\ length (Vegas.sigma2 self') = S (length (Vegas.sigma2 self)).
Proof.
  unfold Vegas.warmup_iteration, warmup_calls, warmup_sample.
  destruct (Vegas.rng_uniform C (Vegas.rng self) N_samples (Vegas._dim self))
    as [u g] eqn:E.
  cbn. rewrite E. cbn.
  rewrite !upd_last_app. cbn.
  eexists. split; [reflexivity|]. simpl.
  repeat split.
  - rewrite <- !app_assoc. reflexivity.
  - rewrite length_app. simpl. lia.
  - rewrite length_app. simpl. lia.
Qed.

Lemma warmup_frame_refl (self : Vegas.VEGAS C) : warmup_frame self self.
Proof. reflexivity. Qed.

Lemma warmup_frame_trans (a b c : Vegas.VEGAS C) :
  warmup_frame a b -> warmup_frame b c -> warmup_frame a c.
Proof.
  unfold warmup_frame. intros E1 E2.
  rewrite E2. cbn. rewrite E1. cbn. reflexivity.
Qed.

Lemma warmup_calls_events (N_samples : Z) (self : Vegas.VEGAS C) :
  Forall (warmup_event C) (warmup_calls N_samples self)
  /\ length (filter is_update_map (warmup_calls N_samples self)) = 1%nat
  /\ length (filter is_eval (warmup_calls N_samples self)) = 1%nat.
Proof.
  assert (S : scaled_uniform C (warmup_sample N_samples self)).
  { exists (Vegas.rng self), N_samples, (Vegas._dim self). reflexivity. }
  unfold warmup_calls. repeat split.
  repeat constructor; exact S.
Qed.

Lemma warmup_loop_ok (n : nat) (N_samples : Z) :
  forall self : Vegas.VEGAS C,
  exists self' new,
    Vegas.warmup_loop n N_samples self = Ok self'
    /\ warmup_frame self self'
    /\ Vegas.trace self' = Vegas.trace self ++ new
    /\ Forall (warmup_event C) new
    /\ length (filter is_update_map new) = n
    /\ length (filter is_eval new) = n.
Proof.
  induction n as [|n IH]; intro self; simpl.
  - exists self, []. rewrite app_nil_r.
    repeat split; auto using warmup_frame_refl.
  - destruct (warmup_iteration_ok N_samples self)
      as (s1 & E1 & F1 & T1 & _ & _).
    rewrite E1. simpl.
    destruct (IH s1) as (s2 & new & E2 & F2 & T2 & A2 & U2 & V2).
    destruct (warmup_calls_events N_samples self) as (A1 & U1 & V1).
    exists s2, (warmup_calls N_samples self ++ new).
    rewrite E2. repeat split.
    + eapply warmup_frame_trans; eassumption.
    + rewrite T2, T1, app_assoc. reflexivity.
    + apply Forall_app. split; assumption.
    + rewrite filter_app, length_app, U1, U2. reflexivity.
    + rewrite filter_app, length_app, V1, V2. reflexivity.
Qed.

Lemma _warmup_grid_ok (warmup_N_it N_samples : Z) (self : Vegas.VEGAS C) :
  exists self' new,
    Vegas._warmup_grid warmup_N_it N_samples self = Ok self'
    /\ after_warmup self self'
    /\ Vegas.trace self' = Vegas.trace self ++ new
    /\ Forall (warmup_event C) new
    /\ length (filter is_update_map new) = Z.to_nat warmup_N_it
    /\ length (filter is_eval new) = Z.to_nat warmup_N_it.
Proof.
  unfold Vegas._warmup_grid.
  destruct (warmup_loop_ok (Z.to_nat warmup_N_it) N_samples
              (Vegas.set_alpha (Some (lit (1 # 2))) self))
    as (s1 & new & E & F & Tr & A & U & V).
  rewrite E. simpl. eexists. exists new.
  split; [reflexivity|].
  split; [|split; [exact Tr|repeat split; assumption]].
  unfold after_warmup, warmup_frame in *.
  cbn. rewrite F. cbn. reflexivity.
Qed.

End Warmup.

(** C6: with [use_warmup] set, and inputs that pass the checks,
    [integrate] runs five warmup iterations before the main loop (five
    integrand batches, five map updates, no call to the stratification),
    and the object the main loop starts from has both record lists empty
    and differs from the object it would start from without warmup only in
    the map, the random source, [alpha] and the call log; the value
    returned is computed by the main loop from that object. *)
Theorem C6_warmup_records_discarded :
  forall (T : Type) (B : Backend T) (C : @Vegas.Collab T)
         (self : Vegas.VEGAS C) (ambient : Vegas.Rng C)
         (fn : Vegas.points -> Vegas.vec) (dim N : Z)
         (integration_domain : option (list (list T))) (seed : option Z)
         (use_grid_improve : bool) (max_iterations : Z),
    Vegas._check_inputs C dim N integration_domain = Ok tt ->
    max_iterations <> 0%Z ->
    exists (s0 s1 : Vegas.VEGAS C) (new : list Vegas.event),
      Vegas.integrate_init self ambient fn dim N integration_domain seed
        use_grid_improve max_iterations false = Ok s0
      /\ Vegas.integrate_init self ambient fn dim N integration_domain seed
           use_grid_improve max_iterations true = Ok s1
      /\ Vegas.results s1 = [] /\ Vegas.sigma2 s1 = []
      /\ after_warmup s0 s1
      /\ Vegas.trace s1 = Vegas.trace s0 ++ new
      /\ Forall (warmup_event C) new
      /\ length (filter is_update_map new) = 5%nat
      /\ length (filter is_eval new) = 5%nat
      /\ forall (fuel : nat) (eps_rel eps_abs : T),
           Vegas.integrate fuel self ambient fn dim N integration_domain seed
             use_grid_improve eps_rel eps_abs max_iterations true
           = (r <- Vegas.main_loop fuel eps_rel eps_abs s1 ;;
              match r with
              | None => Ok None
              | Some self' =>
                  v <- Vegas.raising self'
                         (_get_result (Vegas.results self')
                                      (Vegas.sigma2 self')) ;;
                  Ok (Some (v, self'))
              end).
Proof.
  intros T B C self ambient fn dim N dom seed ugi max_it Hcheck Hmax.
  unfold Vegas.integrate, Vegas.integrate_init. rewrite Hcheck. simpl.
  destruct (max_it =? 0)%Z eqn:E; [apply Z.eqb_eq in E; contradiction|].
  match goal with
  | |- context [Vegas._warmup_grid 5 ?n ?s] =>
      destruct (_warmup_grid_ok C 5 n s) as (s1 & new & E1 & F & Tr & A & U & V);
      exists s, s1, new
  end.
  rewrite E1. simpl.
  split; [reflexivity|]. split; [reflexivity|].
  assert (R : Vegas.results s1 = [] /\ Vegas.sigma2 s1 = []).
  { unfold after_warmup in F. rewrite F. simpl. split; reflexivity. }
  destruct R as [R1 R2].
  repeat split; try assumption.
Qed.

Local Open Scope float_scope.

(** C6 for a call on the constant integrand with [N = 1000] and 20
    iterations. *)
Lemma C6_witness :
  exists (s0 s1 : Vegas.VEGAS toy64) (new : list Vegas.event),
    Vegas.integrate_init fresh64 0%Z Toy.const_one 1 1000 (Some [[0; 1]])
      (Some 7%Z) true 20 false = Ok s0
    /\ Vegas.integrate_init fresh64 0%Z Toy.const_one 1 1000 (Some [[0; 1]])
         (Some 7%Z) true 20 true = Ok s1
    /\ Vegas.results s1 = [] /\ Vegas.sigma2 s1 = []
    /\ after_warmup s0 s1
    /\ Vegas.trace s1 = Vegas.trace s0 ++ new
    /\ Forall (warmup_event toy64) new
    /\ length (filter is_update_map new) = 5%nat
    /\ length (filter is_eval new) = 5%nat
    /\ forall (fuel : nat) (eps_rel eps_abs : float),
         Vegas.integrate fuel fresh64 0%Z Toy.const_one 1 1000
           (Some [[0; 1]]) (Some 7%Z) true eps_rel eps_abs 20 true
         = (r <- Vegas.main_loop fuel eps_rel eps_abs s1 ;;
            match r with
            | None => Ok None
            | Some self' =>
                v <- Vegas.raising self'
                       (_get_result (Vegas.results self')
                                    (Vegas.sigma2 self')) ;;
                Ok (Some (v, self'))
            end).
Proof.
  apply (@C6_warmup_records_discarded float float64 toy64 fresh64 0%Z
           Toy.const_one 1 1000 (Some [[0; 1]]) (Some 7%Z) true 20).
  - vm_compute. reflexivity.
  - discriminate.
Defined.

Local Close Scope float_scope.

(** ** The warmup samples, in exact arithmetic *)

Lemma lit_scale_exact : @lit xreal exact (999999 # 1000000) = Fin (999999 / 1000000).
Proof.
  unfold lit. simpl. destruct (Req_dec_T 1000000 0) as [E|_]; [lra|].
  reflexivity.
Qed.

Lemma scaled_below_one (u : xreal) :
  unit_interval u -> below_one (xmul u (lit (999999 # 1000000))).
Proof.
  unfold unit_interval, below_one. rewrite lit_scale_exact.
  destruct u as [r| | |]; simpl; try tauto.
  intros [H0 H1]. repeat split; try lra.
  intros n Hn. eexists. split; [reflexivity|].
  assert (Hn' : (1 <= IZR n)%R) by (apply IZR_le; exact Hn).
  pose proof (Zfloor_bound (r * (999999 / 1000000) * IZR n)) as [Hlo Hhi].
  split.
  - apply Zfloor_lub. simpl. nra.
  - assert (Hlt : (IZR (Zfloor (r * (999999 / 1000000) * IZR n)) < IZR n)%R)
      by nra.
    apply lt_IZR in Hlt. lia.
Qed.

Lemma pscale_below_one (u : list (list xreal)) :
  Forall (Forall unit_interval) u ->
  Forall (Forall below_one) (Vegas.pscale u (lit (999999 # 1000000))).
Proof.
  intro Hu. unfold Vegas.pscale. apply Forall_map.
  eapply Forall_impl; [|exact Hu]. intros row Hrow. apply Forall_map.
  eapply Forall_impl; [|exact Hrow]. intros c Hc.
  apply scaled_below_one. exact Hc.
Qed.

(** C10: in exact arithmetic, with a random source whose draws lie in
    [0, 1), the warmup returns, and every sample it hands to [get_X],
    [get_Jac] and [accumulate_weight] is a draw multiplied by 0.999999:
    each coordinate lies in [0, 0.999999), is below 1, and its bin index
    [floor(y * n_intervals)] is at most [n_intervals - 1]. *)
Theorem C10_warmup_samples_below_one :
  forall (C : @Vegas.Collab xreal),
    (forall (g : Vegas.Rng C) (n d : Z),
        Forall (Forall unit_interval) (fst (Vegas.rng_uniform C g n d))) ->
    forall (warmup_N_it N_samples : Z) (self : Vegas.VEGAS C),
    exists (self' : Vegas.VEGAS C) (new : list Vegas.event),
      Vegas._warmup_grid warmup_N_it N_samples self = Ok self'
      /\ Vegas.trace self' = Vegas.trace self ++ new
      /\ Forall (fun e => forall y, map_argument e = Some y ->
                   scaled_uniform C y /\ Forall (Forall below_one) y) new.
Proof.
  intros C Hrng k n self.
  destruct (_warmup_grid_ok C k n self) as (s1 & new & E & _ & Tr & A & _ & _).
  exists s1, new. split; [exact E|]. split; [exact Tr|].
  eapply Forall_impl; [|exact A].
  intros e He y Hy.
  assert (S : scaled_uniform C y).
  { destruct e; simpl in Hy; try discriminate; injection Hy as <-; exact He. }
  split; [exact S|].
  destruct S as (g & m & d & ->). apply pscale_below_one. apply Hrng.
Qed.

Lemma lcg_next_range (g : Z) : (0 <= Toy.lcg_next g < 65537)%Z.
Proof. unfold Toy.lcg_next. apply Z.mod_pos_bound. lia. Qed.

Lemma lcg_value_unit (g : Z) :
  (0 <= g < 65537)%Z -> unit_interval (xdiv (Fin (IZR g)) (Fin (IZR 65537))).
Proof.
  intros [H0 H1]. unfold unit_interval. simpl.
  destruct (Req_dec_T 65537 0) as [E|_]; [lra|]. simpl.
  apply IZR_le in H0. apply IZR_lt in H1. split.
  - apply Rmult_le_pos; [exact H0|]. apply Rlt_le, Rinv_0_lt_compat. lra.
  - apply (Rmult_lt_reg_r 65537); [lra|]. unfold Rdiv.
    rewrite Rmult_assoc, Rinv_l by lra. lra.
Qed.

Lemma lcg_row_unit (d : nat) :
  forall g : Z, Forall unit_interval (fst (@Toy.lcg_row xreal exact d g)).
Proof.
  induction d as [|d IH]; intro g; simpl; [constructor|].
  specialize (IH (Toy.lcg_next g)).
  destruct (Toy.lcg_row d (Toy.lcg_next g)) as [r g2]. simpl in *.
  constructor; [|exact IH].
  apply lcg_value_unit. apply lcg_next_range.
Qed.

Lemma lcg_rows_unit (n d : nat) :
  forall g : Z,
    Forall (Forall unit_interval) (fst (@Toy.lcg_rows xreal exact n d g)).
Proof.
  induction n as [|n IH]; intro g; simpl; [constructor|].
  pose proof (lcg_row_unit d g) as Hr.
  destruct (Toy.lcg_row d g) as [r g1]. simpl in Hr.
  specialize (IH g1).
  destruct (Toy.lcg_rows n d g1) as [rs g2]. simpl in *.
  constructor; assumption.
Qed.

Lemma toy_uniform_unit (g : Vegas.Rng toyx) (n d : Z) :
  Forall (Forall unit_interval) (fst (Vegas.rng_uniform toyx g n d)).
Proof. apply lcg_rows_unit. Qed.

(** C10 for the linear congruential source, five warmup iterations of two
    samples. *)
Lemma C10_witness :
  (forall (g : Vegas.Rng toyx) (n d : Z),
      Forall (Forall unit_interval) (fst (Vegas.rng_uniform toyx g n d)))
  /\ exists (self' : Vegas.VEGAS toyx) (new : list Vegas.event),
       Vegas._warmup_grid 5 2 freshx = Ok self'
       /\ Vegas.trace self' = Vegas.trace freshx ++ new
       /\ Forall (fun e => forall y, map_argument e = Some y ->
                    scaled_uniform toyx y /\ Forall (Forall below_one) y) new.
Proof.
  split.
  - exact toy_uniform_unit.
  - exact (@C10_warmup_samples_below_one toyx toy_uniform_unit 5 2 freshx).
Defined.

(** ** Input checks *)

Section InputChecks.
Context {T : Type} `{Backend T}.
Variable C : @Vegas.Collab T.

Lemma _check_inputs_rejects (dim N : Z)
    (integration_domain : option (list (list T))) :
  bad_configuration C dim N integration_domain ->
  Vegas._check_inputs C dim N integration_domain = Err ValueError.
Proof.
  unfold bad_configuration, Vegas._check_inputs.
  intros [Hd | [Hn | (d & -> & Hdom)]].
  - apply Z.leb_le in Hd. rewrite Hd. reflexivity.
  - destruct (dim <=? 0)%Z; [reflexivity|]. rewrite Hn. reflexivity.
  - destruct (dim <=? 0)%Z; [reflexivity|].
    destruct (Vegas.N_too_small C dim N); [reflexivity|].
    destruct (Z.of_nat (length d) =? dim)%Z eqn:El; [|reflexivity].
    simpl. destruct Hdom as [Hlen | (b & Hin & Hb)].
    + apply Z.eqb_eq in El. contradiction.
    + destruct (forallb Vegas.bound_ok d) eqn:Ef; [|reflexivity].
      rewrite forallb_forall in Ef. rewrite (Ef b Hin) in Hb. discriminate.
Qed.

End InputChecks.

(** C7: for a configuration the checks reject ([dim <= 0], [N] too small,
    a bound that is not a pair or has not [lower < upper], a domain whose
    length is not [dim]), [integrate] raises [ValueError] and leaves the
    object as it was: nothing was assigned, no sample was drawn and the
    integrand was not called (the call log is the one of the object
    before the call). *)
Theorem C7_bad_configuration_raises_before_sampling :
  forall (T : Type) (B : Backend T) (C : @Vegas.Collab T)
         (fuel : nat) (self : Vegas.VEGAS C) (ambient : Vegas.Rng C)
         (fn : Vegas.points -> Vegas.vec) (dim N : Z)
         (integration_domain : option (list (list T))) (seed : option Z)
         (use_grid_improve : bool) (eps_rel eps_abs : T)
         (max_iterations : Z) (use_warmup : bool),
    bad_configuration C dim N integration_domain ->
    Vegas.integrate fuel self ambient fn dim N integration_domain seed
      use_grid_improve eps_rel eps_abs max_iterations use_warmup
    = Err (ValueError, self).
Proof.
  intros T B C fuel self ambient fn dim N dom seed ugi eps_rel eps_abs
         max_it uw Hbad.
  unfold Vegas.integrate, Vegas.integrate_init.
  rewrite (_check_inputs_rejects C dim N dom Hbad). reflexivity.
Qed.

(** C7 for the inverted domain [[1, 0]]. *)
Lemma C7_witness :
  bad_configuration toy64 1 10000 (Some [[1%float; 0%float]])
  /\ Vegas.integrate 100 fresh64 0%Z Toy.const_one 1 10000
       (Some [[1%float; 0%float]]) (Some 7%Z) true 0%float 0%float 20 true
     = Err (ValueError, fresh64).
Proof.
  assert (Hbad : bad_configuration toy64 1 10000 (Some [[1%float; 0%float]])).
  { right. right. exists [[1%float; 0%float]]. split; [reflexivity|].
    right. exists [1%float; 0%float]. split; [left; reflexivity|].
    vm_compute. reflexivity. }
  split; [exact Hbad|].
  apply (@C7_bad_configuration_raises_before_sampling float float64 toy64
           100%nat fresh64 0%Z Toy.const_one 1%Z 10000%Z
           (Some [[1%float; 0%float]]) (Some 7%Z) true 0%float 0%float
           20%Z true Hbad).
Defined.

(** ** The main loop *)

Section MainLoop.
Context {T : Type} `{Backend T}.
Variable C : @Vegas.Collab T.

Lemma _run_iteration_ok (self : Vegas.VEGAS C) (rs ss : list T) (r0 s0 : T) :
  Vegas.results self = rs ++ [r0] ->
  Vegas.sigma2 self = ss ++ [s0] ->
  exists acc self' r1 s1 new,
    Vegas._run_iteration self = Ok (acc, self')
    /\ Vegas.results self' = rs ++ [r1]
    /\ Vegas.sigma2 self' = ss ++ [s1]
    /\ same_config self self'
    /\ Vegas.it self' = Vegas.it self
    /\ Vegas._starting_N self' = Vegas._starting_N self
    /\ Vegas._nr_of_fevals self'
       = Vegas._nr_of_fevals self
         + Vegas.zsum (Vegas.strat_get_NH C (Vegas.strat self)
                         (Vegas._starting_N self))
    /\ Vegas.trace self' = Vegas.trace self ++ new
    /\ length (filter is_eval new) = 1%nat.
Proof.
  intros Hr Hs. unfold Vegas._run_iteration. cbn.
  destruct (Vegas.strat_get_Y C (Vegas.strat self) (Vegas.rng self)
              (Vegas.strat_get_NH C (Vegas.strat self) (Vegas._starting_N self)))
    as [y g] eqn:EY.
  cbn.
  destruct (Vegas.use_grid_improve self) eqn:EU; cbn;
    match goal with
    | |- context [Vegas.strat_accumulate_weight ?a ?b ?c ?d] =>
        destruct (Vegas.strat_accumulate_weight a b c d) as [[jf jf2] st] eqn:EA
    end;
    cbn; rewrite ?Hr, ?Hs, ?upd_last_app; cbn;
    rewrite ?Hr, ?Hs, ?upd_last_app; cbn; rewrite ?EU; cbn;
    rewrite ?last_of_app; cbn;
    do 5 eexists; (split; [reflexivity|]); cbn;
    unfold same_config; cbn; rewrite <- ?app_assoc; 
    repeat split; try reflexivity; try assumption.
Qed.

Lemma stability_check_ok (eps_rel eps_abs : T) (self : Vegas.VEGAS C) :
  Vegas.results self <> [] ->
  paired self ->
  exists fl,
    Vegas.stability_check eps_rel eps_abs self = Ok fl
    /\ same_config self (flow_state fl)
    /\ Vegas.it (flow_state fl) = Vegas.it self
    /\ Vegas.trace (flow_state fl) = Vegas.trace self
    /\ paired (flow_state fl)
    /\ (is_break fl = true -> flow_state fl = self).
Proof.
  intros NE P. unfold Vegas.stability_check.
  rewrite _get_result_weighted by assumption.
  destruct (_get_chisq_ok (Vegas.results self) (Vegas.sigma2 self) NE P)
    as [chi2 Echi].
  rewrite Echi. cbn.
  destruct (Vegas.errors_acceptable _ _ _ _ _);
    [|destruct (ltb _ _); [|destruct (gtb _ _)]];
    eexists; (split; [reflexivity|]); unfold same_config, paired; cbn;
    repeat split; try reflexivity; try assumption; try discriminate.
Qed.

Lemma loop_body_ok (eps_rel eps_abs : T) (self : Vegas.VEGAS C) :
  paired self ->
  exists fl new,
    Vegas.loop_body eps_rel eps_abs self = Ok fl
    /\ same_config self (flow_state fl)
    /\ Vegas.it (flow_state fl) = Vegas.it self + 1
    /\ paired (flow_state fl)
    /\ (is_break fl = true -> Vegas.results (flow_state fl) <> [])
    /\ (is_break fl = false ->
        Vegas.it (flow_state fl) <= Vegas._max_iterations self)
    /\ Vegas.trace (flow_state fl) = Vegas.trace self ++ new
    /\ length (filter is_eval new) = 1%nat.
Proof.
  intro P. unfold Vegas.loop_body.
  destruct (_run_iteration_ok
              (Vegas.set_sigma2 (Vegas.sigma2 self ++ [of_Z 0])
                 (Vegas.set_results (Vegas.results self ++ [of_Z 0])
                    (Vegas.set_it (Vegas.it self + 1) self)))
              (Vegas.results self) (Vegas.sigma2 self) (of_Z 0) (of_Z 0)
              eq_refl eq_refl)
    as (acc & s1 & r1 & v1 & new & E & Hr & Hs & Hc & Hit & _ & _ & Htr & Hev).
  cbn in E. cbn. rewrite E. cbn.
  cbn in Hc, Hit, Htr.
  assert (P1 : paired s1).
  { unfold paired in *. rewrite Hr, Hs, !length_app, P. reflexivity. }
  assert (NE1 : Vegas.results s1 <> []).
  { rewrite Hr. destruct (Vegas.results self); discriminate. }
  destruct Hc as (Hc1 & Hc2 & Hc3 & Hc4 & Hc5 & Hc6 & Hc7). cbn in *.
  destruct (Vegas._max_iterations s1 <? Vegas.it s1) eqn:Emax.
  { exists (Vegas.Break s1), new. unfold same_config. cbn.
    repeat split; try assumption; try discriminate; auto. }
  apply Z.ltb_ge in Emax.
  match goal with
  | |- context [if ?c then Ok (Vegas.Break s1) else _] => destruct c
  end.
  { exists (Vegas.Break s1), new. unfold same_config. cbn.
    repeat split; try assumption; try discriminate; auto. }
  destruct (Vegas.it s1 mod 5 =? 0).
  - destruct (stability_check_ok eps_rel eps_abs s1 NE1 P1)
      as (fl & Efl & Sc & Sit & Str & Sp & Sb).
    exists fl, new. rewrite Efl.
    destruct Sc as (S1 & S2 & S3 & S4 & S5 & S6 & S7).
    unfold same_config.
    repeat split; try congruence.
    intro Hb. rewrite (Sb Hb). exact NE1.
  - exists (Vegas.Continue s1), new. unfold same_config. cbn.
    repeat split; try assumption; try discriminate; auto. intros _. lia.
Qed.

(** With fuel for [_max_iterations + 1 - it] passes (and one pass at
    least) the loop reaches a [break], after at least one and at most
    that many passes. *)
Lemma main_loop_ok (eps_rel eps_abs : T) (fuel : nat) :
  forall self : Vegas.VEGAS C,
    paired self ->
    (1 <= fuel)%nat ->
    (Z.to_nat (Vegas._max_iterations self + 1 - Vegas.it self) <= fuel)%nat ->
    exists self' new,
      Vegas.main_loop fuel eps_rel eps_abs self = Ok (Some self')
      /\ same_config self self'
      /\ paired self'
      /\ Vegas.results self' <> []
      /\ Vegas.it self < Vegas.it self'
      /\ Vegas.it self'
         <= Z.max (Vegas.it self + 1) (Vegas._max_iterations self + 1)
      /\ Vegas.trace self' = Vegas.trace self ++ new
      /\ length (filter is_eval new)
         = Z.to_nat (Vegas.it self' - Vegas.it self).
Proof.
  induction fuel as [|fuel IH]; intros self P F1 F2; [lia|].
  cbn.
  destruct (loop_body_ok eps_rel eps_abs self P)
    as (fl & new & E & Hc & Hit & P1 & Hb & Hcont & Htr & Hev).
  rewrite E. cbn. destruct fl as [s1|s1]; cbn in *.
  - exists s1, new.
    repeat (split; [first [reflexivity | assumption | lia
                          | apply Hb; reflexivity]|]).
    rewrite Hev, Hit.
    replace (Vegas.it self + 1 - Vegas.it self) with 1 by lia.
    reflexivity.
  - specialize (Hcont eq_refl).
    destruct Hc as (S1 & S2 & S3 & S4 & S5 & S6 & S7).
    destruct (IH s1 P1) as (s2 & new2 & E2 & Hc2 & P2 & NE2 & Hlt & Hle & Htr2 & Hev2);
      [lia | rewrite S2; lia |].
    exists s2, (new ++ new2). rewrite E2.
    destruct Hc2 as (R1 & R2 & R3 & R4 & R5 & R6 & R7).
    split; [reflexivity|].
    split; [unfold same_config; repeat split; congruence|].
    repeat (split; [first [assumption | lia]|]).
    split; [rewrite Htr2, Htr, app_assoc; reflexivity|].
    rewrite filter_app, length_app, Hev, Hev2. lia.
Qed.


(** With valid inputs the statements before the loop do not raise; the
    loop starts at iteration 0 with no records, no evaluation counted and
    the budget [N // max_iterations]. *)
Lemma integrate_init_ok (self : Vegas.VEGAS C)
    (ambient : Vegas.Rng C) (fn : Vegas.points -> Vegas.vec) (dim N : Z)
    (integration_domain : option (list (list T))) (seed : option Z)
    (use_grid_improve : bool) (max_iterations : Z) (use_warmup : bool) :
  Vegas._check_inputs C dim N integration_domain = Ok tt ->
  max_iterations <> 0 ->
  exists s1,
    Vegas.integrate_init self ambient fn dim N integration_domain
      seed use_grid_improve max_iterations use_warmup = Ok s1
    /\ paired s1
    /\ Vegas.it s1 = 0
    /\ Vegas._max_iterations s1 = max_iterations
    /\ Vegas._N_increment s1 = N / max_iterations
    /\ Vegas._starting_N s1 = PyInt (N / max_iterations).
Proof.
  intros Hcheck Hmax.
  unfold Vegas.integrate_init. rewrite Hcheck. cbn.
  destruct (max_iterations =? 0) eqn:E; [apply Z.eqb_eq in E; contradiction|].
  destruct use_warmup.
  - match goal with
    | |- context [Vegas._warmup_grid 5 ?n ?s] =>
        destruct (_warmup_grid_ok C 5 n s) as (s1 & new & E1 & F & _)
    end.
    exists s1. split; [exact E1|].
    unfold after_warmup in F. rewrite F. unfold paired. cbn.
    repeat split.
  - eexists. split; [reflexivity|]. unfold paired. cbn. repeat split.
Qed.

(** With valid inputs and enough fuel [integrate] returns: the loop ran
    at least one and at most [max(1, max_iterations + 1)] iterations, and
    the value is [_get_result] of the records the loop left. *)
Lemma integrate_returns (fuel : nat) (self : Vegas.VEGAS C)
    (ambient : Vegas.Rng C) (fn : Vegas.points -> Vegas.vec) (dim N : Z)
    (integration_domain : option (list (list T))) (seed : option Z)
    (use_grid_improve : bool) (eps_rel eps_abs : T) (max_iterations : Z)
    (use_warmup : bool) :
  Vegas._check_inputs C dim N integration_domain = Ok tt ->
  max_iterations <> 0 ->
  (Z.to_nat (Z.max 1 (max_iterations + 1)) <= fuel)%nat ->
  exists v self',
    Vegas.integrate fuel self ambient fn dim N integration_domain seed
      use_grid_improve eps_rel eps_abs max_iterations use_warmup
    = Ok (Some (v, self'))
    /\ _get_result (Vegas.results self') (Vegas.sigma2 self') = Ok v
    /\ 1 <= Vegas.it self' <= Z.max 1 (max_iterations + 1).
Proof.
  intros Hcheck Hmax Hfuel.
  destruct (integrate_init_ok self ambient fn dim N integration_domain seed
              use_grid_improve max_iterations use_warmup Hcheck Hmax)
    as (s1 & E1 & P1 & It1 & M1 & _ & _).
  unfold Vegas.integrate. rewrite E1. cbn.
  destruct (main_loop_ok eps_rel eps_abs fuel s1 P1)
    as (s2 & new & E2 & _ & P2 & NE2 & Hlt & Hle & _ & _).
  { lia. }
  { rewrite M1, It1. lia. }
  rewrite E2. cbn.
  rewrite _get_result_weighted by assumption. cbn.
  eexists. exists s2. split; [reflexivity|].
  split; [apply _get_result_weighted; assumption|].
  rewrite M1, It1 in Hle. lia.
Qed.

End MainLoop.

Local Open Scope float_scope.

(** C2 (the code departs from the claim): the loop tests
    [it > max_iterations] after the iteration has run, so a call whose
    budget lasts runs [max_iterations + 1] sampling iterations.  With
    [N = 59] and [max_iterations = 20] on the constant integrand 1 over
    [0,1] (two evaluations per iteration, budget test 42 > 57 never true)
    the call returns the estimate 1 after 21 iterations and 21 integrand
    batches. *)
Theorem C2_one_iteration_more_than_max_iterations :
  final_it (Vegas.integrate 100 fresh64 0%Z Toy.const_one 1 59
              (Some [[0; 1]]) (Some 7%Z) true 0 0 20 false)
  = Some 21%Z
  /\ integrand_calls (Vegas.integrate 100 fresh64 0%Z Toy.const_one 1 59
                        (Some [[0; 1]]) (Some 7%Z) true 0 0 20 false)
     = Some 21%nat
  /\ returned (Vegas.integrate 100 fresh64 0%Z Toy.const_one 1 59
                 (Some [[0; 1]]) (Some 7%Z) true 0 0 20 false)
     = Ok (Some 1).
Proof.
  repeat split; vm_compute; reflexivity.
Qed.

Local Close Scope float_scope.

(** ** The budget after an unstable check *)

Local Open Scope float_scope.

(** *** Neither comparison holds at [chi2 / 5 = 1] and for a NaN *)

Lemma SFcompare_refl_nan (s : spec_float) :
  SFeqb s s = false -> s = S754_nan.
Proof.
  unfold SFeqb. destruct s as [b|b| |b m e]; cbn; try discriminate.
  - destruct b; discriminate.
  - reflexivity.
  - rewrite Z.compare_refl, Pos.compare_cont_refl.
    destruct b; discriminate.
Qed.

Lemma SFcompare_Eq_sym (x y : spec_float) :
  SFcompare x y = Some Eq -> SFcompare y x = Some Eq.
Proof.
  destruct x as [a|a| |a m e], y as [b|b| |b n f]; cbn;
    try discriminate; try reflexivity;
    try (destruct a; discriminate); try (destruct b; discriminate).
  - destruct a, b; try discriminate; reflexivity.
  - assert (Hm : Pos.compare_cont Eq n m = CompOpp (Pos.compare_cont Eq m n))
      by (symmetry; apply (Pos.compare_cont_antisym m n Eq)).
    destruct a, b; try discriminate;
      rewrite (Z.compare_antisym e f), Hm;
      destruct (e ?= f)%Z; cbn; try discriminate;
      destruct (Pos.compare_cont Eq m n); cbn; try discriminate; reflexivity.
Qed.

Lemma float_neither_at_equal (x y : float) :
  PrimFloat.eqb x y = true ->
  PrimFloat.ltb x y = false /\ PrimFloat.ltb y x = false.
Proof.
  rewrite FloatAxioms.eqb_spec, !ltb_spec. unfold SFeqb, SFltb.
  destruct (SFcompare (Prim2SF x) (Prim2SF y)) as [[| |]|] eqn:E;
    try discriminate.
  intros _. rewrite (SFcompare_Eq_sym _ _ E). split; reflexivity.
Qed.

Lemma float_nan_quotient (c d : float) :
  PrimFloat.is_nan c = true -> Prim2SF (c / d) = S754_nan.
Proof.
  unfold PrimFloat.is_nan. rewrite FloatAxioms.eqb_spec, div_spec.
  intro E. apply negb_true_iff in E. apply SFcompare_refl_nan in E.
  rewrite E. reflexivity.
Qed.

Lemma float_neither_at_nan (c d y : float) :
  PrimFloat.is_nan c = true ->
  PrimFloat.ltb (c / d) y = false /\ PrimFloat.ltb y (c / d) = false.
Proof.
  intro E. rewrite !ltb_spec, (float_nan_quotient c d E). unfold SFltb.
  split; [reflexivity|]. destruct (Prim2SF y); reflexivity.
Qed.

Lemma xreal_neither (c : xreal) :
  div c (lit 5) = lit 1 \/ isnan c = true ->
  ltb (div c (lit 5)) (lit 1) = false /\ gtb (div c (lit 5)) (lit 1) = false.
Proof.
  unfold gtb. intros [E|E].
  - rewrite E, lit_one_exact. cbn.
    destruct (Rlt_dec 1 1) as [Hc|_]; [exfalso; lra|]. split; reflexivity.
  - destruct c; try discriminate. rewrite lit_one_exact.
    split; reflexivity.
Qed.

Section NeitherBranch.
Context {T : Type} `{Backend T}.
Variable C : @Vegas.Collab T.

Lemma stability_check_neither (eps_rel eps_abs : T) (self : Vegas.VEGAS C)
    (res : T) (chi2 : pynum T) :
  _get_result (Vegas.results self) (Vegas.sigma2 self) = Ok res ->
  _get_chisq (Vegas.results self) (Vegas.sigma2 self) = Ok chi2 ->
  ltb (div (to_T chi2) (lit 5)) (lit 1) = false ->
  gtb (div (to_T chi2) (lit 5)) (lit 1) = false ->
  Vegas.stability_check eps_rel eps_abs self = Ok (Vegas.Continue self).
Proof.
  intros Hres Hchi Hlt Hgt. unfold Vegas.stability_check.
  rewrite Hres, Hchi. simpl. unfold Vegas.errors_acceptable.
  rewrite Hlt, Hgt, andb_false_r. reflexivity.
Qed.

End NeitherBranch.

(** C4 (as amended): when the check finds chi2/5 > 1 (strictly; the code
    tests [chi2 / 5.0 < 1.0] and then [chi2 / 5.0 > 1.0]), the loop continues
    with [_starting_N] grown by [_N_increment] and both record lists
    empty; when neither comparison holds, the loop continues with the
    object as it is, so with the budget and the records as they are; this
    is the case, in binary64 and in exact arithmetic, when [chi2 / 5]
    equals 1 and when chi2 is NaN; and [_N_increment] is
    [N // max_iterations], as is the budget the main loop starts
    with. *)
Theorem C4_unstable_grows_budget_and_clears_records :
  (forall (T : Type) (B : Backend T) (C : @Vegas.Collab T)
          (eps_rel eps_abs : T) (self : Vegas.VEGAS C)
          (res : T) (chi2 : pynum T),
      _get_result (Vegas.results self) (Vegas.sigma2 self) = Ok res ->
      _get_chisq (Vegas.results self) (Vegas.sigma2 self) = Ok chi2 ->
      ltb (div (to_T chi2) (lit 5)) (lit 1) = false ->
      gtb (div (to_T chi2) (lit 5)) (lit 1) = true ->
      Vegas.stability_check eps_rel eps_abs self
      = Ok (Vegas.Continue (grown_and_cleared self))
      /\ Vegas._starting_N (grown_and_cleared self)
         = py_add (Vegas._starting_N self) (PyInt (Vegas._N_increment self))
      /\ Vegas._N_increment (grown_and_cleared self) = Vegas._N_increment self
      /\ Vegas.results (grown_and_cleared self) = []
      /\ Vegas.sigma2 (grown_and_cleared self) = [])
  /\ (forall (T : Type) (B : Backend T) (C : @Vegas.Collab T)
             (eps_rel eps_abs : T) (self : Vegas.VEGAS C)
             (res : T) (chi2 : pynum T),
         _get_result (Vegas.results self) (Vegas.sigma2 self) = Ok res ->
         _get_chisq (Vegas.results self) (Vegas.sigma2 self) = Ok chi2 ->
         ltb (div (to_T chi2) (lit 5)) (lit 1) = false ->
         gtb (div (to_T chi2) (lit 5)) (lit 1) = false ->
         Vegas.stability_check eps_rel eps_abs self
         = Ok (Vegas.Continue self))
  /\ (forall (C : @Vegas.Collab float) (eps_rel eps_abs : float)
             (self : Vegas.VEGAS C) (res : float) (chi2 : pynum float),
         _get_result (Vegas.results self) (Vegas.sigma2 self) = Ok res ->
         _get_chisq (Vegas.results self) (Vegas.sigma2 self) = Ok chi2 ->
         PrimFloat.eqb (div (to_T chi2) (lit 5)) (lit 1) = true
         \/ isnan (to_T chi2) = true ->
         ltb (div (to_T chi2) (lit 5)) (lit 1) = false
         /\ gtb (div (to_T chi2) (lit 5)) (lit 1) = false
         /\ Vegas.stability_check eps_rel eps_abs self
            = Ok (Vegas.Continue self))
  /\ (forall (C : @Vegas.Collab xreal) (eps_rel eps_abs : xreal)
             (self : Vegas.VEGAS C) (res : xreal) (chi2 : pynum xreal),
         _get_result (Vegas.results self) (Vegas.sigma2 self) = Ok res ->
         _get_chisq (Vegas.results self) (Vegas.sigma2 self) = Ok chi2 ->
         div (to_T chi2) (lit 5) = lit 1 \/ isnan (to_T chi2) = true ->
         ltb (div (to_T chi2) (lit 5)) (lit 1) = false
         /\ gtb (div (to_T chi2) (lit 5)) (lit 1) = false
         /\ Vegas.stability_check eps_rel eps_abs self
            = Ok (Vegas.Continue self))
  /\ (forall (T : Type) (B : Backend T) (C : @Vegas.Collab T)
             (self : Vegas.VEGAS C) (ambient : Vegas.Rng C)
             (fn : Vegas.points -> Vegas.vec) (dim N : Z)
             (integration_domain : option (list (list T))) (seed : option Z)
             (use_grid_improve : bool) (max_iterations : Z)
             (use_warmup : bool),
         Vegas._check_inputs C dim N integration_domain = Ok tt ->
         max_iterations <> 0%Z ->
         exists s1 : Vegas.VEGAS C,
           Vegas.integrate_init self ambient fn dim N integration_domain
             seed use_grid_improve max_iterations use_warmup = Ok s1
           /\ Vegas._N_increment s1 = (N / max_iterations)%Z
           /\ Vegas._starting_N s1 = PyInt (N / max_iterations)).
Proof.
  split; [|split; [|split; [|split]]].
  - intros T B C eps_rel eps_abs self res chi2 Hres Hchi Hlt Hgt.
    split; [|repeat split].
    apply stability_check_unstable with (res := res) (chi2 := chi2);
      assumption.
  - intros T B C eps_rel eps_abs self res chi2 Hres Hchi Hlt Hgt.
    apply stability_check_neither with (res := res) (chi2 := chi2);
      assumption.
  - intros C eps_rel eps_abs self res chi2 Hres Hchi Hone.
    assert (Hn : ltb (div (to_T chi2) (lit 5)) (lit 1) = false
                 /\ gtb (div (to_T chi2) (lit 5)) (lit 1) = false).
    { unfold gtb. destruct Hone as [E|E].
      - apply float_neither_at_equal. exact E.
      - apply float_neither_at_nan. exact E. }
    destruct Hn as [Hlt Hgt]. split; [exact Hlt|]. split; [exact Hgt|].
    apply stability_check_neither with (res := res) (chi2 := chi2);
      assumption.
  - intros C eps_rel eps_abs self res chi2 Hres Hchi Hone.
    destruct (xreal_neither (to_T chi2) Hone) as [Hlt Hgt].
    split; [exact Hlt|]. split; [exact Hgt|].
    apply stability_check_neither with (res := res) (chi2 := chi2);
      assumption.
  - intros T B C self ambient fn dim N dom seed ugi max_it uw Hcheck Hmax.
    destruct (integrate_init_ok C self ambient fn dim N dom seed ugi max_it
                uw Hcheck Hmax)
      as (s1 & E & _ & _ & _ & Hinc & Hst).
    exists s1. auto.
Qed.

(** C4 at five records whose chi2 is 20, at five records whose chi2 is
    exactly 5, and for a call with [N = 1000] and 20 iterations. *)
Lemma C4_witness :
  (Vegas.stability_check 0 0 chi2_twenty
   = Ok (Vegas.Continue (grown_and_cleared chi2_twenty))
   /\ Vegas._starting_N (grown_and_cleared chi2_twenty)
      = py_add (Vegas._starting_N chi2_twenty)
               (PyInt (Vegas._N_increment chi2_twenty))
   /\ Vegas._N_increment (grown_and_cleared chi2_twenty)
      = Vegas._N_increment chi2_twenty
   /\ Vegas.results (grown_and_cleared chi2_twenty) = []
   /\ Vegas.sigma2 (grown_and_cleared chi2_twenty) = [])
  /\ Vegas.stability_check 0 0 chi2_exactly_five
     = Ok (Vegas.Continue chi2_exactly_five)
  /\ (ltb (div (to_T (PyT 5)) (lit 5)) (lit 1) = false
      /\ gtb (div (to_T (PyT 5)) (lit 5)) (lit 1) = false
      /\ Vegas.stability_check 0 0 chi2_exactly_five
         = Ok (Vegas.Continue chi2_exactly_five))
  /\ exists s1 : Vegas.VEGAS toy64,
       Vegas.integrate_init fresh64 0%Z Toy.const_one 1 1000 (Some [[0; 1]])
         (Some 7%Z) true 20 true = Ok s1
       /\ Vegas._N_increment s1 = (1000 / 20)%Z
       /\ Vegas._starting_N s1 = PyInt (1000 / 20).
Proof.
  split; [|split; [|split]].
  - apply (proj1 C4_unstable_grows_budget_and_clears_records float float64
             toy64 0 0 chi2_twenty 0 (PyT 20));
      vm_compute; reflexivity.
  - apply (proj1 (proj2 C4_unstable_grows_budget_and_clears_records)
             float float64 toy64 0 0 chi2_exactly_five 0 (PyT 5));
      vm_compute; reflexivity.
  - apply (proj1 (proj2 (proj2 C4_unstable_grows_budget_and_clears_records))
             toy64 0 0 chi2_exactly_five 0 (PyT 5)).
    + vm_compute. reflexivity.
    + vm_compute. reflexivity.
    + left. vm_compute. reflexivity.
  - apply (proj2 (proj2 (proj2 (proj2
             C4_unstable_grows_budget_and_clears_records)))
             float float64 toy64 fresh64 0%Z Toy.const_one 1%Z 1000%Z
             (Some [[0; 1]]) (Some 7%Z) true 20%Z true).
    + vm_compute. reflexivity.
    + discriminate.
Defined.

(** C4 as stated fails in binary64 at chi2/5 = 1: neither branch is taken,
    the budget is not grown and the records are kept. *)
Lemma C4_counterexample :
  ~ (forall (eps_rel eps_abs : float) (self : Vegas.VEGAS toy64)
            (chi2 : pynum float),
        _get_chisq (Vegas.results self) (Vegas.sigma2 self) = Ok chi2 ->
        PrimFloat.leb 1 (to_T chi2 / 5) = true ->
        Vegas.stability_check eps_rel eps_abs self
        = Ok (Vegas.Continue (grown_and_cleared self))).
Proof.
  intro Hc.
  specialize (Hc 0 0 chi2_exactly_five (PyT 5)).
  assert (E : Vegas.stability_check 0 0 chi2_exactly_five
              = Ok (Vegas.Continue (grown_and_cleared chi2_exactly_five))).
  { apply Hc; vm_compute; reflexivity. }
  apply (f_equal (fun o : Vegas.method toy64 (Vegas.flow toy64) =>
                    match o with
                    | Ok (Vegas.Continue s) => length (Vegas.results s)
                    | _ => 0%nat
                    end)) in E.
  vm_compute in E. discriminate E.
Qed.

Local Close Scope float_scope.

(** ** The quadrature rules on unbounded intervals *)

Section FixedDomain.
Context {T : Type} `{Backend T}.
Variable C : @Gauss.Collab T.

Lemma select_domain_fixed (self : Gauss.Gaussian C) (dim : Z)
    (integration_domain : option Gauss.domain_list) :
  Gauss.fixed_domain_rule self = true ->
  Gauss.select_domain self dim integration_domain
  = Gauss.list_times (Gauss.default_integration_domain self) dim.
Proof.
  intro F. unfold Gauss.select_domain. rewrite F.
  destruct integration_domain; reflexivity.
Qed.

Lemma fixed_domain_rule_names (self : Gauss.Gaussian C) :
  Gauss.name self = "Gauss-Laguerre"%string
  \/ Gauss.name self = "Gauss-Hermite"%string ->
  Gauss.fixed_domain_rule self = true.
Proof.
  unfold Gauss.fixed_domain_rule. intros [E|E]; rewrite E; reflexivity.
Qed.

End FixedDomain.

(** C9: an object named "Gauss-Laguerre" or "Gauss-Hermite" integrates over
    [default_integration_domain * dim] whatever domain is passed, so the
    outcome of [integrate] is the same for any two domain arguments; the
    two constructors give these names and the default domains [[0, inf]]
    and [[-inf, inf]]. *)
Theorem C9_unbounded_rules_ignore_the_domain_argument :
  (forall (T : Type) (B : Backend T) (C : @Gauss.Collab T)
          (self : Gauss.Gaussian C),
      Gauss.name self = "Gauss-Laguerre"%string
      \/ Gauss.name self = "Gauss-Hermite"%string ->
      forall (fn : Gauss.Fn C) (dim : Z) (args : option (Gauss.Args C))
             (N : Z) (d1 d2 : option Gauss.domain_list)
             (backend : option (Gauss.BackendName C)),
        Gauss.select_domain self dim d1
        = Gauss.list_times (Gauss.default_integration_domain self) dim
        /\ Gauss.integrate self fn dim args N d1 backend
           = Gauss.integrate self fn dim args N d2 backend)
  /\ (forall (T : Type) (B : Backend T) (C : @Gauss.Collab T),
         Gauss.name (Gauss.GaussLaguerre_init C) = "Gauss-Laguerre"%string
         /\ Gauss.default_integration_domain (Gauss.GaussLaguerre_init C)
            = [[Gauss.SInt 0; Gauss.SFloat infinity]]
         /\ Gauss.name (Gauss.GaussHermite_init C) = "Gauss-Hermite"%string
         /\ Gauss.default_integration_domain (Gauss.GaussHermite_init C)
            = [[Gauss.SFloat neg_infinity; Gauss.SFloat infinity]]).
Proof.
  split.
  - intros T B C self Hname fn dim args N d1 d2 backend.
    pose proof (fixed_domain_rule_names C self Hname) as F.
    split; [apply select_domain_fixed; exact F|].
    unfold Gauss.integrate.
    rewrite !(select_domain_fixed C self dim _ F). reflexivity.
  - intros T B C. repeat split.
Qed.

(** C9 for a fresh Gauss-Laguerre object and a two-dimensional call. *)
Lemma C9_witness :
  (Gauss.name (Gauss.GaussLaguerre_init no_nodes) = "Gauss-Laguerre"%string
   \/ Gauss.name (Gauss.GaussLaguerre_init no_nodes) = "Gauss-Hermite"%string)
  /\ Gauss.select_domain (Gauss.GaussLaguerre_init no_nodes) 2
       (Some [[Gauss.SInt 0; Gauss.SInt 5]; [Gauss.SInt 1; Gauss.SInt 2]])
     = Gauss.list_times
         (Gauss.default_integration_domain (Gauss.GaussLaguerre_init no_nodes)) 2
  /\ Gauss.integrate (Gauss.GaussLaguerre_init no_nodes) tt 2 None 8
       (Some [[Gauss.SInt 0; Gauss.SInt 5]; [Gauss.SInt 1; Gauss.SInt 2]]) None
     = Gauss.integrate (Gauss.GaussLaguerre_init no_nodes) tt 2 None 8
         None None.
Proof.
  split.
  - left. reflexivity.
  - apply (proj1 C9_unbounded_rules_ignore_the_domain_argument
             float float64 no_nodes (Gauss.GaussLaguerre_init no_nodes)).
    left. reflexivity.
Defined.

(** ** Independence from the object and the ambient generator *)

Section Determinism.
Context {T : Type} `{Backend T}.
Variable C : @Vegas.Collab T.

Ltac expose a b A :=
  unfold agree in A;
  let tb := fresh "tb" in let sb := fresh "sb" in let ab := fresh "ab" in
  remember (Vegas.trace b) as tb; remember (Vegas.starting_N b) as sb;
  remember (Vegas.alpha b) as ab; subst b.

Ltac crunch :=
  unfold bind, Vegas.raising; cbn;
  repeat match goal with
         | |- context [Vegas.use_grid_improve ?a] =>
             destruct (Vegas.use_grid_improve a); cbn
         | |- context [Vegas.rng_uniform ?c ?g ?n ?d] =>
             destruct (Vegas.rng_uniform c g n d) as [? ?]; cbn
         | |- context [Vegas.strat_get_Y ?c ?s ?g ?n] =>
             destruct (Vegas.strat_get_Y c s g n) as [? ?]; cbn
         | |- context [Vegas.strat_accumulate_weight ?c ?s ?n ?j] =>
             destruct (Vegas.strat_accumulate_weight c s n j) as [[? ?] ?]; cbn
         | |- context [Vegas.use_grid_improve ?a] =>
             destruct (Vegas.use_grid_improve a); cbn
         | |- context [Vegas.upd_last ?f ?l] =>
             destruct (Vegas.upd_last f l); cbn
         | |- context [Vegas.last_of ?l] =>
             destruct (Vegas.last_of l); cbn
         end.

Lemma warmup_iteration_agree (n : Z) (a b : Vegas.VEGAS C) :
  agree a b ->
  orel agree (Vegas.warmup_iteration n a) (Vegas.warmup_iteration n b).
Proof.
  intro A. expose a b A. unfold Vegas.warmup_iteration. crunch;
    reflexivity.
Qed.

Lemma _run_iteration_agree (a b : Vegas.VEGAS C) :
  agree a b ->
  orel (fun u v => fst u = fst v /\ agree (snd u) (snd v))
       (Vegas._run_iteration a) (Vegas._run_iteration b).
Proof.
  intro A. expose a b A. unfold Vegas._run_iteration. crunch;
    try reflexivity; split; reflexivity.
Qed.

Ltac agreed :=
  match goal with
  | A : agree ?a ?b |- _ => expose a b A; reflexivity
  end.

Lemma orel_bind {A B : Type} (R : A -> A -> Prop) (R' : B -> B -> Prop)
    (x y : Vegas.method C A) (k k' : A -> Vegas.method C B) :
  orel R x y ->
  (forall u v, R u v -> orel R' (k u) (k' v)) ->
  orel R' (bind x k) (bind y k').
Proof.
  intros Hxy Hk. destruct x as [u|[e s]], y as [v|[e' s']]; cbn in *;
    try contradiction; auto.
Qed.

Lemma warmup_loop_agree (k : nat) (n : Z) :
  forall a b : Vegas.VEGAS C,
    agree a b ->
    orel agree (Vegas.warmup_loop k n a) (Vegas.warmup_loop k n b).
Proof.
  induction k as [|k IH]; intros a b A; cbn; [exact A|].
  apply orel_bind with (R := agree).
  - apply warmup_iteration_agree. exact A.
  - intros u v Huv. apply IH. exact Huv.
Qed.

Lemma _warmup_grid_agree (k n : Z) (a b : Vegas.VEGAS C) :
  agree a b ->
  orel agree (Vegas._warmup_grid k n a) (Vegas._warmup_grid k n b).
Proof.
  intro A. unfold Vegas._warmup_grid. cbv zeta.
  apply orel_bind with (R := agree).
  - apply warmup_loop_agree. agreed.
  - intros u v Huv. cbn. agreed.
Qed.

Lemma stability_check_agree (eps_rel eps_abs : T) (a b : Vegas.VEGAS C) :
  agree a b ->
  orel flow_agree (Vegas.stability_check eps_rel eps_abs a)
                  (Vegas.stability_check eps_rel eps_abs b).
Proof.
  intro A. expose a b A. unfold Vegas.stability_check.
  unfold bind, Vegas.raising. cbn.
  destruct (_get_result (Vegas.results a) (Vegas.sigma2 a)); cbn;
    [|reflexivity].
  destruct (_get_chisq (Vegas.results a) (Vegas.sigma2 a)); cbn;
    [|reflexivity].
  repeat match goal with
         | |- context [if ?c then _ else _] => destruct c; cbn
         end; reflexivity.
Qed.

Lemma loop_body_agree (eps_rel eps_abs : T) (a b : Vegas.VEGAS C) :
  agree a b ->
  orel flow_agree (Vegas.loop_body eps_rel eps_abs a)
                  (Vegas.loop_body eps_rel eps_abs b).
Proof.
  intro A. unfold Vegas.loop_body. cbv zeta.
  apply orel_bind
    with (R := fun u v => fst u = fst v /\ agree (snd u) (snd v)).
  - apply _run_iteration_agree. agreed.
  - intros [acc1 s1] [acc2 s2] [_ A2]. cbn in A2. cbn [snd].
    pose proof (stability_check_agree eps_rel eps_abs s1 s2 A2) as Hs.
    expose s1 s2 A2. cbn in *.
    repeat match goal with
           | |- context [if ?c then _ else _] => destruct c; cbn
           end; first [exact Hs | reflexivity].
Qed.

Lemma main_loop_agree (eps_rel eps_abs : T) (fuel : nat) :
  forall a b : Vegas.VEGAS C,
    agree a b ->
    orel final_agree (Vegas.main_loop fuel eps_rel eps_abs a)
                     (Vegas.main_loop fuel eps_rel eps_abs b).
Proof.
  induction fuel as [|fuel IH]; intros a b A; cbn; [exact I|].
  apply orel_bind with (R := flow_agree).
  - apply loop_body_agree. exact A.
  - intros [u|u] [v|v] Huv; cbn in Huv; try contradiction.
    + exact Huv.
    + apply IH. exact Huv.
Qed.

Lemma integrate_init_agree (self self' : Vegas.VEGAS C)
    (ambient ambient' : Vegas.Rng C) (fn : Vegas.points -> Vegas.vec)
    (dim N : Z) (integration_domain : option (list (list T))) (seed : Z)
    (use_grid_improve : bool) (max_iterations : Z) (use_warmup : bool) :
  orel agree
    (Vegas.integrate_init self ambient fn dim N integration_domain
       (Some seed) use_grid_improve max_iterations use_warmup)
    (Vegas.integrate_init self' ambient' fn dim N integration_domain
       (Some seed) use_grid_improve max_iterations use_warmup).
Proof.
  unfold Vegas.integrate_init.
  destruct (Vegas._check_inputs C dim N integration_domain); cbn;
    [|reflexivity].
  destruct (max_iterations =? 0); cbn; [reflexivity|].
  destruct use_warmup; [|reflexivity].
  apply _warmup_grid_agree. reflexivity.
Qed.

Lemma integrate_agree (fuel : nat) (self self' : Vegas.VEGAS C)
    (ambient ambient' : Vegas.Rng C) (fn : Vegas.points -> Vegas.vec)
    (dim N : Z) (integration_domain : option (list (list T))) (seed : Z)
    (use_grid_improve : bool) (eps_rel eps_abs : T) (max_iterations : Z)
    (use_warmup : bool) :
  returned
    (Vegas.integrate fuel self ambient fn dim N integration_domain
       (Some seed) use_grid_improve eps_rel eps_abs max_iterations
       use_warmup)
  = returned
      (Vegas.integrate fuel self' ambient' fn dim N integration_domain
         (Some seed) use_grid_improve eps_rel eps_abs max_iterations
         use_warmup).
Proof.
  assert (R : orel (fun u v => option_map fst u = option_map fst v)
                (Vegas.integrate fuel self ambient fn dim N
                   integration_domain (Some seed) use_grid_improve eps_rel
                   eps_abs max_iterations use_warmup)
                (Vegas.integrate fuel self' ambient' fn dim N
                   integration_domain (Some seed) use_grid_improve eps_rel
                   eps_abs max_iterations use_warmup)).
  { unfold Vegas.integrate.
    apply orel_bind with (R := agree); [apply integrate_init_agree|].
    intros u v Huv.
    apply orel_bind with (R := final_agree); [apply main_loop_agree; exact Huv|].
    intros [x|] [y|] Hxy; cbn in Hxy; try contradiction; [|reflexivity].
    expose x y Hxy. unfold bind, Vegas.raising. cbn.
    destruct (_get_result (Vegas.results x) (Vegas.sigma2 x)); reflexivity. }
  destruct (Vegas.integrate fuel self ambient _ _ _ _ _ _ _ _ _ _)
    as [[[v1 s1]|]|[e1 x1]];
  destruct (Vegas.integrate fuel self' ambient' _ _ _ _ _ _ _ _ _ _)
    as [[[v2 s2]|]|[e2 x2]];
    cbn in R; try contradiction; try discriminate; cbn; congruence.
Qed.

End Determinism.

(** C8: with a seed, what [integrate] returns (or raises) is a function of
    the integrand, [dim], [N], the domain, the seed and the options alone:
    two calls with these inputs equal give the same result, whatever
    object the method is called on and whatever the ambient generator
    holds. *)
Theorem C8_seeded_integrate_is_deterministic :
  forall (T : Type) (B : Backend T) (C : @Vegas.Collab T)
         (fuel : nat) (self self' : Vegas.VEGAS C)
         (ambient ambient' : Vegas.Rng C) (fn : Vegas.points -> Vegas.vec)
         (dim N : Z) (integration_domain : option (list (list T)))
         (seed : Z) (use_grid_improve : bool) (eps_rel eps_abs : T)
         (max_iterations : Z) (use_warmup : bool),
    returned
      (Vegas.integrate fuel self ambient fn dim N integration_domain
         (Some seed) use_grid_improve eps_rel eps_abs max_iterations
         use_warmup)
    = returned
        (Vegas.integrate fuel self' ambient' fn dim N integration_domain
           (Some seed) use_grid_improve eps_rel eps_abs max_iterations
           use_warmup).
Proof.
  intros. apply integrate_agree.
Qed.

(** ** The record helpers at the edges *)

Section HelperEdges.
Context {T : Type} `{Backend T}.

Lemma nth_error_skipn_cons (A : Type) (l : list A) (i : nat) (x : A) :
  nth_error l i = Some x -> skipn i l = x :: skipn (S i) l.
Proof.
  revert l. induction i as [|i IH]; intros [|a l] E; simpl in *;
    try discriminate.
  - injection E as ->. reflexivity.
  - rewrite (IH l E). destruct l; reflexivity.
Qed.

Lemma _get_result_loop_short (rs : list T) :
  forall (idx : nat) (sigma2 : list T) (a b : pynum T),
    (length (skipn idx sigma2) < length rs)%nat ->
    _get_result_loop rs idx sigma2 a b = Err IndexError.
Proof.
  induction rs as [|r rs IH]; intros idx sigma2 a b L; cbn [length] in L; simpl; [lia|].
  destruct (nth_error sigma2 idx) as [s|] eqn:E; [|reflexivity].
  apply IH. rewrite (nth_error_skipn_cons _ _ _ _ E) in L.
  cbn [length] in L. lia.
Qed.

Lemma _get_chisq_loop_short (rs : list T) (I_final : T) :
  forall (idx : nat) (sigma2 : list T) (c : pynum T),
    (length (skipn idx sigma2) < length rs)%nat ->
    _get_chisq_loop rs idx sigma2 I_final c = Err IndexError.
Proof.
  induction rs as [|r rs IH]; intros idx sigma2 c L; cbn [length] in L; simpl; [lia|].
  destruct (nth_error sigma2 idx) as [s|] eqn:E; [|reflexivity].
  apply IH. rewrite (nth_error_skipn_cons _ _ _ _ E) in L.
  cbn [length] in L. lia.
Qed.

(** The loop of [_get_chisq] once the accumulator is a tensor. *)
Lemma _get_chisq_loop_sums (rs : list T) (I_final : T) :
  forall (idx : nat) (sigma2 : list T) (c : T),
    length (skipn idx sigma2) = length rs ->
    _get_chisq_loop rs idx sigma2 I_final (PyT c)
    = Ok (PyT (fold_left add
                 (List.map (fun r => div (pow2 (sub (fst r) I_final)) (snd r))
                           (combine rs (skipn idx sigma2))) c)).
Proof.
  induction rs as [|r rs IH]; intros idx sigma2 c L; simpl.
  - reflexivity.
  - destruct (skipn idx sigma2) as [|s rest] eqn:E; [discriminate|].
    destruct (skipn_cons_nth _ _ _ _ _ E) as [E1 E2].
    rewrite E1. simpl in L. injection L as L.
    rewrite IH by (rewrite E2; exact L).
    rewrite E2. reflexivity.
Qed.

(** [_get_chisq] as the sum of the specification around a given
    combined estimate. *)
Lemma _get_chisq_sum (results sigma2 : list T) (I_final : T) :
  results <> [] ->
  length results = length sigma2 ->
  _get_result results sigma2 = Ok I_final ->
  _get_chisq results sigma2
  = Ok (PyT (sum_of
               (List.map (fun r => div (pow2 (sub (fst r) I_final)) (snd r))
                         (combine results sigma2)))).
Proof.
  intros NE L EI. unfold _get_chisq. rewrite EI. simpl.
  destruct results as [|r rs]; [congruence|].
  destruct sigma2 as [|s ss]; [discriminate|].
  simpl. simpl in L. injection L as L.
  rewrite (_get_chisq_loop_sums rs I_final 1 (s :: ss)) by (simpl; auto).
  reflexivity.
Qed.

End HelperEdges.

(** With no record, [_get_result] and [_get_chisq] raise
    [ZeroDivisionError] (the quotient of the two integer zeros); with fewer
    variances than estimates they raise [IndexError]. *)
Theorem record_helpers_raise_on_missing_records :
  forall (T : Type) (B : Backend T),
    (forall sigma2 : list T,
        _get_result [] sigma2 = Err ZeroDivisionError
        /\ _get_chisq [] sigma2 = Err ZeroDivisionError)
    /\ (forall results sigma2 : list T,
           (length sigma2 < length results)%nat ->
           _get_result results sigma2 = Err IndexError
           /\ _get_chisq results sigma2 = Err IndexError).
Proof.
  intros T B. split.
  - intro sigma2. split; reflexivity.
  - intros results sigma2 L.
    assert (E : _get_result results sigma2 = Err IndexError).
    { unfold _get_result.
      rewrite _get_result_loop_short by (simpl; exact L). reflexivity. }
    split; [exact E|]. unfold _get_chisq. rewrite E. reflexivity.
Qed.

Local Open Scope float_scope.

(** Three estimates with two variances. *)
Lemma record_helpers_raise_on_missing_records_witness :
  Nat.lt (length [0.01; 0.04]) (length [1.0; 1.2; 1.1])
  /\ _get_result [1.0; 1.2; 1.1] [0.01; 0.04] = Err IndexError
  /\ _get_chisq [1.0; 1.2; 1.1] [0.01; 0.04] = Err IndexError.
Proof.
  assert (L : Nat.lt (length [0.01; 0.04]) (length [1.0; 1.2; 1.1]))
    by (unfold Nat.lt; simpl; lia).
  split; [exact L|].
  apply (proj2 (record_helpers_raise_on_missing_records float float64)
               [1.0; 1.2; 1.1] [0.01; 0.04] L).
Defined.

Local Close Scope float_scope.

(** ** The record helpers in exact arithmetic *)

Local Open Scope R_scope.

Lemma fold_xadd_Fin (l : list R) (a : R) :
  fold_left xadd (List.map Fin l) (Fin a) = Fin (fold_left Rplus l a).
Proof.
  revert a. induction l as [|x l IH]; intro a; simpl; [reflexivity|].
  apply IH.
Qed.

Lemma fold_Rplus_ge (l : list R) (a : R) :
  Forall (fun x => 0 <= x) l -> a <= fold_left Rplus l a.
Proof.
  revert a. induction l as [|x l IH]; intros a Hl; simpl; [lra|].
  inversion Hl as [|? ? Hx Hl']; subst.
  specialize (IH (a + x) Hl'). lra.
Qed.

Lemma fold_Rplus_In (l : list R) (a x : R) :
  Forall (fun y => 0 <= y) l -> In x l -> a + x <= fold_left Rplus l a.
Proof.
  revert a. induction l as [|y l IH]; intros a Hl Hin; simpl; [contradiction|].
  inversion Hl as [|? ? Hy Hl']; subst.
  destruct Hin as [->|Hin].
  - apply (fold_Rplus_ge l (a + x) Hl').
  - specialize (IH (a + y) Hl' Hin). lra.
Qed.

Lemma recip_terms_nonneg (recs : list (R * R)) :
  positive_variances recs ->
  Forall (fun x => 0 <= x) (List.map (fun p => 1 / snd p) recs).
Proof.
  intro P. apply Forall_map. eapply Forall_impl; [|exact P].
  intros p Hp. simpl in Hp. pose proof (Rinv_0_lt_compat _ Hp). lra.
Qed.

Lemma Rsum_recip_pos (recs : list (R * R)) :
  recs <> [] -> positive_variances recs ->
  0 < Rsum (List.map (fun p => 1 / snd p) recs).
Proof.
  intros NE P. destruct recs as [|p recs]; [congruence|].
  pose proof (recip_terms_nonneg _ P) as Hn.
  pose proof (fold_Rplus_In _ 0 (1 / snd p) Hn (or_introl eq_refl)) as Hle.
  inversion P as [|? ? Hp _]; subst. simpl in Hp.
  pose proof (Rinv_0_lt_compat _ Hp). unfold Rsum. lra.
Qed.

Lemma combine_fin (recs : list (R * R)) :
  combine (fin_results recs) (fin_sigma2 recs)
  = List.map (fun p => (Fin (fst p), Fin (snd p))) recs.
Proof.
  unfold fin_results, fin_sigma2.
  induction recs as [|p recs IH]; simpl; [reflexivity|].
  rewrite IH. reflexivity.
Qed.

Lemma length_fin (recs : list (R * R)) :
  length (fin_results recs) = length (fin_sigma2 recs).
Proof. unfold fin_results, fin_sigma2. rewrite !length_map. reflexivity. Qed.

Lemma fin_results_nonempty (recs : list (R * R)) :
  recs <> [] -> fin_results recs <> [].
Proof. destruct recs; [congruence|discriminate]. Qed.

Lemma xdiv_Fin (x y : R) : y <> 0 -> xdiv (Fin x) (Fin y) = Fin (x / y).
Proof. intro Hy. simpl. destruct (Req_dec_T y 0); [contradiction|reflexivity]. Qed.

Lemma quotient_terms_fin (recs : list (R * R)) :
  positive_variances recs ->
  List.map (fun r : xreal * xreal => xdiv (fst r) (snd r))
           (List.map (fun p => (Fin (fst p), Fin (snd p))) recs)
  = List.map Fin (List.map (fun p => fst p / snd p) recs).
Proof.
  intro P. induction P as [|p recs Hp _ IH]; cbn [List.map fst snd];
    [reflexivity|].
  rewrite IH, xdiv_Fin by lra. reflexivity.
Qed.

Lemma recip_terms_fin (recs : list (R * R)) :
  positive_variances recs ->
  List.map (fun r : xreal * xreal => xdiv (Fin 1) (snd r))
           (List.map (fun p => (Fin (fst p), Fin (snd p))) recs)
  = List.map Fin (List.map (fun p => 1 / snd p) recs).
Proof.
  intro P. induction P as [|p recs Hp _ IH]; cbn [List.map fst snd];
    [reflexivity|].
  rewrite IH, xdiv_Fin by lra. reflexivity.
Qed.

Lemma weighted_mean_fin (recs : list (R * R)) :
  recs <> [] -> positive_variances recs ->
  weighted_mean (combine (fin_results recs) (fin_sigma2 recs))
  = Fin (weighted_mean_R recs).
Proof.
  intros NE P. unfold weighted_mean, sum_of. rewrite combine_fin.
  rewrite lit_one_exact.
  cbv beta iota delta [div add of_Z exact].
  rewrite (quotient_terms_fin _ P), (recip_terms_fin _ P).
  rewrite !fold_xadd_Fin.
  pose proof (Rsum_recip_pos _ NE P) as Hpos. unfold Rsum in Hpos.
  apply xdiv_Fin. lra.
Qed.

Lemma _get_result_fin (recs : list (R * R)) :
  recs <> [] -> positive_variances recs ->
  _get_result (fin_results recs) (fin_sigma2 recs)
  = Ok (Fin (weighted_mean_R recs)).
Proof.
  intros NE P.
  rewrite _get_result_weighted
    by (auto using fin_results_nonempty, length_fin).
  rewrite (weighted_mean_fin _ NE P). reflexivity.
Qed.

(** The numerator of the weighted mean lies between [lo] and [hi] times
    its denominator when every estimate lies between [lo] and [hi]. *)
Lemma weighted_sums_between (lo hi : R) (recs : list (R * R)) :
  positive_variances recs ->
  Forall (fun p => lo <= fst p <= hi) recs ->
  forall a b : R,
    lo * b <= a <= hi * b ->
    lo * fold_left Rplus (List.map (fun p => 1 / snd p) recs) b
    <= fold_left Rplus (List.map (fun p => fst p / snd p) recs) a
    <= hi * fold_left Rplus (List.map (fun p => 1 / snd p) recs) b.
Proof.
  intros P. induction P as [|p recs Hp _ IH]; intros Hb a b Hab; simpl;
    [exact Hab|].
  inversion Hb as [|? ? Hp' Hb']; subst.
  apply IH; [exact Hb'|].
  pose proof (Rinv_0_lt_compat _ Hp) as Hi.
  unfold Rdiv. rewrite Rmult_1_l. nra.
Qed.

Lemma weighted_mean_R_between (lo hi : R) (recs : list (R * R)) :
  recs <> [] -> positive_variances recs ->
  Forall (fun p => lo <= fst p <= hi) recs ->
  lo <= weighted_mean_R recs <= hi.
Proof.
  intros NE P Hb.
  pose proof (Rsum_recip_pos _ NE P) as Hpos.
  pose proof (weighted_sums_between lo hi recs P Hb 0 0) as Hs.
  unfold weighted_mean_R. unfold Rsum in *.
  set (num := fold_left Rplus (List.map (fun p => fst p / snd p) recs) 0) in *.
  set (den := fold_left Rplus (List.map (fun p => 1 / snd p) recs) 0) in *.
  assert (Hs' : lo * den <= num <= hi * den) by (apply Hs; lra).
  assert (E : num / den * den = num) by (field; lra).
  pose proof (Rinv_0_lt_compat _ Hpos) as Hi.
  split.
  - apply (Rmult_le_reg_r den); [exact Hpos|]. lra.
  - apply (Rmult_le_reg_r den); [exact Hpos|]. lra.
Qed.

(** For finite estimates with positive variances [_get_result] returns the
    weighted mean as a finite number, and that number lies between any two
    bounds the estimates lie between: the combined estimate is never
    outside the range of the recorded ones. *)
Theorem get_result_between_the_estimates :
  forall (recs : list (R * R)) (lo hi : R),
    recs <> [] ->
    positive_variances recs ->
    Forall (fun p => lo <= fst p <= hi) recs ->
    _get_result (fin_results recs) (fin_sigma2 recs)
    = Ok (Fin (weighted_mean_R recs))
    /\ lo <= weighted_mean_R recs <= hi.
Proof.
  intros recs lo hi NE P Hb. split.
  - apply _get_result_fin; assumption.
  - apply weighted_mean_R_between; assumption.
Qed.

(** The two records of the specification's example, between 1 and 1.2. *)
Lemma get_result_between_the_estimates_witness :
  ([(1, 1 / 100); (12 / 10, 4 / 100)] <> []
   /\ positive_variances [(1, 1 / 100); (12 / 10, 4 / 100)]
   /\ Forall (fun p => 1 <= fst p <= 12 / 10)
             [(1, 1 / 100); (12 / 10, 4 / 100)])
  /\ _get_result (fin_results [(1, 1 / 100); (12 / 10, 4 / 100)])
                 (fin_sigma2 [(1, 1 / 100); (12 / 10, 4 / 100)])
     = Ok (Fin (weighted_mean_R [(1, 1 / 100); (12 / 10, 4 / 100)]))
  /\ 1 <= weighted_mean_R [(1, 1 / 100); (12 / 10, 4 / 100)] <= 12 / 10.
Proof.
  assert (NE : [(1, 1 / 100); (12 / 10, 4 / 100)] <> []) by discriminate.
  assert (P : positive_variances [(1, 1 / 100); (12 / 10, 4 / 100)]).
  { repeat constructor; simpl; lra. }
  assert (Hb : Forall (fun p => 1 <= fst p <= 12 / 10)
                      [(1, 1 / 100); (12 / 10, 4 / 100)]).
  { repeat constructor; simpl; lra. }
  split; [auto|].
  exact (get_result_between_the_estimates _ 1 (12 / 10) NE P Hb).
Defined.

(** *** The error estimate *)

Lemma recip_values_fin (vs : list R) :
  Forall (fun v => 0 < v) vs ->
  List.map (fun v : xreal => xdiv (Fin 1) v) (List.map Fin vs)
  = List.map Fin (List.map (fun v => 1 / v) vs).
Proof.
  intro P. induction P as [|v vs Hv _ IH]; cbn [List.map]; [reflexivity|].
  rewrite IH, xdiv_Fin by lra. reflexivity.
Qed.

Lemma recip_values_nonneg (vs : list R) :
  Forall (fun v => 0 < v) vs ->
  Forall (fun x => 0 <= x) (List.map (fun v => 1 / v) vs).
Proof.
  intro P. apply Forall_map. eapply Forall_impl; [|exact P].
  intros v Hv. simpl in Hv. pose proof (Rinv_0_lt_compat _ Hv). lra.
Qed.

Lemma Rsum_recip_values_pos (vs : list R) :
  vs <> [] -> Forall (fun v => 0 < v) vs ->
  0 < Rsum (List.map (fun v => 1 / v) vs).
Proof.
  intros NE P. destruct vs as [|v vs]; [congruence|].
  pose proof (recip_values_nonneg _ P) as Hn.
  pose proof (fold_Rplus_In _ 0 (1 / v) Hn (or_introl eq_refl)) as Hle.
  inversion P as [|? ? Hv _]; subst.
  pose proof (Rinv_0_lt_compat _ Hv). unfold Rsum. lra.
Qed.

Lemma _get_error_fin (vs : list R) :
  vs <> [] -> Forall (fun v => 0 < v) vs ->
  _get_error (List.map Fin vs) = Fin (error_R vs).
Proof.
  intros NE P. rewrite _get_error_recip_sqrt. unfold sum_of, error_R.
  rewrite lit_one_exact.
  cbv beta iota delta [div add of_Z sqrt exact].
  rewrite (recip_values_fin _ P), fold_xadd_Fin.
  pose proof (Rsum_recip_values_pos _ NE P) as Hpos. unfold Rsum in *.
  set (S := fold_left Rplus (List.map (fun v => 1 / v) vs) 0) in *.
  unfold xsqrt. destruct (Rlt_dec S 0) as [Hn|_]; [lra|].
  pose proof (sqrt_lt_R0 S Hpos). apply xdiv_Fin. lra.
Qed.

Lemma error_R_pos (vs : list R) :
  vs <> [] -> Forall (fun v => 0 < v) vs -> 0 < error_R vs.
Proof.
  intros NE P. unfold error_R.
  pose proof (sqrt_lt_R0 _ (Rsum_recip_values_pos _ NE P)) as Hs.
  pose proof (Rinv_0_lt_compat _ Hs). lra.
Qed.

Lemma error_R_le_each (vs : list R) (v : R) :
  Forall (fun v => 0 < v) vs -> In v vs -> error_R vs <= R_sqrt.sqrt v.
Proof.
  intros P Hin.
  assert (NE : vs <> []) by (destruct vs; [contradiction|discriminate]).
  assert (Hv : 0 < v) by (rewrite Forall_forall in P; exact (P v Hin)).
  pose proof (Rsum_recip_values_pos _ NE P) as Hpos.
  assert (Hge : 1 / v <= Rsum (List.map (fun v => 1 / v) vs)).
  { pose proof (fold_Rplus_In _ 0 (1 / v) (recip_values_nonneg _ P)
                  (in_map (fun v => 1 / v) vs v Hin)) as H.
    unfold Rsum. lra. }
  unfold error_R.
  set (S := Rsum (List.map (fun v => 1 / v) vs)) in *.
  pose proof (sqrt_lt_R0 v Hv) as Hsv.
  assert (Hle : / R_sqrt.sqrt v <= R_sqrt.sqrt S).
  { rewrite <- sqrt_inv. apply sqrt_le_1_alt.
    unfold Rdiv in Hge. rewrite Rmult_1_l in Hge. exact Hge. }
  pose proof (Rinv_0_lt_compat _ Hsv) as Hi.
  unfold Rdiv. rewrite Rmult_1_l.
  rewrite <- (Rinv_inv (R_sqrt.sqrt v)).
  apply Rinv_le_contravar; assumption.
Qed.

Lemma error_R_shrinks (vs : list R) (v : R) :
  vs <> [] -> Forall (fun v => 0 < v) vs -> 0 < v ->
  error_R (vs ++ [v]) < error_R vs.
Proof.
  intros NE P Hv. unfold error_R, Rsum.
  rewrite map_app, fold_left_app. cbn [List.map fold_left].
  pose proof (Rsum_recip_values_pos _ NE P) as Hpos. unfold Rsum in Hpos.
  set (S := fold_left Rplus (List.map (fun v => 1 / v) vs) 0) in *.
  pose proof (Rinv_0_lt_compat _ Hv) as Hi.
  assert (Hlt : R_sqrt.sqrt S < R_sqrt.sqrt (S + 1 / v)).
  { apply sqrt_lt_1_alt. lra. }
  pose proof (sqrt_lt_R0 S Hpos) as Hs.
  unfold Rdiv at 1 3. rewrite !Rmult_1_l.
  apply Rinv_lt_contravar; [|exact Hlt].
  apply Rmult_lt_0_compat; lra.
Qed.

(** For positive variances the error estimate is the finite positive number
    [1 / sqrt(Sum(1/variance_k))]; it is at most the standard deviation
    [sqrt(variance_k)] of every single record, and one more record makes it
    strictly smaller. *)
Theorem get_error_below_every_record_and_shrinking :
  forall vs : list R,
    vs <> [] ->
    Forall (fun v => 0 < v) vs ->
    _get_error (List.map Fin vs) = Fin (error_R vs)
    /\ 0 < error_R vs
    /\ (forall v, In v vs -> error_R vs <= R_sqrt.sqrt v)
    /\ (forall v, 0 < v ->
          _get_error (List.map Fin (vs ++ [v])) = Fin (error_R (vs ++ [v]))
          /\ error_R (vs ++ [v]) < error_R vs).
Proof.
  intros vs NE P. split; [|split; [|split]].
  - apply _get_error_fin; assumption.
  - apply error_R_pos; assumption.
  - intros v Hin. apply error_R_le_each; assumption.
  - intros v Hv. split.
    + apply _get_error_fin.
      * destruct vs; discriminate.
      * apply Forall_app. split; [exact P|]. constructor; [exact Hv|constructor].
    + apply error_R_shrinks; assumption.
Qed.

(** The variances of the specification's example. *)
Lemma get_error_below_every_record_and_shrinking_witness :
  ([1 / 100; 4 / 100] <> [] /\ Forall (fun v => 0 < v) [1 / 100; 4 / 100])
  /\ _get_error (List.map Fin [1 / 100; 4 / 100])
     = Fin (error_R [1 / 100; 4 / 100])
  /\ 0 < error_R [1 / 100; 4 / 100]
  /\ (forall v, In v [1 / 100; 4 / 100] ->
        error_R [1 / 100; 4 / 100] <= R_sqrt.sqrt v)
  /\ (forall v, 0 < v ->
        _get_error (List.map Fin ([1 / 100; 4 / 100] ++ [v]))
        = Fin (error_R ([1 / 100; 4 / 100] ++ [v]))
        /\ error_R ([1 / 100; 4 / 100] ++ [v]) < error_R [1 / 100; 4 / 100]).
Proof.
  assert (NE : [1 / 100; 4 / 100] <> []) by discriminate.
  assert (P : Forall (fun v => 0 < v) [1 / 100; 4 / 100]).
  { repeat constructor; lra. }
  split; [auto|].
  exact (get_error_below_every_record_and_shrinking _ NE P).
Defined.

(** *** Chi square *)

Lemma chisq_terms_fin (I : R) (recs : list (R * R)) :
  positive_variances recs ->
  List.map (fun r : xreal * xreal =>
              xdiv (xmul (xsub (fst r) (Fin I)) (xsub (fst r) (Fin I))) (snd r))
           (List.map (fun p => (Fin (fst p), Fin (snd p))) recs)
  = List.map Fin
      (List.map (fun p => (fst p - I) * (fst p - I) / snd p) recs).
Proof.
  intro P. induction P as [|p recs Hp _ IH]; cbn [List.map fst snd];
    [reflexivity|].
  rewrite IH. cbn [xsub xopp xadd xmul]. rewrite xdiv_Fin by lra.
  reflexivity.
Qed.

Lemma _get_chisq_fin (recs : list (R * R)) :
  recs <> [] -> positive_variances recs ->
  _get_chisq (fin_results recs) (fin_sigma2 recs)
  = Ok (PyT (Fin (chi_square_R recs))).
Proof.
  intros NE P.
  rewrite (_get_chisq_sum _ _ (Fin (weighted_mean_R recs)))
    by (auto using fin_results_nonempty, length_fin, _get_result_fin).
  unfold sum_of, chi_square_R, Rsum, pow2. rewrite combine_fin.
  cbv beta iota delta [div add sub mul of_Z exact].
  rewrite (chisq_terms_fin _ _ P), fold_xadd_Fin. reflexivity.
Qed.

Lemma chi_square_R_nonneg (recs : list (R * R)) :
  positive_variances recs -> 0 <= chi_square_R recs.
Proof.
  intro P. unfold chi_square_R, Rsum. apply fold_Rplus_ge.
  apply Forall_map. eapply Forall_impl; [|exact P].
  intros p Hp. simpl in Hp. pose proof (Rinv_0_lt_compat _ Hp) as Hi.
  unfold Rdiv. apply Rmult_le_pos; [|lra].
  apply Rle_0_sqr.
Qed.

Lemma equal_estimates_sums (r : R) (recs : list (R * R)) :
  Forall (fun p => fst p = r) recs ->
  forall b : R,
    fold_left Rplus (List.map (fun p => fst p / snd p) recs) (r * b)
    = r * fold_left Rplus (List.map (fun p => 1 / snd p) recs) b.
Proof.
  intro E. induction E as [|p recs Hp _ IH]; intro b; simpl; [reflexivity|].
  rewrite <- IH. f_equal. rewrite Hp. unfold Rdiv. ring.
Qed.

Lemma fold_Rplus_zeros (l : list R) (a : R) :
  Forall (fun x => x = 0) l -> fold_left Rplus l a = a.
Proof.
  revert a. induction l as [|x l IH]; intros a Hl; simpl; [reflexivity|].
  inversion Hl as [|? ? Hx Hl']; subst. rewrite IH by exact Hl'. ring.
Qed.

Lemma equal_estimates_mean (r : R) (recs : list (R * R)) :
  recs <> [] -> positive_variances recs ->
  Forall (fun p => fst p = r) recs ->
  weighted_mean_R recs = r.
Proof.
  intros NE P E. unfold weighted_mean_R, Rsum.
  pose proof (Rsum_recip_pos _ NE P) as Hpos. unfold Rsum in Hpos.
  pose proof (equal_estimates_sums r recs E 0) as Hs.
  rewrite Rmult_0_r in Hs. rewrite Hs. field. lra.
Qed.

Lemma equal_estimates_chisq (r : R) (recs : list (R * R)) :
  recs <> [] -> positive_variances recs ->
  Forall (fun p => fst p = r) recs ->
  chi_square_R recs = 0.
Proof.
  intros NE P E. unfold chi_square_R, Rsum.
  rewrite (equal_estimates_mean r recs NE P E).
  apply fold_Rplus_zeros. apply Forall_map.
  eapply Forall_impl; [|exact E].
  intros p Hp. simpl in Hp. rewrite Hp. unfold Rdiv. ring.
Qed.

(** For finite estimates with positive variances [_get_chisq] returns the
    finite sum [Sum((estimate_k - I)^2 / variance_k)] around the weighted
    mean [I]; it is never negative, and it is zero when all estimates
    agree (so, in particular, for a single record), in which case [I] is
    that common estimate. *)
Theorem get_chisq_nonnegative_and_zero_on_agreement :
  forall recs : list (R * R),
    recs <> [] ->
    positive_variances recs ->
    _get_chisq (fin_results recs) (fin_sigma2 recs)
    = Ok (PyT (Fin (chi_square_R recs)))
    /\ 0 <= chi_square_R recs
    /\ (forall r : R,
          Forall (fun p => fst p = r) recs ->
          _get_result (fin_results recs) (fin_sigma2 recs) = Ok (Fin r)
          /\ chi_square_R recs = 0).
Proof.
  intros recs NE P. split; [|split].
  - apply _get_chisq_fin; assumption.
  - apply chi_square_R_nonneg. exact P.
  - intros r E. split.
    + rewrite (_get_result_fin _ NE P).
      rewrite (equal_estimates_mean r recs NE P E). reflexivity.
    + apply (equal_estimates_chisq r); assumption.
Qed.

(** Two records with the same estimate. *)
Lemma get_chisq_nonnegative_and_zero_on_agreement_witness :
  ([(3, 1 / 100); (3, 4 / 100)] <> []
   /\ positive_variances [(3, 1 / 100); (3, 4 / 100)])
  /\ _get_chisq (fin_results [(3, 1 / 100); (3, 4 / 100)])
                (fin_sigma2 [(3, 1 / 100); (3, 4 / 100)])
     = Ok (PyT (Fin (chi_square_R [(3, 1 / 100); (3, 4 / 100)])))
  /\ 0 <= chi_square_R [(3, 1 / 100); (3, 4 / 100)]
  /\ (forall r : R,
        Forall (fun p => fst p = r) [(3, 1 / 100); (3, 4 / 100)] ->
        _get_result (fin_results [(3, 1 / 100); (3, 4 / 100)])
                    (fin_sigma2 [(3, 1 / 100); (3, 4 / 100)]) = Ok (Fin r)
        /\ chi_square_R [(3, 1 / 100); (3, 4 / 100)] = 0).
Proof.
  assert (NE : [(3, 1 / 100); (3, 4 / 100)] <> []) by discriminate.
  assert (P : positive_variances [(3, 1 / 100); (3, 4 / 100)]).
  { repeat constructor; simpl; lra. }
  split; [auto|].
  exact (get_chisq_nonnegative_and_zero_on_agreement _ NE P).
Defined.

Local Close Scope R_scope.

(** ** Records with a zero variance *)

Local Open Scope R_scope.

Lemma xdiv_one_zero : xdiv (Fin 1) (Fin 0) = PInf.
Proof.
  simpl. destruct (Req_dec_T 0 0) as [_|Hc]; [|congruence].
  unfold xsigned_inf. destruct (Rlt_dec 0 1); [reflexivity|lra].
Qed.

Lemma xdiv_one_nonneg (v : R) :
  0 <= v -> xdiv (Fin 1) (Fin v) = PInf \/ exists x, xdiv (Fin 1) (Fin v) = Fin x.
Proof.
  intro Hv. destruct (Req_dec_T v 0) as [->|Hnz].
  - left. apply xdiv_one_zero.
  - right. exists (1 / v). apply xdiv_Fin. exact Hnz.
Qed.

(** Once the sum of the reciprocals is infinite it stays so. *)
Lemma recip_sum_stays_PInf (recs : list (R * R)) :
  Forall (fun p => 0 <= snd p) recs ->
  fold_left xadd
    (List.map (fun r : xreal * xreal => xdiv (Fin 1) (snd r))
              (List.map (fun p => (Fin (fst p), Fin (snd p))) recs)) PInf
  = PInf.
Proof.
  intro P. induction P as [|p recs Hp _ IH]; cbn [List.map fold_left fst snd];
    [reflexivity|].
  destruct (xdiv_one_nonneg _ Hp) as [E|[x E]]; rewrite E; exact IH.
Qed.

Lemma recip_sum_PInf (recs : list (R * R)) :
  some_zero_variance recs ->
  forall a : R,
    fold_left xadd
      (List.map (fun r : xreal * xreal => xdiv (Fin 1) (snd r))
                (List.map (fun p => (Fin (fst p), Fin (snd p))) recs)) (Fin a)
    = PInf.
Proof.
  intros [P Z]. induction Z as [p recs Hz|p recs Z IH]; intro a;
    inversion P as [|? ? Hp P']; subst; cbn [List.map fold_left fst snd].
  - rewrite Hz, xdiv_one_zero. cbn [xadd]. apply recip_sum_stays_PInf. exact P'.
  - destruct (xdiv_one_nonneg _ Hp) as [E|[x E]]; rewrite E; cbn [xadd].
    + apply recip_sum_stays_PInf. exact P'.
    + apply IH. exact P'.
Qed.

Lemma xadd_not_finite_l (a b : xreal) :
  xisfinite a = false -> xisfinite (xadd a b) = false.
Proof. destruct a, b; simpl; congruence. Qed.

Lemma fold_xadd_not_finite (l : list xreal) (a : xreal) :
  xisfinite a = false -> xisfinite (fold_left xadd l a) = false.
Proof.
  revert a. induction l as [|x l IH]; intros a Ha; simpl; [exact Ha|].
  apply IH. apply xadd_not_finite_l. exact Ha.
Qed.

Lemma xdiv_by_zero_not_finite (r : R) : xisfinite (xdiv (Fin r) (Fin 0)) = false.
Proof.
  simpl. destruct (Req_dec_T 0 0) as [_|Hc]; [|congruence].
  unfold xsigned_inf. destruct (Rlt_dec 0 r); [reflexivity|].
  destruct (Rlt_dec r 0); reflexivity.
Qed.

Lemma xadd_not_finite_r (a b : xreal) :
  xisfinite b = false -> xisfinite (xadd a b) = false.
Proof. destruct a, b; simpl; congruence. Qed.

(** The sum of the quotients [estimate / variance] is not finite when a
    variance is zero. *)
Lemma quotient_sum_not_finite (recs : list (R * R)) :
  Exists (fun p => snd p = 0) recs ->
  forall a : xreal,
    xisfinite
      (fold_left xadd
         (List.map (fun r : xreal * xreal => xdiv (fst r) (snd r))
                   (List.map (fun p => (Fin (fst p), Fin (snd p))) recs)) a)
    = false.
Proof.
  intro Z. induction Z as [p recs Hz|p recs Z IH]; intro a;
    cbn [List.map fold_left fst snd].
  - apply fold_xadd_not_finite. apply xadd_not_finite_r.
    rewrite Hz. apply xdiv_by_zero_not_finite.
  - apply IH.
Qed.

Lemma xdiv_not_finite_PInf (a : xreal) :
  xisfinite a = false -> xdiv a PInf = NaN.
Proof. destruct a; simpl; congruence. Qed.

Lemma some_zero_variance_nonempty (recs : list (R * R)) :
  some_zero_variance recs -> recs <> [].
Proof. intros [_ Z] ->. inversion Z. Qed.

Lemma weighted_mean_zero_variance (recs : list (R * R)) :
  some_zero_variance recs ->
  weighted_mean (combine (fin_results recs) (fin_sigma2 recs)) = NaN.
Proof.
  intro Z. unfold weighted_mean, sum_of. rewrite combine_fin.
  rewrite lit_one_exact.
  cbv beta iota delta [div add of_Z exact].
  rewrite (recip_sum_PInf _ Z).
  apply xdiv_not_finite_PInf. apply quotient_sum_not_finite. apply Z.
Qed.

Lemma xmean_fin (recs : list (R * R)) :
  recs <> [] -> xmean (fin_results recs) = Fin (mean_R recs).
Proof.
  intro NE. unfold xmean, xsum, fin_results, mean_R, Rsum.
  rewrite <- (map_map fst Fin), fold_xadd_Fin, !length_map.
  apply xdiv_Fin. apply not_0_IZR.
  destruct recs; [congruence|]. cbn [length]. lia.
Qed.

Lemma recip_values_sum_PInf (recs : list (R * R)) :
  some_zero_variance recs ->
  fold_left xadd
    (List.map (fun v : xreal => xdiv (Fin 1) v) (fin_sigma2 recs)) (Fin 0)
  = PInf.
Proof.
  intro Z. pose proof (recip_sum_PInf _ Z 0) as E.
  rewrite map_map in E. cbn [snd] in E.
  unfold fin_sigma2. rewrite map_map. exact E.
Qed.

Lemma _get_result_zero_variance (recs : list (R * R)) :
  some_zero_variance recs ->
  _get_result (fin_results recs) (fin_sigma2 recs) = Ok (Fin (mean_R recs)).
Proof.
  intro Z. pose proof (some_zero_variance_nonempty _ Z) as NE.
  rewrite _get_result_weighted
    by (auto using fin_results_nonempty, length_fin).
  rewrite (weighted_mean_zero_variance _ Z). cbn [isnan exact xisnan].
  change (@mean xreal exact) with xmean.
  rewrite (xmean_fin _ NE). reflexivity.
Qed.

(** As soon as one recorded variance is exactly zero (and none is
    negative), the weighted quotient of [_get_result] is NaN and the
    unweighted mean of all recorded estimates is returned, whatever the
    other variances are; [_get_error] is then exactly zero. *)
Theorem zero_variance_gives_plain_mean_and_zero_error :
  forall recs : list (R * R),
    some_zero_variance recs ->
    _get_result (fin_results recs) (fin_sigma2 recs) = Ok (Fin (mean_R recs))
    /\ _get_error (fin_sigma2 recs) = Fin 0.
Proof.
  intros recs Z. split.
  - apply _get_result_zero_variance. exact Z.
  - rewrite _get_error_recip_sqrt. unfold sum_of. rewrite lit_one_exact.
    cbv beta iota delta [div add of_Z sqrt exact].
    rewrite (recip_values_sum_PInf _ Z). reflexivity.
Qed.

(** The estimates 1 and 3 with the variances 1/100 and 0: the result is
    the plain mean 2, not the estimate with the zero variance. *)
Lemma zero_variance_gives_plain_mean_and_zero_error_witness :
  some_zero_variance [(1, 1 / 100); (3, 0)]
  /\ _get_result (fin_results [(1, 1 / 100); (3, 0)])
                 (fin_sigma2 [(1, 1 / 100); (3, 0)])
     = Ok (Fin (mean_R [(1, 1 / 100); (3, 0)]))
  /\ _get_error (fin_sigma2 [(1, 1 / 100); (3, 0)]) = Fin 0.
Proof.
  assert (Z : some_zero_variance [(1, 1 / 100); (3, 0)]).
  { split.
    - repeat constructor; simpl; lra.
    - apply Exists_cons_tl. apply Exists_cons_hd. reflexivity. }
  split; [exact Z|].
  exact (zero_variance_gives_plain_mean_and_zero_error _ Z).
Defined.

(** *** A run whose iterations all record the same estimate with variance zero *)












Local Close Scope R_scope.

(** ** The calls of an iteration and the ways the loop ends *)

Section LoopCalls.
Context {T : Type} `{Backend T}.
Variable C : @Vegas.Collab T.

Lemma _run_iteration_calls (self : Vegas.VEGAS C) (rs ss : list T) (r0 s0 : T) :
  Vegas.results self = rs ++ [r0] ->
  Vegas.sigma2 self = ss ++ [s0] ->
  exists acc self' r1 s1,
    Vegas._run_iteration self = Ok (acc, self')
    /\ Vegas.results self' = rs ++ [r1]
    /\ Vegas.sigma2 self' = ss ++ [s1]
    /\ acc = sqrt (div s1 r1)
    /\ Vegas.trace self' = Vegas.trace self ++ iteration_calls self
    /\ (Vegas.use_grid_improve self = false -> Vegas.map self' = Vegas.map self)
    /\ Vegas._nr_of_fevals self'
       = Vegas._nr_of_fevals self + Vegas.zsum (iteration_neval self)
    /\ iteration_frame self self'.
Proof.
  intros Hr Hs.
  unfold Vegas._run_iteration, iteration_calls, iteration_sample,
    iteration_neval, iteration_frame.
  cbn.
  destruct (Vegas.strat_get_Y C (Vegas.strat self) (Vegas.rng self)
              (Vegas.strat_get_NH C (Vegas.strat self) (Vegas._starting_N self)))
    as [y g] eqn:EY.
  cbn.
  destruct (Vegas.use_grid_improve self) eqn:EU; cbn;
    match goal with
    | |- context [Vegas.strat_accumulate_weight ?a ?b ?c ?d] =>
        destruct (Vegas.strat_accumulate_weight a b c d) as [[jf jf2] st] eqn:EA
    end;
    cbn; rewrite ?Hr, ?Hs, ?upd_last_app; cbn;
    rewrite ?Hr, ?Hs, ?upd_last_app; cbn; rewrite ?EU; cbn;
    rewrite ?last_of_app; cbn;
    do 4 eexists; (split; [reflexivity|]); unfold Vegas.log; cbn;
    rewrite <- ?app_assoc; cbn;
    repeat split; try reflexivity; try assumption; try discriminate.
Qed.

Lemma stability_check_cases (eps_rel eps_abs : T) (self : Vegas.VEGAS C) :
  Vegas.results self <> [] ->
  paired self ->
  (converged eps_rel eps_abs self = true
   /\ Vegas.stability_check eps_rel eps_abs self = Ok (Vegas.Break self))
  \/ (converged eps_rel eps_abs self = false
      /\ exists s',
           Vegas.stability_check eps_rel eps_abs self = Ok (Vegas.Continue s')
           /\ (s' = self
               \/ (cleared_with_budget self s'
                   /\ Vegas.results s' = [] /\ Vegas.sigma2 s' = []))).
Proof.
  intros NE P. unfold Vegas.stability_check, converged.
  rewrite _get_result_weighted by assumption.
  destruct (_get_chisq_ok (Vegas.results self) (Vegas.sigma2 self) NE P)
    as [chi2 Echi].
  rewrite Echi. cbn.
  destruct (Vegas.errors_acceptable _ _ _ _ _); [left; auto|right].
  split; [reflexivity|].
  destruct (ltb _ _); [|destruct (gtb _ _)];
    eexists; (split; [reflexivity|]);
    first [ left; reflexivity
          | right; unfold cleared_with_budget; cbn; repeat split ].
Qed.

(** One pass through the body of [while True]. *)
Lemma loop_body_calls (eps_rel eps_abs : T) (self : Vegas.VEGAS C) :
  paired self ->
  exists fl new,
    Vegas.loop_body eps_rel eps_abs self = Ok fl
    /\ same_config self (flow_state fl)
    /\ Vegas.it (flow_state fl) = Vegas.it self + 1
    /\ paired (flow_state fl)
    /\ (is_break fl = true -> Vegas.results (flow_state fl) <> [])
    /\ (is_break fl = true ->
        exists c, stopped_by eps_rel eps_abs (flow_state fl) c)
    /\ (is_break fl = false ->
        Vegas.it (flow_state fl) <= Vegas._max_iterations self)
    /\ Vegas.trace (flow_state fl) = Vegas.trace self ++ new
    /\ length (filter is_eval new) = 1%nat
    /\ length (filter is_get_Y new) = 1%nat
    /\ length (filter is_update_map new)
       = (if Vegas.use_grid_improve self then 1 else 0)%nat
    /\ length (filter is_accumulate new)
       = (if Vegas.use_grid_improve self then 1 else 0)%nat
    /\ (Vegas.use_grid_improve self = false ->
        Vegas.map (flow_state fl) = Vegas.map self).
Proof.
  intro P. unfold Vegas.loop_body.
  destruct (_run_iteration_calls
              (Vegas.set_sigma2 (Vegas.sigma2 self ++ [of_Z 0])
                 (Vegas.set_results (Vegas.results self ++ [of_Z 0])
                    (Vegas.set_it (Vegas.it self + 1) self)))
              (Vegas.results self) (Vegas.sigma2 self) (of_Z 0) (of_Z 0)
              eq_refl eq_refl)
    as (acc & s1 & r1 & v1 & E & Hr & Hs & _ & Htr & Hmap & _ & Hf).
  cbn in E. cbn. rewrite E. cbn.
  cbn in Hmap.
  set (new := iteration_calls
                (Vegas.set_sigma2 (Vegas.sigma2 self ++ [of_Z 0])
                   (Vegas.set_results (Vegas.results self ++ [of_Z 0])
                      (Vegas.set_it (Vegas.it self + 1) self)))) in *.
  change (Vegas.trace s1 = Vegas.trace self ++ new) in Htr.
  assert (Hcfg : same_config self s1
                 /\ Vegas.it s1 = Vegas.it self + 1
                 /\ Vegas._max_iterations s1 = Vegas._max_iterations self
                 /\ Vegas.use_grid_improve s1 = Vegas.use_grid_improve self).
  { unfold iteration_frame in Hf. rewrite Hf. unfold same_config. cbn.
    repeat split. }
  destruct Hcfg as (Hc & Hit & Hmx & Hug).
  assert (P1 : paired s1).
  { unfold paired in *. rewrite Hr, Hs, !length_app, P. reflexivity. }
  assert (NE1 : Vegas.results s1 <> []).
  { rewrite Hr. destruct (Vegas.results self); discriminate. }
  assert (Hcount : length (filter is_eval new) = 1%nat
                   /\ length (filter is_get_Y new) = 1%nat
                   /\ length (filter is_update_map new)
                      = (if Vegas.use_grid_improve self then 1 else 0)%nat
                   /\ length (filter is_accumulate new)
                      = (if Vegas.use_grid_improve self then 1 else 0)%nat).
  { subst new. unfold iteration_calls. cbn.
    destruct (Vegas.use_grid_improve self); cbn; repeat split. }
  destruct Hcount as (K1 & K2 & K3 & K4). clearbody new.
  destruct (Vegas._max_iterations s1 <? Vegas.it s1) eqn:Emax.
  { exists (Vegas.Break s1), new. cbn.
    repeat (split; [first [reflexivity | assumption | discriminate
                          | intros _; exact NE1 ]|]); try assumption.
    split.
    - intros _. exists IterationLimit. cbn. apply Z.ltb_lt. exact Emax.
    - repeat (split; [first [assumption | discriminate]|]); assumption. }
  apply Z.ltb_ge in Emax.
  match goal with
  | |- context [if ?c then Ok (Vegas.Break s1) else _] =>
      change c with (budget_spent s1)
  end.
  destruct (budget_spent s1) eqn:Ebud.
  { exists (Vegas.Break s1), new. cbn.
    repeat (split; [first [reflexivity | assumption | discriminate
                          | intros _; exact NE1 ]|]); try assumption.
    split.
    - intros _. exists BudgetSpent. cbn. split; assumption.
    - repeat (split; [first [assumption | discriminate]|]); assumption. }
  destruct (Vegas.it s1 mod 5 =? 0) eqn:Emod.
  - apply Z.eqb_eq in Emod.
    destruct (stability_check_cases eps_rel eps_abs s1 NE1 P1)
      as [[Hconv Efl]|[Hconv (s2 & Efl & Hs2)]]; rewrite Efl.
    + exists (Vegas.Break s1), new. cbn.
      repeat (split; [first [reflexivity | assumption | discriminate
                            | intros _; exact NE1 ]|]); try assumption.
      split.
      * intros _. exists Converged. cbn. repeat split; assumption.
      * repeat (split; [first [assumption | discriminate]|]); assumption.
    + exists (Vegas.Continue s2), new. cbn.
      destruct Hs2 as [->|(Hclr & R2 & S2)].
      * repeat (split; [first [reflexivity | assumption | discriminate
                              | intros _; lia ]|]); try assumption.
      * unfold cleared_with_budget in Hclr.
        assert (Hk : same_config s1 s2
                     /\ Vegas.it s2 = Vegas.it s1
                     /\ Vegas.trace s2 = Vegas.trace s1
                     /\ Vegas.map s2 = Vegas.map s1).
        { rewrite Hclr. unfold same_config. cbn. repeat split. }
        destruct Hk as (Hc2 & Hit2 & Htr2 & Hmap2).
        destruct Hc as (A1 & A2 & A3 & A4 & A5 & A6 & A7).
        destruct Hc2 as (B1 & B2 & B3 & B4 & B5 & B6 & B7).
        split; [reflexivity|].
        split; [unfold same_config; repeat split; congruence|].
        split; [congruence|].
        split; [unfold paired; rewrite R2, S2; reflexivity|].
        split; [discriminate|]. split; [discriminate|].
        split; [intros _; lia|].
        split; [congruence|].
        repeat (split; [assumption|]).
        intro U. rewrite Hmap2. apply Hmap. exact U.
  - exists (Vegas.Continue s1), new. cbn.
    repeat (split; [first [reflexivity | assumption | discriminate
                          | intros _; lia ]|]); try assumption.
Qed.

Lemma main_loop_calls (eps_rel eps_abs : T) (fuel : nat) :
  forall self : Vegas.VEGAS C,
    paired self ->
    (1 <= fuel)%nat ->
    (Z.to_nat (Vegas._max_iterations self + 1 - Vegas.it self) <= fuel)%nat ->
    exists self' new,
      Vegas.main_loop fuel eps_rel eps_abs self = Ok (Some self')
      /\ same_config self self'
      /\ paired self'
      /\ Vegas.results self' <> []
      /\ Vegas.it self < Vegas.it self'
      /\ (exists c, stopped_by eps_rel eps_abs self' c)
      /\ Vegas.trace self' = Vegas.trace self ++ new
      /\ length (filter is_eval new)
         = Z.to_nat (Vegas.it self' - Vegas.it self)
      /\ length (filter is_get_Y new)
         = Z.to_nat (Vegas.it self' - Vegas.it self)
      /\ length (filter is_update_map new)
         = (if Vegas.use_grid_improve self
            then Z.to_nat (Vegas.it self' - Vegas.it self) else 0%nat)
      /\ length (filter is_accumulate new)
         = (if Vegas.use_grid_improve self
            then Z.to_nat (Vegas.it self' - Vegas.it self) else 0%nat)
      /\ (Vegas.use_grid_improve self = false ->
          Vegas.map self' = Vegas.map self).
Proof.
  induction fuel as [|fuel IH]; intros self P F1 F2; [lia|].
  cbn [Vegas.main_loop].
  destruct (loop_body_calls eps_rel eps_abs self P)
    as (fl & new & E & Hc & Hit & P1 & Hb & Hstop & Hcont & Htr
        & K1 & K2 & K3 & K4 & Hmap).
  rewrite E. cbn [bind]. destruct fl as [s1|s1]; cbn in *.
  - exists s1, new.
    assert (D : Z.to_nat (Vegas.it s1 - Vegas.it self) = 1%nat) by lia.
    rewrite D.
    split; [reflexivity|]. split; [assumption|]. split; [assumption|].
    split; [auto|]. split; [lia|]. split; [auto|]. split; [assumption|].
    split; [assumption|]. split; [assumption|].
    destruct (Vegas.use_grid_improve self); auto.
  - specialize (Hcont eq_refl).
    destruct Hc as (S1 & S2 & S3 & S4 & S5 & S6 & S7).
    destruct (IH s1 P1)
      as (s2 & new2 & E2 & Hc2 & P2 & NE2 & Hlt & Hst2 & Htr2
          & L1 & L2 & L3 & L4 & Hmap2);
      [lia | rewrite S2; lia |].
    exists s2, (new ++ new2). rewrite E2.
    destruct Hc2 as (R1 & R2 & R3 & R4 & R5 & R6 & R7).
    assert (D : Z.to_nat (Vegas.it s2 - Vegas.it self)
                = (1 + Z.to_nat (Vegas.it s2 - Vegas.it s1))%nat) by lia.
    rewrite D, !filter_app, !length_app, K1, K2, K3, K4, L1, L2, L3, L4, S3.
    split; [reflexivity|].
    split; [unfold same_config; repeat split; congruence|].
    split; [assumption|]. split; [assumption|]. split; [lia|].
    split; [assumption|].
    split; [rewrite Htr2, Htr, app_assoc; reflexivity|].
    split; [reflexivity|]. split; [reflexivity|].
    destruct (Vegas.use_grid_improve self) eqn:EU.
    + repeat split. intro; discriminate.
    + repeat split. intros _. rewrite Hmap2 by congruence. auto.
Qed.

Lemma warmup_loop_calls (n : nat) (N_samples : Z) :
  forall self : Vegas.VEGAS C,
  exists self' new,
    Vegas.warmup_loop n N_samples self = Ok self'
    /\ Vegas.trace self' = Vegas.trace self ++ new
    /\ length (filter is_eval new) = n
    /\ length (filter is_get_Y new) = 0%nat
    /\ length (filter is_update_map new) = n
    /\ length (filter is_accumulate new) = n.
Proof.
  induction n as [|n IH]; intro self; cbn [Vegas.warmup_loop].
  - exists self, []. rewrite app_nil_r. repeat split.
  - destruct (warmup_iteration_ok C N_samples self)
      as (s1 & E1 & _ & T1 & _ & _).
    rewrite E1. cbn [bind].
    destruct (IH s1) as (s2 & new & E2 & T2 & K1 & K2 & K3 & K4).
    exists s2, (warmup_calls N_samples self ++ new).
    rewrite E2, T2, T1, app_assoc, !filter_app, !length_app, K1, K2, K3, K4.
    repeat split.
Qed.

(** The statements of [integrate] before the loop, with the calls they
    make. *)
Lemma integrate_init_calls (self : Vegas.VEGAS C)
    (ambient : Vegas.Rng C) (fn : Vegas.points -> Vegas.vec) (dim N : Z)
    (integration_domain : option (list (list T))) (seed : option Z)
    (use_grid_improve : bool) (max_iterations : Z) (use_warmup : bool) :
  Vegas._check_inputs C dim N integration_domain = Ok tt ->
  max_iterations <> 0 ->
  exists s1 new,
    Vegas.integrate_init self ambient fn dim N integration_domain
      seed use_grid_improve max_iterations use_warmup = Ok s1
    /\ paired s1
    /\ Vegas.it s1 = 0
    /\ Vegas._max_iterations s1 = max_iterations
    /\ Vegas.N s1 = N
    /\ Vegas._dim s1 = dim
    /\ Vegas.use_grid_improve s1 = use_grid_improve
    /\ Vegas.trace s1 = Vegas.trace self ++ new
    /\ length (filter is_eval new) = (if use_warmup then 5 else 0)%nat
    /\ length (filter is_get_Y new) = 0%nat
    /\ length (filter is_update_map new) = (if use_warmup then 5 else 0)%nat
    /\ length (filter is_accumulate new) = (if use_warmup then 5 else 0)%nat
    /\ (use_warmup = false ->
        Vegas.map s1
        = Vegas.VEGASMap C dim
            (Vegas._setup_integration_domain C dim integration_domain)
            (Z.max 2 (N / max_iterations / 10))).
Proof.
  intros Hcheck Hmax.
  unfold Vegas.integrate_init. rewrite Hcheck. cbn.
  destruct (max_iterations =? 0) eqn:E; [apply Z.eqb_eq in E; contradiction|].
  destruct use_warmup.
  - unfold Vegas._warmup_grid.
    match goal with
    | |- context [Vegas.warmup_loop ?n ?m ?s] =>
        destruct (warmup_loop_calls n m s)
          as (s1 & new & E1 & Tr & K1 & K2 & K3 & K4);
        destruct (warmup_loop_ok C n m s) as (s1' & new' & E1' & F & _)
    end.
    rewrite E1 in E1'. injection E1' as <-.
    rewrite E1. cbn [bind].
    eexists. exists new. split; [reflexivity|].
    unfold warmup_frame in F. cbn in Tr.
    unfold paired. cbn.
    repeat (split; [first [reflexivity | assumption
                          | rewrite F; reflexivity]|]).
    intro; discriminate.
  - eexists. exists []. split; [reflexivity|]. unfold paired. cbn.
    rewrite app_nil_r. repeat split.
Qed.

End LoopCalls.

(** *** One iteration *)

(** [_run_iteration] on an object whose record lists end in the
    placeholders the loop has appended: it does not raise, keeps every
    earlier record and overwrites the last pair, returns
    [sqrt(sigma2[-1] / results[-1])] of the new pair, makes the calls
    [get_Y, get_X, _eval, get_Jac, (accumulate_weight, update_map,)
    update_DH] in this order, leaves the map alone when
    [use_grid_improve] is off, and leaves the budget [_starting_N], the
    iteration counter and the configuration as they are ([starting_N],
    without underscore, is the attribute it assigns).  On an object with
    no record at all it raises [IndexError], after [_eval] has been
    called. *)
Theorem run_iteration_overwrites_the_last_record :
  forall (T : Type) (B : Backend T) (C : @Vegas.Collab T) (self : Vegas.VEGAS C),
    (forall (rs ss : list T) (r0 s0 : T),
        Vegas.results self = rs ++ [r0] ->
        Vegas.sigma2 self = ss ++ [s0] ->
        exists acc self' r1 s1,
          Vegas._run_iteration self = Ok (acc, self')
          /\ Vegas.results self' = rs ++ [r1]
          /\ Vegas.sigma2 self' = ss ++ [s1]
          /\ acc = sqrt (div s1 r1)
          /\ Vegas.trace self' = Vegas.trace self ++ iteration_calls self
          /\ (Vegas.use_grid_improve self = false ->
              Vegas.map self' = Vegas.map self)
          /\ iteration_frame self self')
    /\ (Vegas.results self = [] ->
        exists self',
          Vegas._run_iteration self = Err (IndexError, self')
          /\ length (filter is_eval (Vegas.trace self'))
             = S (length (filter is_eval (Vegas.trace self)))).
Proof.
  intros T B C self. split.
  - intros rs ss r0 s0 Hr Hs.
    destruct (_run_iteration_calls C self rs ss r0 s0 Hr Hs)
      as (acc & s' & r1 & s1 & E & R & S & A & Tr & M & _ & F).
    exists acc, s', r1, s1. repeat (split; [assumption|]). exact F.
  - intro Hr. unfold Vegas._run_iteration, iteration_neval. cbn.
    destruct (Vegas.strat_get_Y C (Vegas.strat self) (Vegas.rng self)
                (Vegas.strat_get_NH C (Vegas.strat self) (Vegas._starting_N self)))
      as [y g] eqn:EY.
    cbn.
    destruct (Vegas.use_grid_improve self) eqn:EU; cbn;
      match goal with
      | |- context [Vegas.strat_accumulate_weight ?a ?b ?c ?d] =>
          destruct (Vegas.strat_accumulate_weight a b c d) as [[jf jf2] st] eqn:EA
      end;
      cbn; rewrite Hr; cbn;
      (eexists; split; [reflexivity|]); unfold Vegas.log; cbn;
      rewrite ?filter_app, ?length_app; cbn.
    all: lia.
Qed.

(** The first iteration of a run on the toy collaborators. *)
Lemma run_iteration_overwrites_the_last_record_witness :
  exists acc self' r1 s1,
    Vegas._run_iteration
      (Vegas.set_sigma2 [Fin 0] (Vegas.set_results [Fin 0] freshx))
    = Ok (acc, self')
    /\ Vegas.results self' = [] ++ [r1]
    /\ Vegas.sigma2 self' = [] ++ [s1]
    /\ acc = xsqrt (xdiv s1 r1)
    /\ Vegas.trace self'
       = Vegas.trace (Vegas.set_sigma2 [Fin 0] (Vegas.set_results [Fin 0] freshx))
         ++ iteration_calls
              (Vegas.set_sigma2 [Fin 0] (Vegas.set_results [Fin 0] freshx))
    /\ (Vegas.use_grid_improve
          (Vegas.set_sigma2 [Fin 0] (Vegas.set_results [Fin 0] freshx)) = false ->
        Vegas.map self'
        = Vegas.map (Vegas.set_sigma2 [Fin 0] (Vegas.set_results [Fin 0] freshx)))
    /\ iteration_frame
         (Vegas.set_sigma2 [Fin 0] (Vegas.set_results [Fin 0] freshx)) self'.
Proof.
  apply (proj1 (run_iteration_overwrites_the_last_record xreal exact toyx
                  (Vegas.set_sigma2 [Fin 0] (Vegas.set_results [Fin 0] freshx)))
           [] [] (Fin 0) (Fin 0)); reflexivity.
Defined.

(** *** The whole call *)

(** A call of [integrate] with inputs that pass the checks and
    [max_iterations <> 0] returns [_get_result] of the records the loop
    left, and the loop has ended for one of exactly three reasons, each a
    fact about the object returned: the iteration counter is above
    [max_iterations]; or the evaluations counted exceed
    [N - _starting_N]; or the iteration counter is a multiple of five and
    the test [(acc < eps_rel or err < eps_abs) and chi2 / 5 < 1] holds on
    the records. *)
Theorem integrate_ends_for_one_of_three_reasons :
  forall (T : Type) (B : Backend T) (C : @Vegas.Collab T)
         (fuel : nat) (self : Vegas.VEGAS C) (ambient : Vegas.Rng C)
         (fn : Vegas.points -> Vegas.vec) (dim N : Z)
         (integration_domain : option (list (list T))) (seed : option Z)
         (use_grid_improve : bool) (eps_rel eps_abs : T) (max_iterations : Z)
         (use_warmup : bool),
    Vegas._check_inputs C dim N integration_domain = Ok tt ->
    max_iterations <> 0%Z ->
    (Z.to_nat (Z.max 1 (max_iterations + 1)) <= fuel)%nat ->
    exists v self',
      Vegas.integrate fuel self ambient fn dim N integration_domain seed
        use_grid_improve eps_rel eps_abs max_iterations use_warmup
      = Ok (Some (v, self'))
      /\ _get_result (Vegas.results self') (Vegas.sigma2 self') = Ok v
      /\ Vegas._max_iterations self' = max_iterations
      /\ Vegas.N self' = N
      /\ (1 <= Vegas.it self')%Z
      /\ exists c, stopped_by eps_rel eps_abs self' c.
Proof.
  intros T B C fuel self ambient fn dim N dom seed ugi eps_rel eps_abs
    max_it use_warmup Hcheck Hmax Hfuel.
  destruct (integrate_init_calls C self ambient fn dim N dom seed ugi max_it
              use_warmup Hcheck Hmax)
    as (s1 & new1 & E1 & P1 & It1 & M1 & N1 & _).
  unfold Vegas.integrate. rewrite E1. cbn [bind].
  destruct (main_loop_calls C eps_rel eps_abs fuel s1 P1)
    as (s2 & new2 & E2 & Hc & P2 & NE2 & Hlt & Hstop & _).
  { lia. }
  { rewrite M1, It1. lia. }
  rewrite E2. cbn [bind].
  rewrite _get_result_weighted by assumption. cbn [Vegas.raising bind].
  destruct Hc as (_ & C2 & _ & C4 & _).
  eexists. exists s2. split; [reflexivity|].
  split; [apply _get_result_weighted; assumption|].
  split; [congruence|]. split; [congruence|]. split; [lia|]. exact Hstop.
Qed.

Lemma integrate_ends_for_one_of_three_reasons_witness :
  exists v self',
    Vegas.integrate 21 freshx 0%Z Toy.const_one 1 59
      (Some [[Fin 0; Fin 1]]) (Some 7%Z) true (Fin 0) (Fin 0) 20 false
    = Ok (Some (v, self'))
    /\ _get_result (Vegas.results self') (Vegas.sigma2 self') = Ok v
    /\ Vegas._max_iterations self' = 20%Z
    /\ Vegas.N self' = 59%Z
    /\ (1 <= Vegas.it self')%Z
    /\ exists c, stopped_by (Fin 0) (Fin 0) self' c.
Proof.
  apply (integrate_ends_for_one_of_three_reasons xreal exact toyx).
  - unfold Vegas._check_inputs. cbn.
    destruct (Rlt_dec 0 1) as [_|Hc]; [reflexivity|exfalso; apply Hc; lra].
  - discriminate.
  - cbn. lia.
Defined.

(** A call of [integrate] that passes the checks calls the integrand on
    exactly one batch per iteration of the loop, plus five batches when
    the warmup is on; it draws one stratified sample per iteration; the
    map is given weights and updated once per iteration when
    [use_grid_improve] is on and never when it is off (the five updates of
    the warmup happen either way); with both switched off the map the
    call ends with is the one built before the loop. *)
Theorem integrate_calls_the_integrand_once_per_iteration :
  forall (T : Type) (B : Backend T) (C : @Vegas.Collab T)
         (fuel : nat) (self : Vegas.VEGAS C) (ambient : Vegas.Rng C)
         (fn : Vegas.points -> Vegas.vec) (dim N : Z)
         (integration_domain : option (list (list T))) (seed : option Z)
         (use_grid_improve : bool) (eps_rel eps_abs : T) (max_iterations : Z)
         (use_warmup : bool),
    Vegas._check_inputs C dim N integration_domain = Ok tt ->
    max_iterations <> 0%Z ->
    (Z.to_nat (Z.max 1 (max_iterations + 1)) <= fuel)%nat ->
    exists v self' new,
      Vegas.integrate fuel self ambient fn dim N integration_domain seed
        use_grid_improve eps_rel eps_abs max_iterations use_warmup
      = Ok (Some (v, self'))
      /\ Vegas.trace self' = Vegas.trace self ++ new
      /\ length (filter is_eval new)
         = ((if use_warmup then 5 else 0) + Z.to_nat (Vegas.it self'))%nat
      /\ length (filter is_get_Y new) = Z.to_nat (Vegas.it self')
      /\ length (filter is_update_map new)
         = ((if use_warmup then 5 else 0)
            + (if use_grid_improve then Z.to_nat (Vegas.it self') else 0))%nat
      /\ length (filter is_accumulate new)
         = ((if use_warmup then 5 else 0)
            + (if use_grid_improve then Z.to_nat (Vegas.it self') else 0))%nat
      /\ (use_warmup = false -> use_grid_improve = false ->
          Vegas.map self'
          = Vegas.VEGASMap C dim
              (Vegas._setup_integration_domain C dim integration_domain)
              (Z.max 2 (N / max_iterations / 10))).
Proof.
  intros T B C fuel self ambient fn dim N dom seed ugi eps_rel eps_abs
    max_it use_warmup Hcheck Hmax Hfuel.
  destruct (integrate_init_calls C self ambient fn dim N dom seed ugi max_it
              use_warmup Hcheck Hmax)
    as (s1 & new1 & E1 & P1 & It1 & M1 & N1 & D1 & U1 & Tr1
        & K1 & K2 & K3 & K4 & Hmap1).
  unfold Vegas.integrate. rewrite E1. cbn [bind].
  destruct (main_loop_calls C eps_rel eps_abs fuel s1 P1)
    as (s2 & new2 & E2 & Hc & P2 & NE2 & Hlt & _ & Tr2
        & L1 & L2 & L3 & L4 & Hmap2).
  { lia. }
  { rewrite M1, It1. lia. }
  rewrite E2. cbn [bind].
  rewrite _get_result_weighted by assumption. cbn [Vegas.raising bind].
  rewrite It1, Z.sub_0_r, U1 in *.
  eexists. exists s2, (new1 ++ new2). split; [reflexivity|].
  rewrite Tr2, Tr1, app_assoc, !filter_app, !length_app,
    K1, K2, K3, K4, L1, L2, L3, L4.
  repeat (split; [reflexivity|]).
  intros W G. rewrite (Hmap2 G). apply Hmap1. exact W.
Qed.

Lemma integrate_calls_the_integrand_once_per_iteration_witness :
  exists v self' new,
    Vegas.integrate 21 freshx 0%Z Toy.const_one 1 59
      (Some [[Fin 0; Fin 1]]) (Some 7%Z) false (Fin 0) (Fin 0) 20 true
    = Ok (Some (v, self'))
    /\ Vegas.trace self' = Vegas.trace freshx ++ new
    /\ length (filter is_eval new) = (5 + Z.to_nat (Vegas.it self'))%nat
    /\ length (filter is_get_Y new) = Z.to_nat (Vegas.it self')
    /\ length (filter is_update_map new) = (5 + 0)%nat
    /\ length (filter is_accumulate new) = (5 + 0)%nat
    /\ (true = false -> false = false ->
        Vegas.map self'
        = Vegas.VEGASMap toyx 1
            (Vegas._setup_integration_domain toyx 1 (Some [[Fin 0; Fin 1]]))
            (Z.max 2 (59 / 20 / 10))).
Proof.
  apply (integrate_calls_the_integrand_once_per_iteration xreal exact toyx).
  - unfold Vegas._check_inputs. cbn.
    destruct (Rlt_dec 0 1) as [_|Hc]; [reflexivity|exfalso; apply Hc; lra].
  - discriminate.
  - cbn. lia.
Defined.

(** [max_iterations = 0] is not caught by the input checks: the call
    raises [ZeroDivisionError] at [N // max_iterations], before any random
    number is drawn or the integrand is called; and a configuration the
    checks reject raises [ValueError] whatever [max_iterations] is. *)
Theorem integrate_with_zero_max_iterations_divides_by_zero :
  forall (T : Type) (B : Backend T) (C : @Vegas.Collab T)
         (fuel : nat) (self : Vegas.VEGAS C) (ambient : Vegas.Rng C)
         (fn : Vegas.points -> Vegas.vec) (dim N : Z)
         (integration_domain : option (list (list T))) (seed : option Z)
         (use_grid_improve : bool) (eps_rel eps_abs : T) (use_warmup : bool),
    exists self',
      Vegas.integrate fuel self ambient fn dim N integration_domain seed
        use_grid_improve eps_rel eps_abs 0 use_warmup
      = Err (match Vegas._check_inputs C dim N integration_domain with
             | Ok _ => ZeroDivisionError
             | Err e => e
             end, self')
      /\ Vegas.trace self' = Vegas.trace self
      /\ Vegas.rng self' = Vegas.rng self
      /\ Vegas.results self' = Vegas.results self.
Proof.
  intros. unfold Vegas.integrate, Vegas.integrate_init.
  destruct (Vegas._check_inputs C dim N integration_domain) as [[]|e];
    cbn; eexists; (split; [reflexivity|]); cbn; repeat split.
Qed.

(** *** The budget after a stability check *)

Lemma xminimum_cases (a b : xreal) :
  xminimum a b = a
  \/ xltb (xminimum a b) a = true
  \/ xisnan (xminimum a b) = true.
Proof.
  unfold xminimum.
  destruct (xisnan a) eqn:Ea; [right; right; exact Ea|].
  destruct (xisnan b) eqn:Eb; [right; right; exact Eb|].
  destruct (xltb b a) eqn:El; [right; left; exact El|left; reflexivity].
Qed.

(** In exact arithmetic, a stability check on a non-empty paired record
    list does not raise, and it either leaves the object exactly as it is
    (this is the case of every [break]), or it continues with both record
    lists cleared and nothing else changed but the budget [_starting_N],
    and the new budget is the old one plus one increment, or below that,
    or NaN: a check never grows the budget by more than
    [_N_increment]. *)
Theorem stability_check_grows_the_budget_by_at_most_one_increment :
  forall (C : @Vegas.Collab xreal) (self : Vegas.VEGAS C)
         (eps_rel eps_abs : xreal),
    Vegas.results self <> [] ->
    paired self ->
    exists fl,
      Vegas.stability_check eps_rel eps_abs self = Ok fl
      /\ (flow_state fl = self
          \/ (is_break fl = false
              /\ cleared_with_budget self (flow_state fl)
              /\ Vegas.results (flow_state fl) = []
              /\ Vegas.sigma2 (flow_state fl) = []
              /\ (to_T (Vegas._starting_N (flow_state fl))
                  = to_T (py_add (Vegas._starting_N self)
                                 (PyInt (Vegas._N_increment self)))
                  \/ xltb (to_T (Vegas._starting_N (flow_state fl)))
                          (to_T (py_add (Vegas._starting_N self)
                                        (PyInt (Vegas._N_increment self))))
                     = true
                  \/ xisnan (to_T (Vegas._starting_N (flow_state fl))) = true))).
Proof.
  intros C self eps_rel eps_abs NE P. unfold Vegas.stability_check.
  rewrite _get_result_weighted by assumption.
  destruct (_get_chisq_ok (Vegas.results self) (Vegas.sigma2 self) NE P)
    as [chi2 Echi].
  rewrite Echi. cbn [bind Vegas.raising].
  destruct (Vegas.errors_acceptable _ _ _ _ _).
  { eexists. split; [reflexivity|]. left. reflexivity. }
  destruct (ltb _ _).
  { eexists. split; [reflexivity|]. right.
    unfold cleared_with_budget. cbn [flow_state is_break].
    split; [reflexivity|]. split; [reflexivity|].
    split; [reflexivity|]. split; [reflexivity|].
    apply xminimum_cases. }
  destruct (gtb _ _).
  { eexists. split; [reflexivity|]. right.
    unfold cleared_with_budget. cbn [flow_state is_break].
    split; [reflexivity|]. split; [reflexivity|].
    split; [reflexivity|]. split; [reflexivity|].
    left. reflexivity. }
  eexists. split; [reflexivity|]. left. reflexivity.
Qed.

(** The records (1, 1/100) and (1, 4/100) on a fresh object. *)
Lemma stability_check_grows_the_budget_by_at_most_one_increment_witness :
  exists fl,
    Vegas.stability_check (Fin 0) (Fin 0)
      (Vegas.set_sigma2 [Fin (1 / 100); Fin (4 / 100)]
         (Vegas.set_results [Fin 1; Fin 1] freshx))
    = Ok fl.
Proof.
  destruct (stability_check_grows_the_budget_by_at_most_one_increment toyx
              (Vegas.set_sigma2 [Fin (1 / 100); Fin (4 / 100)]
                 (Vegas.set_results [Fin 1; Fin 1] freshx))
              (Fin 0) (Fin 0))
    as (fl & E & _).
  - discriminate.
  - reflexivity.
  - exists fl. exact E.
Defined.

(** ** The quadrature front end *)

Section GaussFacts.
Context {T : Type} `{Backend T}.
Variable C : @Gauss.Collab T.

(** *** The cache of roots *)

Lemma _cached_roots_frame (k : Z * list T) (self : Gauss.Gaussian C) :
  snd (Gauss._cached_roots k self)
  = Gauss.set__cache (Gauss._cache (snd (Gauss._cached_roots k self))) self.
Proof.
  unfold Gauss._cached_roots.
  destruct (Gauss.lookup C k (Gauss._cache self)); reflexivity.
Qed.

Lemma _cached_roots_hit (k : Z * list T) (self : Gauss.Gaussian C)
    (v : list T * list T) :
  Gauss.lookup C k (Gauss._cache self) = Some v ->
  Gauss._cached_roots k self = (v, self).
Proof. intro E. unfold Gauss._cached_roots. rewrite E. reflexivity. Qed.

Lemma _cached_roots_stored (k : Z * list T) (self : Gauss.Gaussian C) :
  Gauss.key_eqb C k k = true ->
  Gauss.lookup C k (Gauss._cache (snd (Gauss._cached_roots k self)))
  = Some (fst (Gauss._cached_roots k self)).
Proof.
  intro R. unfold Gauss._cached_roots.
  destruct (Gauss.lookup C k (Gauss._cache self)) as [v|] eqn:E; cbn.
  - exact E.
  - rewrite R. reflexivity.
Qed.

Lemma _cached_roots_same_rule (k : Z * list T) (self : Gauss.Gaussian C) :
  same_rule self (snd (Gauss._cached_roots k self))
  /\ Gauss._dim (snd (Gauss._cached_roots k self)) = Gauss._dim self
  /\ Gauss._fn (snd (Gauss._cached_roots k self)) = Gauss._fn self
  /\ Gauss._integration_domain (snd (Gauss._cached_roots k self))
     = Gauss._integration_domain self.
Proof.
  rewrite _cached_roots_frame. unfold same_rule. cbn. repeat split.
Qed.

End GaussFacts.

(** [_cached_roots] computes the roots for a key at most once: after a
    call the value returned is stored under the key, a second call
    returns it again and leaves the object as it is, a value already
    stored is returned as it is (whatever the root finder would give
    now), a missing one is what the root finder gives, the entries of
    other keys are untouched, and nothing but [_cache] is assigned.  The
    key is assumed equal to itself, as a tuple of numbers is. *)
Theorem cached_roots_are_computed_once :
  forall (T : Type) (B : Backend T) (C : @Gauss.Collab T)
         (self : Gauss.Gaussian C) (k : Z * list T),
    Gauss.key_eqb C k k = true ->
    let v := fst (Gauss._cached_roots k self) in
    let self' := snd (Gauss._cached_roots k self) in
    Gauss.lookup C k (Gauss._cache self') = Some v
    /\ Gauss._cached_roots k self' = (v, self')
    /\ self' = Gauss.set__cache (Gauss._cache self') self
    /\ (forall v0, Gauss.lookup C k (Gauss._cache self) = Some v0 ->
        v = v0 /\ self' = self)
    /\ (Gauss.lookup C k (Gauss._cache self) = None ->
        v = Gauss.roots C (Gauss.root_fn self) (fst k) (snd k))
    /\ (forall k', Gauss.key_eqb C k' k = false ->
        Gauss.lookup C k' (Gauss._cache self')
        = Gauss.lookup C k' (Gauss._cache self)).
Proof.
  intros T B C self k R v self'. subst v self'.
  split; [apply _cached_roots_stored; exact R|].
  split; [apply _cached_roots_hit; apply _cached_roots_stored; exact R|].
  split; [apply _cached_roots_frame|].
  unfold Gauss._cached_roots.
  destruct (Gauss.lookup C k (Gauss._cache self)) as [v|] eqn:E; cbn.
  - split; [intros v0 E0; injection E0 as <-; auto|].
    split; [discriminate|]. reflexivity.
  - split; [discriminate|]. split; [reflexivity|].
    intros k' Hk. rewrite Hk. reflexivity.
Qed.

Lemma cached_roots_are_computed_once_witness :
  Gauss.key_eqb two_nodes degree_8 degree_8 = true
  /\ Gauss.lookup two_nodes degree_8
       (Gauss._cache
          (snd (Gauss._cached_roots degree_8 (Gauss.GaussLegendre_init two_nodes))))
     = Some (fst (Gauss._cached_roots degree_8
                    (Gauss.GaussLegendre_init two_nodes))).
Proof.
  split; [reflexivity|].
  apply (cached_roots_are_computed_once float float64 two_nodes
           (Gauss.GaussLegendre_init two_nodes) degree_8).
  reflexivity.
Defined.

(** *** Expanding a one-dimensional array *)

Section ExpandFacts.
Context {T : Type} `{Backend T}.
Variable C : @Gauss.Collab T.

Lemma length_rows_of (r n : nat) (l : list T) :
  length (Gauss.rows_of r n l) = r.
Proof.
  revert l. induction r as [|r IH]; intro l; cbn; [reflexivity|].
  rewrite IH. reflexivity.
Qed.

Lemma rows_of_row_length (r n : nat) :
  forall l : list T,
    length l = (r * n)%nat ->
    Forall (fun row => length row = n) (Gauss.rows_of r n l).
Proof.
  induction r as [|r IH]; intros l L; cbn [Gauss.rows_of]; constructor.
  - rewrite length_firstn. lia.
  - apply IH. rewrite length_skipn. lia.
Qed.

Lemma nth_rows_of (r n : nat) (d : T) :
  forall (l : list T) (i j : nat),
    (i < r)%nat -> (j < n)%nat ->
    nth j (nth i (Gauss.rows_of r n l) []) d = nth (i * n + j) l d.
Proof.
  induction r as [|r IH]; intros l i j Hi Hj; [lia|].
  cbn [Gauss.rows_of]. destruct i as [|i]; cbn [nth].
  - rewrite nth_firstn.
    destruct (Nat.ltb_spec j n); [reflexivity|lia].
  - rewrite IH by lia. rewrite nth_skipn. f_equal. lia.
Qed.

Lemma length_repeat_each (x : list T) (k : nat) :
  length (Gauss.repeat_each x k) = (length x * k)%nat.
Proof.
  unfold Gauss.repeat_each.
  induction x as [|e x IH]; cbn; [reflexivity|].
  rewrite length_app, repeat_length, IH. reflexivity.
Qed.

Lemma nth_repeat_each (k : nat) (d : T) :
  forall (x : list T) (p : nat),
    (p < length x * k)%nat ->
    nth p (Gauss.repeat_each x k) d = nth (p / k) x d.
Proof.
  unfold Gauss.repeat_each.
  induction x as [|e x IH]; intros p Hp; cbn [length] in Hp; [lia|].
  assert (Hk : (0 < k)%nat) by (destruct k; lia).
  cbn [flat_map].
  destruct (Nat.lt_ge_cases p k) as [Hlt|Hge].
  - rewrite app_nth1 by (rewrite repeat_length; exact Hlt).
    rewrite nth_repeat_lt by exact Hlt.
    rewrite Nat.div_small by exact Hlt. reflexivity.
  - rewrite app_nth2 by (rewrite repeat_length; exact Hge).
    rewrite repeat_length, IH by lia.
    replace p with ((p - k) + 1 * k)%nat at 2 by lia.
    rewrite Nat.div_add by lia.
    rewrite Nat.add_1_r. reflexivity.
Qed.

Lemma repeat_each_once (x : list T) : Gauss.repeat_each x 1 = x.
Proof.
  unfold Gauss.repeat_each.
  induction x as [|e x IH]; [reflexivity|].
  change (e :: flat_map (fun e0 : T => repeat e0 1) x = e :: x).
  f_equal. exact IH.
Qed.

Lemma _expand_dimension_1d (x : list T) (self : Gauss.Gaussian C) :
  0 <= Gauss._dim self ->
  Gauss._expand_dimension (Gauss.T1 x) self
  = Ok (Gauss.T2 (Gauss.rows_of (Z.to_nat (Gauss._dim self)) (length x)
                    (Gauss.repeat_each x (Z.to_nat (Gauss._dim self))))).
Proof.
  intro Hd. unfold Gauss._expand_dimension. cbn [Gauss.shape0].
  destruct (Z.ltb_spec (Gauss._dim self) 0) as [Hneg|_]; [lia|].
  rewrite Nat2Z.id.
  rewrite (proj2 (Nat.eqb_eq _ _)) by apply Nat.mul_comm.
  reflexivity.
Qed.

End ExpandFacts.

(** [_expand_dimension] on a one-dimensional array [x] of [n] entries,
    with [_dim = d >= 0]: the result has [d] rows of [n] entries, and the
    entry in row [i] and column [j] is [x[(i * n + j) // d]]: every entry
    of [x] is repeated [d] times in place and the run is cut into rows, so
    a row is a copy of [x] only when [d = 1]. *)
Theorem expand_dimension_repeats_entries_in_place :
  forall (T : Type) (B : Backend T) (C : @Gauss.Collab T)
         (self : Gauss.Gaussian C) (x : list T),
    (0 <= Gauss._dim self)%Z ->
    exists m : list (list T),
      Gauss._expand_dimension (Gauss.T1 x) self = Ok (Gauss.T2 m)
      /\ length m = Z.to_nat (Gauss._dim self)
      /\ Forall (fun row => length row = length x) m
      /\ (forall (i j : nat) (d : T),
             (i < Z.to_nat (Gauss._dim self))%nat ->
             (j < length x)%nat ->
             nth j (nth i m []) d
             = nth ((i * length x + j) / Z.to_nat (Gauss._dim self)) x d)
      /\ (Gauss._dim self = 1%Z -> m = [x]).
Proof.
  intros T B C self x Hd.
  eexists. split; [apply _expand_dimension_1d; exact Hd|].
  split; [apply length_rows_of|].
  split.
  { apply rows_of_row_length. rewrite length_repeat_each. lia. }
  split.
  - intros i j d Hi Hj. rewrite nth_rows_of by assumption.
    apply nth_repeat_each. nia.
  - intro E. rewrite E. change (Z.to_nat 1) with 1%nat.
    rewrite repeat_each_once. cbn [Gauss.rows_of].
    rewrite firstn_all. reflexivity.
Qed.

Local Open Scope float_scope.

(** Three nodes in two dimensions: the rows are [1, 1, 2] and [2, 3, 3]. *)
Lemma expand_dimension_repeats_entries_in_place_witness :
  (0 <= Gauss._dim (Gauss.set__dim 2 (Gauss.GaussLaguerre_init two_nodes)))%Z
  /\ Gauss._expand_dimension (Gauss.T1 [1; 2; 3])
       (Gauss.set__dim 2 (Gauss.GaussLaguerre_init two_nodes))
     = Ok (Gauss.T2 [[1; 1; 2]; [2; 3; 3]])
  /\ exists m : list (list float),
       Gauss._expand_dimension (Gauss.T1 [1; 2; 3])
         (Gauss.set__dim 2 (Gauss.GaussLaguerre_init two_nodes))
       = Ok (Gauss.T2 m)
       /\ length m = Z.to_nat 2
       /\ Forall (fun row => length row = 3%nat) m.
Proof.
  assert (Hd : (0 <= Gauss._dim
                       (Gauss.set__dim 2 (Gauss.GaussLaguerre_init two_nodes)))%Z)
    by (cbn; lia).
  split; [exact Hd|]. split; [reflexivity|].
  destruct (expand_dimension_repeats_entries_in_place float float64 two_nodes
              (Gauss.set__dim 2 (Gauss.GaussLaguerre_init two_nodes))
              [1; 2; 3] Hd) as (m & E & L & R & _).
  exists m. split; [exact E|]. split; [exact L|exact R].
Defined.

Local Close Scope float_scope.

(** *** Points and weights *)

Section PointsAndWeights.
Context {T : Type} `{Backend T}.
Variable C : @Gauss.Collab T.

Lemma _expand_dimension_shape (x t : Gauss.tensor) (self : Gauss.Gaussian C) :
  Gauss._expand_dimension x self = Ok t ->
  Gauss.shape0 t = Gauss._dim self /\ is_1d t = false.
Proof.
  unfold Gauss._expand_dimension.
  destruct (Z.ltb_spec (Gauss._dim self) 0) as [|Hd]; [discriminate|].
  destruct (Nat.eqb _ _); [|discriminate].
  intro E. injection E as <-. cbn [Gauss.shape0 is_1d].
  rewrite length_rows_of, Z2Nat.id by exact Hd. split; reflexivity.
Qed.

(** One of the two tests [if x.shape[0] != self._dim: x = expand(x)]. *)
Lemma expand_unless_dim (x t : Gauss.tensor) (self : Gauss.Gaussian C) :
  (if negb (Gauss.shape0 x =? Gauss._dim self)
   then Gauss.raising self (Gauss._expand_dimension x self)
   else Ok x) = Ok t ->
  Gauss.shape0 t = Gauss._dim self.
Proof.
  destruct (Z.eqb_spec (Gauss.shape0 x) (Gauss._dim self)) as [E|NE];
    cbn [negb].
  - intro E1. injection E1 as <-. exact E.
  - destruct (Gauss._expand_dimension x self) as [t'|e] eqn:Ex;
      cbn [Gauss.raising]; [|discriminate].
    intro E1. injection E1 as <-.
    apply (_expand_dimension_shape _ _ _ Ex).
Qed.

Lemma expand_unless_dim_1d (x : list T) (self : Gauss.Gaussian C) :
  0 <= Gauss._dim self ->
  exists t,
    (if negb (Gauss.shape0 (Gauss.T1 x) =? Gauss._dim self)
     then Gauss.raising self (Gauss._expand_dimension (Gauss.T1 x) self)
     else Ok (Gauss.T1 x)) = Ok t
    /\ (is_1d t = true <-> Z.of_nat (length x) = Gauss._dim self).
Proof.
  intro Hd. cbn [Gauss.shape0].
  destruct (Z.eqb_spec (Z.of_nat (length x)) (Gauss._dim self)) as [E|NE];
    cbn [negb].
  - eexists. split; [reflexivity|]. cbn. tauto.
  - rewrite (_expand_dimension_1d C x self Hd). cbn [Gauss.raising].
    eexists. split; [reflexivity|]. cbn. split; [discriminate|contradiction].
Qed.

End PointsAndWeights.

(** Whenever [_points_and_weights] returns, the points and the weights
    both have [_dim] as their first dimension, and nothing but the cache
    has been assigned.  For the rules without a wrapper (Gauss-Laguerre,
    Gauss-Hermite) and [_dim >= 0] it always returns, and an array stays
    one-dimensional exactly when the number of roots equals [_dim]; else
    it is expanded to two dimensions. *)
Theorem points_and_weights_have_dim_rows :
  forall (T : Type) (B : Backend T) (C : @Gauss.Collab T)
         (self : Gauss.Gaussian C) (k : Z * list T)
         (wrapper : option (list T -> list T -> Gauss.tensor * Gauss.tensor)),
    (forall xi wi self',
        Gauss._points_and_weights k wrapper self = Ok ((xi, wi), self') ->
        Gauss.shape0 xi = Gauss._dim self
        /\ Gauss.shape0 wi = Gauss._dim self
        /\ self' = snd (Gauss._cached_roots k self))
    /\ (wrapper = None ->
        (0 <= Gauss._dim self)%Z ->
        exists xi wi,
          Gauss._points_and_weights k wrapper self
          = Ok ((xi, wi), snd (Gauss._cached_roots k self))
          /\ (is_1d xi = true <->
              Z.of_nat (length (fst (fst (Gauss._cached_roots k self))))
              = Gauss._dim self)
          /\ (is_1d wi = true <->
              Z.of_nat (length (snd (fst (Gauss._cached_roots k self))))
              = Gauss._dim self)).
Proof.
  intros T B C self k wrapper.
  destruct (_cached_roots_same_rule C k self) as (_ & Hdim & _).
  unfold Gauss._points_and_weights.
  destruct (Gauss._cached_roots k self) as [[xs ws] s1] eqn:E.
  cbn [fst snd] in *. split.
  - intros xi wi self'.
    destruct (match wrapper with
              | Some w => w xs ws
              | None => (Gauss.T1 xs, Gauss.T1 ws)
              end) as [xi0 wi0].
    match goal with
    | |- context [bind ?m _] => destruct m as [xi1|e] eqn:Ex
    end; cbn [bind]; [|discriminate].
    match goal with
    | |- context [bind ?m _] => destruct m as [wi1|e] eqn:Ew
    end; cbn [bind]; [|discriminate].
    intro R. injection R as <- <- <-.
    rewrite <- Hdim.
    split; [exact (expand_unless_dim C _ _ _ Ex)|].
    split; [exact (expand_unless_dim C _ _ _ Ew)|reflexivity].
  - intros -> Hd. rewrite <- Hdim in Hd. rewrite <- Hdim.
    destruct (expand_unless_dim_1d C xs s1 Hd) as (xi & Ex & Hx).
    destruct (expand_unless_dim_1d C ws s1 Hd) as (wi & Ew & Hw).
    exists xi, wi.
    split; [|split; assumption].
    match goal with
    | |- context [bind ?m _] =>
        assert (Em : m = Ok xi) by exact Ex; rewrite Em; clear Em
    end.
    cbn [bind].
    match goal with
    | |- context [bind ?m _] =>
        assert (Em : m = Ok wi) by exact Ew; rewrite Em; clear Em
    end.
    reflexivity.
Qed.

(** Two roots in two dimensions stay one-dimensional. *)
Lemma points_and_weights_have_dim_rows_witness :
  (0 <= Gauss._dim (Gauss.set__dim 2 (Gauss.GaussLaguerre_init two_nodes)))%Z
  /\ exists xi wi,
       Gauss._points_and_weights degree_8 None
         (Gauss.set__dim 2 (Gauss.GaussLaguerre_init two_nodes))
       = Ok ((xi, wi),
             snd (Gauss._cached_roots degree_8
                    (Gauss.set__dim 2 (Gauss.GaussLaguerre_init two_nodes))))
       /\ (is_1d xi = true <->
           Z.of_nat (length (fst (fst (Gauss._cached_roots degree_8
                       (Gauss.set__dim 2 (Gauss.GaussLaguerre_init two_nodes))))))
           = Gauss._dim (Gauss.set__dim 2 (Gauss.GaussLaguerre_init two_nodes)))
       /\ (is_1d wi = true <->
           Z.of_nat (length (snd (fst (Gauss._cached_roots degree_8
                       (Gauss.set__dim 2 (Gauss.GaussLaguerre_init two_nodes))))))
           = Gauss._dim (Gauss.set__dim 2 (Gauss.GaussLaguerre_init two_nodes))).
Proof.
  assert (Hd : (0 <= Gauss._dim
                       (Gauss.set__dim 2 (Gauss.GaussLaguerre_init two_nodes)))%Z)
    by (cbn; lia).
  split; [exact Hd|].
  exact (proj2 (points_and_weights_have_dim_rows float float64 two_nodes
                  (Gauss.set__dim 2 (Gauss.GaussLaguerre_init two_nodes))
                  degree_8 None) eq_refl Hd).
Defined.

(** *** The change of interval *)

Local Open Scope R_scope.

Lemma lit_half_exact : @lit xreal exact (1 # 2) = Fin (1 / 2).
Proof.
  unfold lit. simpl. destruct (Req_dec_T 2 0) as [E|_]; [lra|reflexivity].
Qed.

Lemma wrapper_row (a b : R) (xs : list R) :
  List.map (fun e : xreal * xreal => xadd (fst e) (snd e))
    (combine
       (List.map (fun xj => xmul (Fin a) xj)
          (List.map (fun x => xmul (Fin (1 / 2)) (xsub (Fin 1) x))
             (List.map Fin xs)))
       (List.map (fun xj => xmul (Fin b) xj)
          (List.map (fun x => xmul (Fin (1 / 2)) (xadd (Fin 1) x))
             (List.map Fin xs))))
  = List.map (fun x => Fin (affine_R a b x)) xs.
Proof.
  induction xs as [|x xs IH]; cbn [List.map combine fst snd]; [reflexivity|].
  rewrite IH. reflexivity.
Qed.

Lemma wrapper_rows (x0 x1 : list xreal) (ab : list (R * R)) :
  @Gauss.madd xreal exact
    (Gauss.outer (Gauss.column 0 (fin_domain ab)) x0)
    (Gauss.outer (Gauss.column 1 (fin_domain ab)) x1)
  = List.map (fun p : R * R =>
                List.map (fun e : xreal * xreal => xadd (fst e) (snd e))
                  (combine (List.map (fun xj => xmul (Fin (fst p)) xj) x0)
                           (List.map (fun xj => xmul (Fin (snd p)) xj) x1)))
             ab.
Proof.
  unfold Gauss.madd, Gauss.outer, Gauss.column, fin_domain.
  induction ab as [|p ab IH]; cbn [List.map combine fst snd nth];
    [reflexivity|].
  rewrite IH. reflexivity.
Qed.

Lemma wrapper_func_fin (C : @Gauss.Collab xreal) (self : Gauss.Gaussian C)
    (ab : list (R * R)) (xs : list R) (wi : list xreal) :
  Gauss._integration_domain self = fin_domain ab ->
  Gauss.wrapper_func (List.map Fin xs) wi self
  = (Gauss.T2 (List.map (fun p => List.map (fun x => Fin (affine_R (fst p) (snd p) x)) xs)
                        ab),
     Gauss.T1 wi).
Proof.
  intro E. unfold Gauss.wrapper_func. rewrite E, lit_half_exact, lit_one_exact.
  rewrite wrapper_rows. do 2 f_equal.
  apply map_ext. intro p. apply wrapper_row.
Qed.

Lemma affine_R_inside (a b x : R) :
  a <= b -> -1 <= x <= 1 -> a <= affine_R a b x <= b.
Proof.
  intros Hab Hx. unfold affine_R.
  pose proof (Rmult_le_pos (b - a) (1 + x)) as H1.
  pose proof (Rmult_le_pos (b - a) (1 - x)) as H2.
  lra.
Qed.

Lemma rows_inside (xs : list R) (ab : list (R * R)) :
  Forall (fun p => fst p <= snd p) ab ->
  Forall (fun x => -1 <= x <= 1) xs ->
  Forall2 inside ab
    (List.map (fun p => List.map (fun x => Fin (affine_R (fst p) (snd p) x)) xs) ab).
Proof.
  intros Hab Hxs. induction Hab as [|p ab Hp _ IH]; cbn [List.map];
    constructor; [|exact IH].
  unfold inside. apply Forall_map. eapply Forall_impl; [|exact Hxs].
  intros x Hx. cbn [xle]. apply affine_R_inside; assumption.
Qed.

(** The change of interval of Gauss-Legendre and Gauss-Jacobi in exact
    arithmetic, for a domain of finite bounds [a_i <= b_i] and nodes in
    [-1, 1]: the weights are returned as they are; the points form one
    row per dimension and one column per node, and every point of row [i]
    lies in [a_i, b_i]; the nodes -1 and 1 are mapped to the bounds
    themselves; the constant multiplier is [(b_i - a_i) / 2] per
    dimension. *)
Theorem wrapper_func_maps_the_nodes_into_the_domain :
  forall (C : @Gauss.Collab xreal) (self : Gauss.Gaussian C)
         (ab : list (R * R)) (xs : list R) (wi : list xreal),
    Gauss._integration_domain self = fin_domain ab ->
    Forall (fun p => fst p <= snd p) ab ->
    Forall (fun x => -1 <= x <= 1) xs ->
    exists m : list (list xreal),
      Gauss.wrapper_func (List.map Fin xs) wi self = (Gauss.T2 m, Gauss.T1 wi)
      /\ Forall2 inside ab m
      /\ Forall (fun row => length row = length xs) m
      /\ (xs = [-1; 1] -> m = fin_domain ab)
      /\ (Gauss.cls self = Gauss.GaussLegendre_
          \/ Gauss.cls self = Gauss.GaussJacobi_ ->
          Gauss._get_constant_multiplier self
          = Ok (Gauss.T1 (List.map (fun p => Fin ((snd p - fst p) / 2)) ab))).
Proof.
  intros C self ab xs wi E Hab Hxs.
  eexists. split; [apply wrapper_func_fin; exact E|].
  split; [apply rows_inside; assumption|].
  split.
  { apply Forall_map. apply Forall_forall. intros p _.
    rewrite length_map. reflexivity. }
  split.
  - intros ->. unfold fin_domain. apply map_ext. intro p.
    cbn [List.map]. unfold affine_R.
    repeat f_equal; field.
  - intro Hcls. unfold Gauss._get_constant_multiplier.
    assert (Hc : Ok (Gauss.T1
                  (List.map (fun p : xreal * xreal =>
                               mul (lit (1 # 2)) (sub (snd p) (fst p)))
                     (combine (Gauss.column 0 (Gauss._integration_domain self))
                              (Gauss.column 1 (Gauss._integration_domain self)))))
                 = Ok (Gauss.T1 (List.map (fun p => Fin ((snd p - fst p) / 2)) ab))
                   :> outcome exn Gauss.tensor).
    { rewrite E, lit_half_exact. do 2 f_equal.
      unfold Gauss.column, fin_domain. clear.
      induction ab as [|p ab IH]; cbn [List.map combine nth fst snd];
        [reflexivity|].
      rewrite IH. f_equal. cbn. f_equal. field. }
    destruct Hcls as [-> | ->]; exact Hc.
Qed.

(** The unit square and the three nodes -1, 0, 1. *)
Lemma wrapper_func_maps_the_nodes_into_the_domain_witness :
  exists m : list (list xreal),
    Gauss.wrapper_func (List.map Fin [-1; 0; 1]) [Fin 1; Fin 1; Fin 1]
      legendre_on_unit_square
    = (Gauss.T2 m, Gauss.T1 [Fin 1; Fin 1; Fin 1])
    /\ Forall2 inside [(0, 1); (0, 1)] m.
Proof.
  destruct (wrapper_func_maps_the_nodes_into_the_domain three_nodes
              legendre_on_unit_square
              [(0, 1); (0, 1)] [-1; 0; 1] [Fin 1; Fin 1; Fin 1])
    as (m & E & I & _).
  - reflexivity.
  - repeat constructor; simpl; lra.
  - repeat constructor; lra.
  - exists m. split; assumption.
Defined.

Local Close Scope R_scope.

(** *** What a call of [integrate] assigns *)

Section IntegrateFrame.
Context {T : Type} `{Backend T}.
Variable C : @Gauss.Collab T.

Lemma expand_unless_dim_err (x : Gauss.tensor) (self s : Gauss.Gaussian C)
    (e : exn) :
  (if negb (Gauss.shape0 x =? Gauss._dim self)
   then Gauss.raising self (Gauss._expand_dimension x self)
   else Ok x) = Err (e, s) ->
  s = self.
Proof.
  destruct (negb _); [|discriminate].
  destruct (Gauss._expand_dimension x self); cbn [Gauss.raising];
    [discriminate|].
  intro E. injection E as _ <-. reflexivity.
Qed.

Lemma _points_and_weights_final (k : Z * list T)
    (wrapper : option (list T -> list T -> Gauss.tensor * Gauss.tensor))
    (self : Gauss.Gaussian C) :
  final_object (Gauss._points_and_weights k wrapper self) snd
  = snd (Gauss._cached_roots k self).
Proof.
  unfold Gauss._points_and_weights.
  destruct (Gauss._cached_roots k self) as [[xs ws] s1].
  destruct (match wrapper with
            | Some w => w xs ws
            | None => (Gauss.T1 xs, Gauss.T1 ws)
            end) as [xi0 wi0].
  cbn [snd].
  match goal with
  | |- context [bind ?m _] => destruct m as [xi1|[e s]] eqn:Ex
  end; cbn [bind final_object].
  - match goal with
    | |- context [bind ?m _] => destruct m as [wi1|[e s]] eqn:Ew
    end; cbn [bind final_object snd]; [reflexivity|].
    exact (expand_unless_dim_err _ _ _ _ Ew).
  - exact (expand_unless_dim_err _ _ _ _ Ex).
Qed.

Lemma _cached_roots_cache (k : Z * list T) (self : Gauss.Gaussian C) :
  (Gauss._cache (snd (Gauss._cached_roots k self)) = Gauss._cache self
   \/ Gauss._cache (snd (Gauss._cached_roots k self))
      = (k, Gauss.roots C (Gauss.root_fn self) (fst k) (snd k))
          :: Gauss._cache self)
  /\ (Gauss.lookup C k (Gauss._cache self) <> None ->
      Gauss._cache (snd (Gauss._cached_roots k self)) = Gauss._cache self).
Proof.
  unfold Gauss._cached_roots.
  destruct (Gauss.lookup C k (Gauss._cache self)); cbn; split; auto.
  intro N. congruence.
Qed.

(** The object [integrate] leaves, whether it returns or raises. *)
Lemma integrate_final (self : Gauss.Gaussian C) (fn : Gauss.Fn C) (dim : Z)
    (args : option (Gauss.Args C)) (N : Z)
    (integration_domain : option Gauss.domain_list)
    (backend : option (Gauss.BackendName C)) :
  let s0 := Gauss.set__integration_domain
              (Gauss._setup_integration_domain C dim
                 (Gauss.select_domain self dim integration_domain) backend)
              self in
  let s1 := Gauss.set__fn (Some fn) (Gauss.set__dim dim s0) in
  let r := Gauss.integrate self fn dim args N integration_domain backend in
  (final_object r snd = s0 /\ is_Ok r = false
   /\ Gauss._check_inputs C dim N (Gauss._integration_domain s0) <> Ok tt)
  \/ (final_object r snd = s1 /\ is_Ok r = false)
  \/ final_object r snd
     = snd (Gauss._cached_roots (N, Gauss.root_args self) s1).
Proof.
  cbv zeta. unfold Gauss.integrate.
  destruct (Gauss._check_inputs C dim N _) as [[]|e] eqn:Ec;
    cbn [Gauss.raising bind final_object is_Ok];
    [|left; repeat split; discriminate].
  right.
  destruct (Gauss._get_constant_multiplier _) as [const|e];
    cbn [Gauss.raising bind final_object is_Ok]; [|left; split; reflexivity].
  destruct (Gauss.get_wrapper_func _) as [wrapper|e];
    cbn [Gauss.raising bind final_object is_Ok]; [|left; split; reflexivity].
  right.
  match goal with
  | |- context [Gauss._points_and_weights ?k ?w ?s] =>
      pose proof (_points_and_weights_final k w s) as F;
      destruct (Gauss._points_and_weights k w s) as [[[xi wi] s2]|[e s2]]
  end; cbn [bind final_object snd] in *; exact F.
Qed.

End IntegrateFrame.

(** Whatever a call of [Gaussian.integrate] does, returning or raising,
    it keeps the rule of the object (class, name, root finder and its
    arguments, default domain, the flag [transform_interval] and the
    wrapper), it has assigned [_integration_domain] (before the input
    check, so also when the check fails), and it has added at most the one
    cache entry for [(N,) + root_args], none when the key was there; when
    it returns, [_dim] and [_fn] are the arguments of the call. *)
Theorem gauss_integrate_keeps_the_rule :
  forall (T : Type) (B : Backend T) (C : @Gauss.Collab T)
         (self : Gauss.Gaussian C) (fn : Gauss.Fn C) (dim : Z)
         (args : option (Gauss.Args C)) (N : Z)
         (integration_domain : option Gauss.domain_list)
         (backend : option (Gauss.BackendName C)),
    let r := Gauss.integrate self fn dim args N integration_domain backend in
    let self' := final_object r snd in
    same_rule self self'
    /\ Gauss._integration_domain self'
       = Gauss._setup_integration_domain C dim
           (Gauss.select_domain self dim integration_domain) backend
    /\ (Gauss._cache self' = Gauss._cache self
        \/ Gauss._cache self'
           = ((N, Gauss.root_args self),
              Gauss.roots C (Gauss.root_fn self) N (Gauss.root_args self))
               :: Gauss._cache self)
    /\ (Gauss.lookup C (N, Gauss.root_args self) (Gauss._cache self) <> None ->
        Gauss._cache self' = Gauss._cache self)
    /\ (is_Ok r = true ->
        Gauss._dim self' = dim /\ Gauss._fn self' = Some fn).
Proof.
  intros T B C self fn dim args N dom backend r self'. subst r self'.
  destruct (integrate_final C self fn dim args N dom backend)
    as [(F & E & _)|[(F & E)|F]]; rewrite F; clear F.
  - rewrite E. unfold same_rule. cbn. repeat split; auto; discriminate.
  - rewrite E. unfold same_rule. cbn. repeat split; auto; discriminate.
  - match goal with
    | |- context [Gauss._cached_roots ?k ?s] =>
        destruct (_cached_roots_same_rule C k s) as (R & D & Fn & Dom);
        destruct (_cached_roots_cache C k s) as (Hc & Hhit);
        rewrite ?D, ?Fn, ?Dom
    end.
    cbn in Hc, Hhit.
    split; [exact R|]. split; [reflexivity|].
    split; [exact Hc|]. split; [exact Hhit|].
    intros _. split; reflexivity.
Qed.
